(** * Hybrid region-text extraction: a shallow embedding of
      [lib/ocr-utils.ts] and [lib/pdf-utils.ts]

    Conventions of the embedding.

    - A JavaScript string is its sequence of UTF-16 code units, here a
      [list N].  The regular expressions of the source carry no [u] flag, so
      they work on code units, and [.length] is the number of code units.
    - A JavaScript number is modelled by an exact rational ([Q]); [NaN], the
      infinities and rounding are left out (a division by zero does not occur
      for a positive scale).  The only non-integer constants of the source
      are [0.8] and [1.5], and both are multiplied by a string length [n] and
      compared with a string length: [n * 1.5] is exact in doubles, and
      [n * 0.8] is off an integer by at least 0.2 unless [n = 5k], where the
      double product rounds to [4k]; so for lengths below [2^50] the double
      comparisons decide as the rational ones.
    - A call that may throw returns a [completion].  The fields of the
      [OCRExtractor] object and the log of the calls to [worker.recognize]
      are threaded through a small state-and-exception monad; what
      tesseract.js and pdf.js answer is a parameter of the functions. *)

From Stdlib Require Import Ascii String DecimalString.
From Stdlib Require Import List NArith ZArith QArith Qminmax Bool Lia Lqa.
Import ListNotations.

Set Implicit Arguments.
Close Scope Q_scope.
Open Scope nat_scope.

(* ================================================================== *)
(** ** Strings as code-unit sequences *)

Abbreviation code_unit := N (only parsing).
Abbreviation jsstring := (list N) (only parsing).

(** The code units of an ASCII literal. *)
Definition lit (s : string) : jsstring :=
  List.map N_of_ascii (list_ascii_of_string s).

Module Char.
Open Scope N_scope.

Definition between (lo hi c : N) : bool := (lo <=? c) && (c <=? hi).

(** [\s] of a RegExp, which is also the set [String.prototype.trim]
    strips: WhiteSpace and LineTerminator of ECMAScript. *)
Definition isSpace (c : N) : bool :=
  between 9 13 c || (c =? 32) || (c =? 0xA0) || (c =? 0x1680)
  || between 0x2000 0x200A c || (c =? 0x2028) || (c =? 0x2029)
  || (c =? 0x202F) || (c =? 0x205F) || (c =? 0x3000) || (c =? 0xFEFF).

Definition isDigit (c : N) : bool := between 48 57 c.      (* \d *)
Definition isUpper (c : N) : bool := between 65 90 c.      (* [A-Z] *)
Definition isLower (c : N) : bool := between 97 122 c.     (* [a-z] *)
Definition isAlpha (c : N) : bool := isUpper c || isLower c.
(** [\w] without the [u] flag: [A-Za-z0-9_]. *)
Definition isWord (c : N) : bool := isAlpha c || isDigit c || (c =? 95).

Definition space := 32.
Definition dollar := 36.
Definition rparen := 41.
Definition dot := 46.
Definition digit0 := 48.
Definition digit5 := 53.
Definition upperI := 73.
Definition upperO := 79.
Definition upperS := 83.
Definition backslash := 92.
Definition caret := 94.
Definition underscore := 95.
Definition lbrace := 123.
Definition pipe := 124.
Definition rbrace := 125.
End Char.

Fixpoint takeWhile (p : code_unit -> bool) (s : jsstring) : jsstring :=
  match s with
  | c :: t => if p c then c :: takeWhile p t else []
  | [] => []
  end.

Fixpoint dropWhile (p : code_unit -> bool) (s : jsstring) : jsstring :=
  match s with
  | c :: t => if p c then dropWhile p t else s
  | [] => []
  end.

(** [String.prototype.trim]. *)
Definition trimStart (s : jsstring) : jsstring := dropWhile Char.isSpace s.
Definition trimEnd (s : jsstring) : jsstring :=
  rev (dropWhile Char.isSpace (rev s)).
Definition trim (s : jsstring) : jsstring := trimEnd (trimStart s).

(* ================================================================== *)
(** ** [String.prototype.replace] with a global regular expression

    A [matcher] is a pattern tried at the head of the remaining input.  When
    it matches it gives the replacement text and how many code units the
    match consumes beyond the first one (every pattern of the source matches
    at least one code unit).  [replace_from] is the engine's scan: at each
    index try the pattern; on a match emit the replacement and resume at the
    end of the match, otherwise copy one code unit and move on. *)

Definition matcher := jsstring -> option (jsstring * nat).

Fixpoint replace_from (m : matcher) (skip : nat) (s : jsstring) : jsstring :=
  match s with
  | [] => []
  | c :: t =>
      match skip with
      | S k => replace_from m k t
      | O =>
          match m s with
          | Some (repl, extra) => repl ++ replace_from m extra t
          | None => c :: replace_from m 0 t
          end
      end
  end.

Definition replaceAll (m : matcher) (s : jsstring) : jsstring :=
  replace_from m 0 s.

(** [/\s+/g -> ' '] *)
Definition re_spaces : matcher := fun s =>
  match s with
  | c :: t =>
      if Char.isSpace c
      then Some ([Char.space], length (takeWhile Char.isSpace t))
      else None
  | [] => None
  end.

(** [/(\d+)\s*\.\s*([A-Z])/g -> '$1. $2'].  Each quantifier is followed by a
    code unit outside its own class, so the greedy choice is the only one
    that can succeed. *)
Definition re_numbering : matcher := fun s =>
  let ds := takeWhile Char.isDigit s in
  let r0 := dropWhile Char.isDigit s in
  let w1 := takeWhile Char.isSpace r0 in
  match ds, dropWhile Char.isSpace r0 with
  | _ :: _, d :: r1 =>
      if (d =? Char.dot)%N then
        let w2 := takeWhile Char.isSpace r1 in
        match dropWhile Char.isSpace r1 with
        | L :: _ =>
            if Char.isUpper L
            then Some (ds ++ [Char.dot; Char.space; L],
                       pred (length ds + length w1 + 1 + length w2 + 1))
            else None
        | [] => None
        end
      else None
  | _, _ => None
  end.

(** [/([a-z])\s*\)\s*/g -> '$1) '] *)
Definition re_lettering : matcher := fun s =>
  match s with
  | c :: t =>
      if Char.isLower c then
        let w1 := takeWhile Char.isSpace t in
        match dropWhile Char.isSpace t with
        | p :: r1 =>
            if (p =? Char.rparen)%N
            then Some ([c; Char.rparen; Char.space],
                       length w1 + 1 + length (takeWhile Char.isSpace r1))
            else None
        | [] => None
        end
      else None
  | [] => None
  end.

(** [/\|\s*/g -> 'I'] *)
Definition re_pipe : matcher := fun s =>
  match s with
  | c :: t =>
      if (c =? Char.pipe)%N
      then Some ([Char.upperI], length (takeWhile Char.isSpace t))
      else None
  | [] => None
  end.

(** [/0/g -> 'O'] and [/5/g -> 'S']: one code unit for one code unit. *)
Definition subst (a b : code_unit) (s : jsstring) : jsstring :=
  List.map (fun c => if (c =? a)%N then b else c) s.

(** [/\s*\$\s*/g -> '$'] *)
Definition re_dollar : matcher := fun s =>
  let w1 := takeWhile Char.isSpace s in
  match dropWhile Char.isSpace s with
  | d :: r1 =>
      if (d =? Char.dollar)%N
      then Some ([Char.dollar],
                 pred (length w1 + 1 + length (takeWhile Char.isSpace r1)))
      else None
  | [] => None
  end.

(** [/\\\s+/g -> '\\'] *)
Definition re_backslash : matcher := fun s =>
  match s with
  | c :: t =>
      if (c =? Char.backslash)%N then
        match takeWhile Char.isSpace t with
        | (_ :: _) as w => Some ([Char.backslash], length w)
        | [] => None
        end
      else None
  | [] => None
  end.

(** [/[|_]+/g -> ' '] *)
Definition isArtifact (c : code_unit) : bool :=
  ((c =? Char.pipe) || (c =? Char.underscore))%N.

Definition re_artifacts : matcher := fun s =>
  match s with
  | c :: t =>
      if isArtifact c
      then Some ([Char.space], length (takeWhile isArtifact t))
      else None
  | [] => None
  end.

(* ================================================================== *)
(** ** [OCRExtractor.cleanOCRText] *)

Definition collapseWhitespace : jsstring -> jsstring := replaceAll re_spaces.
Definition fixNumbering : jsstring -> jsstring := replaceAll re_numbering.
Definition fixLettering : jsstring -> jsstring := replaceAll re_lettering.
Definition fixPipeAsI : jsstring -> jsstring := replaceAll re_pipe.
Definition zeroToO : jsstring -> jsstring := subst Char.digit0 Char.upperO.
Definition fiveToS : jsstring -> jsstring := subst Char.digit5 Char.upperS.
Definition tightenDollar : jsstring -> jsstring := replaceAll re_dollar.
Definition tightenBackslash : jsstring -> jsstring := replaceAll re_backslash.
Definition removeArtifacts : jsstring -> jsstring := replaceAll re_artifacts.

Definition cleanOCRText (text : jsstring) : jsstring :=
  trim
    (removeArtifacts
      (tightenBackslash
        (tightenDollar
          (fiveToS
            (zeroToO
              (fixPipeAsI
                (fixLettering
                  (fixNumbering
                    (collapseWhitespace text))))))))).

(* ================================================================== *)
(** ** Pattern tests ([RegExp.prototype.test])

    [search p s] holds when the pattern [p] matches at some index of [s];
    [search_ctx] also hands the pattern the code unit before the index, which
    the word-boundary assertion [\b] looks at. *)

Fixpoint search (p : jsstring -> bool) (s : jsstring) : bool :=
  p s || match s with
         | [] => false
         | _ :: t => search p t
         end.

Fixpoint search_ctx (p : option code_unit -> jsstring -> bool)
    (prev : option code_unit) (s : jsstring) : bool :=
  p prev s || match s with
              | [] => false
              | c :: t => search_ctx p (Some c) t
              end.

Definition nonEmpty (s : jsstring) : bool :=
  match s with
  | [] => false
  | _ :: _ => true
  end.

Definition isUnit (a : code_unit) (c : code_unit) : bool := (c =? a)%N.
Definition isNotUnit (a : code_unit) (c : code_unit) : bool := negb (c =? a)%N.

(** [/\$[^$]+\$/] *)
Definition at_inlineMath (s : jsstring) : bool :=
  match s with
  | d :: t =>
      isUnit Char.dollar d
      && nonEmpty (takeWhile (isNotUnit Char.dollar) t)
      && nonEmpty (dropWhile (isNotUnit Char.dollar) t)
  | [] => false
  end.

(** [/\\[a-zA-Z]+/] *)
Definition at_command (s : jsstring) : bool :=
  match s with
  | b :: t => isUnit Char.backslash b && nonEmpty (takeWhile Char.isAlpha t)
  | [] => false
  end.

(** [/\\[a-zA-Z]+\{[^}]*\}/] *)
Definition at_commandBraced (s : jsstring) : bool :=
  match s with
  | b :: t =>
      isUnit Char.backslash b
      && nonEmpty (takeWhile Char.isAlpha t)
      && match dropWhile Char.isAlpha t with
         | o :: r =>
             isUnit Char.lbrace o && nonEmpty (dropWhile (isNotUnit Char.rbrace) r)
         | [] => false
         end
  | [] => false
  end.

(** [/\^[\w{}]+/] and [/_[\w{}]+/], by their first code unit [mark]. *)
Definition isWordOrBrace (c : code_unit) : bool :=
  Char.isWord c || isUnit Char.lbrace c || isUnit Char.rbrace c.

Definition at_scriptWord (mark : code_unit) (s : jsstring) : bool :=
  match s with
  | m :: t => isUnit mark m && nonEmpty (takeWhile isWordOrBrace t)
  | [] => false
  end.

(** [/\^[^{\s]+/] and [/_[^{\s]+/] *)
Definition notBraceNorSpace (c : code_unit) : bool :=
  negb (isUnit Char.lbrace c) && negb (Char.isSpace c).

Definition at_scriptToken (mark : code_unit) (s : jsstring) : bool :=
  match s with
  | m :: t => isUnit mark m && nonEmpty (takeWhile notBraceNorSpace t)
  | [] => false
  end.

(** [/\^{[^}]+}/] and [/_{[^}]+}/] *)
Definition at_scriptBraced (mark : code_unit) (s : jsstring) : bool :=
  match s with
  | m :: o :: t =>
      isUnit mark m && isUnit Char.lbrace o
      && nonEmpty (takeWhile (isNotUnit Char.rbrace) t)
      && nonEmpty (dropWhile (isNotUnit Char.rbrace) t)
  | _ => false
  end.

(** The two character classes, code point by code point. *)
Definition mathSymbols : list code_unit :=
  [0x2211; 0x222B; 0x221E; 0x221A; 0x2264; 0x2265; 0x2260; 0xB1; 0xF7; 0xD7;
   0x221D; 0x2208; 0x2209; 0x2286; 0x2287; 0x222A; 0x2229]%N.

Definition greekLetters : list code_unit :=
  [0x3B1; 0x3B2; 0x3B3; 0x3B4; 0x3B5; 0x3B6; 0x3B7; 0x3B8; 0x3B9; 0x3BA;
   0x3BB; 0x3BC; 0x3BD; 0x3BE; 0x3BF; 0x3C0; 0x3C1; 0x3C3; 0x3C4; 0x3C5;
   0x3C6; 0x3C7; 0x3C8; 0x3C9]%N.

Definition at_class (cls : list code_unit) (s : jsstring) : bool :=
  match s with
  | c :: _ => existsb (N.eqb c) cls
  | [] => false
  end.

(** [\b]: exactly one of the two neighbours is a word character. *)
Definition wordChar (o : option code_unit) : bool :=
  match o with
  | Some c => Char.isWord c
  | None => false
  end.

Definition boundary (before after : option code_unit) : bool :=
  xorb (wordChar before) (wordChar after).

(** Canonicalisation of the [i] flag without [u]: [toUpperCase] on one code
    unit, a non-ASCII code unit never being mapped into ASCII. *)
Definition canonicalize (c : code_unit) : code_unit :=
  if Char.isLower c then (c - 32)%N else c.

Fixpoint match_ci (w s : jsstring) : option jsstring :=
  match w, s with
  | [], _ => Some s
  | p :: w', c :: s' =>
      if (canonicalize c =? canonicalize p)%N then match_ci w' s' else None
  | _ :: _, [] => None
  end.

Definition functionNames : list jsstring :=
  List.map lit
    ["sin"; "cos"; "tan"; "log"; "ln"; "exp"; "lim"; "max"; "min"]%string.

Definition lastUnit (s : jsstring) : option code_unit := head (rev s).

(** [/\b(sin|cos|tan|log|ln|exp|lim|max|min)\b/i] *)
Definition at_functionName (prev : option code_unit) (s : jsstring) : bool :=
  boundary prev (head s)
  && existsb
       (fun w =>
          match match_ci w s with
          | Some rest => boundary (lastUnit (firstn (length w) s)) (head rest)
          | None => false
          end)
       functionNames.

(** [OCRExtractor.detectMathContent] *)
Definition mathPatterns : list (jsstring -> bool) :=
  [ search at_inlineMath;
    search at_command;
    search (at_scriptWord Char.caret);
    search (at_scriptWord Char.underscore);
    search (at_class mathSymbols);
    search (at_class greekLetters);
    search_ctx at_functionName None ].

Definition detectMathContent (text : jsstring) : bool :=
  existsb (fun pattern => pattern text) mathPatterns.

(** [HybridTextExtractor.detectLatex].  The patterns are regular-expression
    literals evaluated on every call, so each [g]-flagged one is tested once
    from index 0. *)
Definition latexPatterns : list (jsstring -> bool) :=
  [ search at_inlineMath;
    search at_commandBraced;
    search at_command;
    search (at_scriptToken Char.caret);
    search (at_scriptToken Char.underscore);
    search (at_scriptBraced Char.caret);
    search (at_scriptBraced Char.underscore);
    search (at_class mathSymbols);
    search (at_class greekLetters) ].

Definition detectLatex (text : jsstring) : bool :=
  existsb (fun pattern => pattern text) latexPatterns.

(* ================================================================== *)
(** ** Numbers *)

Abbreviation number := Q (only parsing).

Definition gt (a b : number) : bool :=
  match (a ?= b)%Q with
  | Gt => true
  | _ => false
  end.

Definition ge (a b : number) : bool :=
  match (a ?= b)%Q with
  | Lt => false
  | _ => true
  end.

Definition le (a b : number) : bool := ge b a.

Arguments gt (a b)%_Q_scope.
Arguments ge (a b)%_Q_scope.
Arguments le (a b)%_Q_scope.

(** [s.length] as a number. *)
Definition strlen (s : jsstring) : number := inject_Z (Z.of_nat (length s)).

(* ================================================================== *)
(** ** Exceptions and the extractor's state *)

Inductive JsError := Error (message : string).

Inductive completion (A : Type) : Type :=
| Normal (a : A)
| Throw (e : JsError).
Arguments Throw {A} e.

Definition cbind {A B} (c : completion A) (k : A -> completion B)
  : completion B :=
  match c with
  | Normal a => k a
  | Throw e => Throw e
  end.

Module BBox.
Record t := mk { x : number; y : number; width : number; height : number }.
End BBox.

(** What [worker.recognize] is given: the canvas, or a crop of it. *)
Definition Canvas := nat.
Record Image := { source : Canvas; crop : option BBox.t }.

Module RecognizeData.
Record t := mk { text : jsstring; confidence : number }.
End RecognizeData.

Inductive Worker := EngWorker.

(** The behaviour of tesseract.js during one call: each entry says how the
    corresponding awaited call completes. *)
Record Tesseract := {
  createWorker : completion Worker;
  setParameters : Worker -> completion unit;
  recognize : Worker -> Image -> completion RecognizeData.t
}.

(** The fields of [OCRExtractor], and the log of the images handed to
    [worker.recognize] so far. *)
Record World := {
  worker : option Worker;
  isInitialized : bool;
  recognized : list Image
}.

Definition M (A : Type) : Type := World -> completion A * World.

Definition ret {A} (a : A) : M A := fun w => (Normal a, w).
Definition throw {A} (e : JsError) : M A := fun w => (Throw e, w).
Definition bind {A B} (m : M A) (k : A -> M B) : M B :=
  fun w => match m w with
           | (Normal a, w') => k a w'
           | (Throw e, w') => (Throw e, w')
           end.
Definition tryCatch {A} (body : M A) (handler : JsError -> M A) : M A :=
  fun w => match body w with
           | (Normal a, w') => (Normal a, w')
           | (Throw e, w') => handler e w'
           end.
Definition get : M World := fun w => (Normal w, w).
Definition await {A} (c : completion A) : M A := fun w => (c, w).

Notation "x <- m ;; k" := (bind m (fun x => k))
  (at level 61, m at next level, right associativity).
Notation "m ;;; k" := (bind m (fun _ => k))
  (at level 61, right associativity).

Definition setWorker (wk : option Worker) : M unit :=
  fun w => (Normal tt, {| worker := wk; isInitialized := isInitialized w;
                          recognized := recognized w |}).
Definition setInitialized (b : bool) : M unit :=
  fun w => (Normal tt, {| worker := worker w; isInitialized := b;
                          recognized := recognized w |}).
(** [worker.recognize(image)]: the call is logged, then completes as the
    library does. *)
Definition callRecognize (tess : Tesseract) (wk : Worker) (img : Image)
  : M RecognizeData.t :=
  fun w => (recognize tess wk img,
            {| worker := worker w; isInitialized := isInitialized w;
               recognized := recognized w ++ [img] |}).

(* ================================================================== *)
(** ** [OCRExtractor] *)

Module OCRResult.
Record t := mk { text : jsstring; confidence : number; hasLatex : bool }.
End OCRResult.

Definition initialize (tess : Tesseract) : M unit :=
  w <- get ;;
  if isInitialized w then ret tt
  else
    wk <- await (createWorker tess) ;;
    setWorker (Some wk) ;;;
    await (setParameters tess wk) ;;;
    setInitialized true.

Definition extractTextFromCanvas (tess : Tesseract) (canvas : Canvas)
    (bbox : option BBox.t) : M OCRResult.t :=
  initialize tess ;;;
  w <- get ;;
  match worker w with
  | None => throw (Error "OCR worker not initialized")
  | Some wk =>
      let imageData := {| source := canvas; crop := bbox |} in
      tryCatch
        (data <- callRecognize tess wk imageData ;;
         let text := cleanOCRText (RecognizeData.text data) in
         let hasLatex := detectMathContent text in
         ret (OCRResult.mk text (RecognizeData.confidence data) hasLatex))
        (fun _ => ret (OCRResult.mk [] 0%Q false))
  end.

Definition terminate : M unit :=
  w <- get ;;
  match worker w with
  | Some _ => setWorker None ;;; setInitialized false
  | None => ret tt
  end.

(* ================================================================== *)
(** ** The text layer of pdf.js *)

(** An entry of [textContent.items]: a text item with its [str] and its
    six-number [transform], or marked content, which has no [transform]. *)
Inductive ContentItem :=
| TextItem (str : jsstring)
           (transform : number * number * number * number * number * number)
| TextMarkedContent.

Module Viewport.
Record t := mk { width : number; height : number }.
End Viewport.

(** A page: the size of its view box in native units, and how
    [getTextContent()] completes. *)
Record PDFPage := {
  viewWidth : number;
  viewHeight : number;
  getTextContent : completion (list ContentItem)
}.

Record PDFDocument := { getPage : nat -> completion PDFPage }.

(** [page.getViewport({ scale })] of pdf.js on an unrotated page: the view
    box scaled. *)
Definition getViewport (page : PDFPage) (scale : number) : Viewport.t :=
  Viewport.mk (viewWidth page * scale)%Q (viewHeight page * scale)%Q.

(** "Convert screen coordinates to PDF coordinates" *)
Definition toPdfBbox (viewport : Viewport.t) (bbox : BBox.t) (scale : number)
  : BBox.t :=
  BBox.mk (BBox.x bbox / scale)%Q
          ((Viewport.height viewport - BBox.y bbox - BBox.height bbox) / scale)%Q
          (BBox.width bbox / scale)%Q
          (BBox.height bbox / scale)%Q.

Definition within (pdfBbox : BBox.t) (x y : number) : bool :=
  ge x (BBox.x pdfBbox)
  && le x (BBox.x pdfBbox + BBox.width pdfBbox)%Q
  && ge y (BBox.y pdfBbox)
  && le y (BBox.y pdfBbox + BBox.height pdfBbox)%Q.

(** One round of the [forEach] callback on the accumulated text. *)
Definition appendItem (pdfBbox : BBox.t) (acc : jsstring) (item : ContentItem)
  : jsstring :=
  match item with
  | TextItem str (_, _, _, _, x, y) =>
      if within pdfBbox x y then acc ++ str ++ [Char.space] else acc
  | TextMarkedContent => acc
  end.

Definition collectText (pdfBbox : BBox.t) (items : list ContentItem)
  : jsstring :=
  fold_left (appendItem pdfBbox) items [].

(** [extractTextFromBoundingBox] of [lib/pdf-utils.ts] *)
Definition extractTextFromBoundingBox (pdf : PDFDocument) (pageNumber : nat)
    (bbox : BBox.t) (scale : number) : completion jsstring :=
  cbind (getPage pdf pageNumber) (fun page =>
  let viewport := getViewport page scale in
  cbind (getTextContent page) (fun items =>
  let pdfBbox := toPdfBbox viewport bbox scale in
  Normal (trim (collectText pdfBbox items)))).

(* ================================================================== *)
(** ** [HybridTextExtractor] *)

Inductive Method := pdf | ocr | hybrid.

Module Extraction.
Record t := mk {
  text : jsstring;
  method : Method;
  confidence : number;
  hasLatex : bool
}.
End Extraction.

(** The first [try] block: the text found in the text layer and the
    confidence given to it; both keep their initial values when one of the
    awaited pdf.js calls throws. *)
Definition pdfExtraction (doc : PDFDocument) (pageNumber : nat)
    (bbox : BBox.t) (scale : number) : jsstring * number :=
  let attempt :=
    cbind (getPage doc pageNumber) (fun page =>
    cbind (getTextContent page) (fun items =>
    let viewport := getViewport page scale in
    let pdfBbox := toPdfBbox viewport bbox scale in
    Normal (trim (collectText pdfBbox items)))) in
  match attempt with
  | Normal pdfText => (pdfText, if gt (strlen pdfText) 0 then 95%Q else 0%Q)
  | Throw _ => ([], 0%Q)
  end.

Definition combineTextResults (pdfText ocrText : jsstring) : jsstring :=
  if gt (strlen pdfText) (strlen ocrText * 0.8)%Q then pdfText
  else if gt (strlen ocrText) (strlen pdfText * 1.5)%Q then ocrText
  else pdfText ++ [Char.space] ++ ocrText.

(** [a || b] on strings and on numbers. *)
Definition orString (a b : jsstring) : jsstring :=
  match a with
  | [] => b
  | _ :: _ => a
  end.
Definition orNumber (a b : number) : number :=
  if Qeq_bool a 0 then b else a.
Arguments orNumber (a b)%_Q_scope.

Definition unableToExtract : jsstring := lit "Unable to extract text".

Definition extractFromBoundingBox (tess : Tesseract) (doc : PDFDocument)
    (canvas : Canvas) (pageNumber : nat) (bbox : BBox.t) (scale : number)
  : M Extraction.t :=
  let '(pdfText, pdfConfidence) := pdfExtraction doc pageNumber bbox scale in
  if gt (strlen pdfText) 10 && gt pdfConfidence 90 then
    ret (Extraction.mk pdfText pdf pdfConfidence (detectLatex pdfText))
  else
    (* the second [try]: [Some r] is an early [return r] *)
    early <-
      tryCatch
        (ocrResult <- extractTextFromCanvas tess canvas (Some bbox) ;;
         if gt (OCRResult.confidence ocrResult) 60 then
           if gt (strlen pdfText) 0 && gt (strlen (OCRResult.text ocrResult)) 0
           then
             let combinedText :=
               combineTextResults pdfText (OCRResult.text ocrResult) in
             ret (Some (Extraction.mk combinedText hybrid
                          (Qmax pdfConfidence (OCRResult.confidence ocrResult))
                          (OCRResult.hasLatex ocrResult
                           || detectLatex pdfText)))
           else
             ret (Some (Extraction.mk (OCRResult.text ocrResult) ocr
                          (OCRResult.confidence ocrResult)
                          (OCRResult.hasLatex ocrResult)))
         else ret None)
        (fun _ => ret None) ;;
    match early with
    | Some result => ret result
    | None =>
        ret (Extraction.mk (orString pdfText unableToExtract)
               (if nonEmpty pdfText then pdf else ocr)
               (orNumber pdfConfidence 0)
               (detectLatex pdfText))
    end.


(* ================================================================== *)
(** ** Spaced form of a string

    Once whitespace runs are collapsed, a string is a sequence [cs] of
    code units that are not whitespace together with, for each of the
    [length cs + 1] positions around them, whether one space stands there
    ([gs]; a missing entry counts as [false]).  On this form the spacing
    steps of [cleanOCRText] only decide, gap by gap, to keep, put or drop
    the space, looking at the two code units on either side. *)

Definition gap (g : bool) : jsstring := if g then [Char.space] else [].

Fixpoint render (cs : list code_unit) (gs : list bool) : jsstring :=
  gap (hd false gs) ++
  match cs with
  | [] => []
  | c :: cs' => c :: render cs' (tl gs)
  end.

(** The rendering from the first code unit on. *)
Definition body (cs : list code_unit) (gs : list bool) : jsstring :=
  match cs with
  | [] => []
  | c :: cs' => c :: render cs' gs
  end.

Inductive action := Keep | Put | Drop.

Definition act (a : action) (g : bool) : bool :=
  match a with
  | Keep => g
  | Put => true
  | Drop => false
  end.

(** [after a b]: do [b], then [a]. *)
Definition after (a b : action) : action :=
  match a with
  | Keep => b
  | _ => a
  end.

(** A rule reads the two code units before a gap (farthest first) and the
    two after it (nearest first). *)
Definition rule : Type :=
  option code_unit -> option code_unit ->
  option code_unit -> option code_unit -> action.

Fixpoint regap (f : rule) (p2 p1 : option code_unit)
    (cs : list code_unit) (gs : list bool) : list bool :=
  act (f p2 p1 (head cs) (head (tl cs))) (hd false gs)
  :: match cs with
     | [] => []
     | c :: cs' => regap f p1 (Some c) cs' (tl gs)
     end.

Definition holds (p : code_unit -> bool) (o : option code_unit) : bool :=
  match o with
  | Some c => p c
  | None => false
  end.

Definition absent (o : option code_unit) : bool :=
  match o with
  | Some _ => false
  | None => true
  end.

Definition numberingRule : rule := fun p2 p1 n1 n2 =>
  if holds Char.isDigit p1 && holds (isUnit Char.dot) n1
     && holds Char.isUpper n2 then Drop
  else if holds Char.isDigit p2 && holds (isUnit Char.dot) p1
          && holds Char.isUpper n1 then Put
  else Keep.

Definition letteringRule : rule := fun p2 p1 n1 _ =>
  if holds Char.isLower p1 && holds (isUnit Char.rparen) n1 then Drop
  else if holds Char.isLower p2 && holds (isUnit Char.rparen) p1 then Put
  else Keep.

Definition dollarRule : rule := fun _ p1 n1 _ =>
  if holds (isUnit Char.dollar) p1 || holds (isUnit Char.dollar) n1
  then Drop else Keep.

Definition backslashRule : rule := fun _ p1 _ _ =>
  if holds (isUnit Char.backslash) p1 then Drop else Keep.

Definition trimRule : rule := fun _ p1 n1 _ =>
  if absent p1 || absent n1 then Drop else Keep.

Definition thenRule (f g : rule) : rule := fun p2 p1 n1 n2 =>
  after (g p2 p1 n1 n2) (f p2 p1 n1 n2).

(** The spacing steps of [cleanOCRText] in their order. *)
Definition spacingRule : rule :=
  thenRule numberingRule
    (thenRule letteringRule
       (thenRule dollarRule (thenRule backslashRule trimRule))).

Definition nonSpace (cs : list code_unit) : Prop :=
  Forall (fun c => Char.isSpace c = false) cs.

(* ================================================================== *)
(** ** Vocabulary of the statements *)

(** [Array.prototype.join]. *)
Fixpoint join (sep : jsstring) (parts : list jsstring) : jsstring :=
  match parts with
  | [] => []
  | [s] => s
  | s :: rest => s ++ sep ++ join sep rest
  end.

(** The [str] of an entry, and whether its anchor (the last two numbers of
    its [transform]) lies in a rectangle; marked content has no anchor. *)
Definition itemStr (item : ContentItem) : jsstring :=
  match item with
  | TextItem str _ => str
  | TextMarkedContent => []
  end.

Definition anchoredWithin (pdfBbox : BBox.t) (item : ContentItem) : bool :=
  match item with
  | TextItem _ (_, _, _, _, x, y) => within pdfBbox x y
  | TextMarkedContent => false
  end.

(** A string in normal form under the five normalizations the specification
    lists: whitespace collapse; numbering and lettering spacing; pipes and
    underscores turned into [I] or a space; spacing at [$] and after a
    backslash; trim. *)
Definition listedNormal (text : jsstring) : Prop :=
  collapseWhitespace text = text
  /\ fixNumbering text = text
  /\ fixLettering text = text
  /\ fixPipeAsI text = text
  /\ removeArtifacts text = text
  /\ tightenDollar text = text
  /\ tightenBackslash text = text
  /\ trim text = text.

(** ** Sample inputs used by the closed instances below *)

Module Samples.
Definition freshWorld : World :=
  {| worker := None; isInitialized := false; recognized := [] |}.

(** tesseract.js starting normally and reading [raw] with confidence [c]. *)
Definition reading (raw : string) (c : number) : Tesseract :=
  {| createWorker := Normal EngWorker;
     setParameters := fun _ => Normal tt;
     recognize := fun _ _ => Normal (RecognizeData.mk (lit raw) c) |}.

(** tesseract.js starting normally, [recognize] rejecting. *)
Definition failing : Tesseract :=
  {| createWorker := Normal EngWorker;
     setParameters := fun _ => Normal tt;
     recognize := fun _ _ => Throw (Error "recognize failed") |}.

(** tesseract.js failing to start its worker. *)
Definition unavailable : Tesseract :=
  {| createWorker := Throw (Error "worker failed to start");
     setParameters := fun _ => Normal tt;
     recognize := fun _ _ => Throw (Error "recognize failed") |}.

(** A one-page-size document (612 x 792) whose text layer is [items]. *)
Definition document (items : list ContentItem) : PDFDocument :=
  {| getPage := fun _ =>
       Normal {| viewWidth := 612%Q; viewHeight := 792%Q;
                 getTextContent := Normal items |} |}.

Definition fragment (s : string) (x y : number) : ContentItem :=
  TextItem (lit s) (1, 0, 0, 1, x, y)%Q.

(** A 300 x 300 selection at the top-left corner of the canvas; at scale
    1.5 it is the native rectangle [0, 200] x [592, 792]. *)
Definition selection : BBox.t := BBox.mk 0 0 300 300.
Definition canvas : Canvas := 0%nat.

Definition afterOneRecognition : World :=
  {| worker := Some EngWorker; isInitialized := true;
     recognized := [ {| source := canvas; crop := Some selection |} ] |}.
End Samples.

(* ================================================================== *)
(** ** More of [lib/ocr-utils.ts] and [lib/pdf-utils.ts] *)

(** [OCRExtractor.terminate], given how [worker.terminate()] completes: the
    two fields are reset only once the awaited call has resolved. *)
Definition terminateWith (workerTerminate : Worker -> completion unit)
  : M unit :=
  w <- get ;;
  match worker w with
  | Some wk =>
      await (workerTerminate wk) ;;;
      setWorker None ;;;
      setInitialized false
  | None => ret tt
  end.

(** The two fields of an [OCRExtractor] agree: flagged as initialized, it has
    its worker. *)
Definition consistent (w : World) : Prop :=
  isInitialized w = true -> worker w <> None.

(** The DOM calls that crop the canvas ([createElement], [getContext('2d')!],
    [drawImage]): they run before the [try] of [extractTextFromCanvas], and
    for a canvas and a rectangle they complete or throw. *)
Definition Dom := Canvas -> BBox.t -> completion unit.

(** [OCRExtractor.extractTextFromCanvas] with the cropping left to the DOM.
    [extractTextFromCanvas] above is this function on a page where the
    cropping completes. *)
Definition extractTextFromCanvasDom (dom : Dom) (tess : Tesseract)
    (canvas : Canvas) (bbox : option BBox.t) : M OCRResult.t :=
  initialize tess ;;;
  w <- get ;;
  match worker w with
  | None => throw (Error "OCR worker not initialized")
  | Some wk =>
      match bbox with
      | Some rectangle => await (dom canvas rectangle)
      | None => ret tt
      end ;;;
      let imageData := {| source := canvas; crop := bbox |} in
      tryCatch
        (data <- callRecognize tess wk imageData ;;
         let text := cleanOCRText (RecognizeData.text data) in
         let hasLatex := detectMathContent text in
         ret (OCRResult.mk text (RecognizeData.confidence data) hasLatex))
        (fun _ => ret (OCRResult.mk [] 0%Q false))
  end.

(** [getPageText] of [lib/pdf-utils.ts]; [join] turns the missing [str] of
    marked content into the empty string. *)
Definition getPageText (pdf : PDFDocument) (pageNumber : nat)
  : completion jsstring :=
  cbind (getPage pdf pageNumber) (fun page =>
  cbind (getTextContent page) (fun items =>
  Normal (join [Char.space] (List.map itemStr items)))).

(** A code unit on which one of the patterns of [detectLatex] can start. *)
Definition isTrigger (c : code_unit) : bool :=
  isUnit Char.dollar c || isUnit Char.backslash c || isUnit Char.caret c
  || isUnit Char.underscore c
  || existsb (N.eqb c) mathSymbols || existsb (N.eqb c) greekLetters.

(* ================================================================== *)
(** ** The extraction loop of [pages/index.tsx] ([handleExtractText]) *)

Inductive BoxKind := questionKind | optionKind.

Module BoundingBox.
Record t := mk {
  id : jsstring;
  x : number; y : number; width : number; height : number;
  kind : BoxKind;                      (* the field [type] *)
  page : nat
}.
End BoundingBox.

(** A [BoundingBox] passed where [{x, y, width, height}] is expected. *)
Definition region (b : BoundingBox.t) : BBox.t :=
  BBox.mk (BoundingBox.x b) (BoundingBox.y b)
          (BoundingBox.width b) (BoundingBox.height b).

Module MCQ.
Record t := mk {
  id : jsstring;
  question : jsstring;
  options : list jsstring;
  page : nat
}.
End MCQ.

Definition isQuestion (b : BoundingBox.t) : bool :=
  match BoundingBox.kind b with
  | questionKind => true
  | optionKind => false
  end.

Definition isOptionOn (pageNumber : nat) (b : BoundingBox.t) : bool :=
  match BoundingBox.kind b with
  | optionKind => (BoundingBox.page b =? pageNumber)%nat
  | questionKind => false
  end.

(** [for (const optionBox of optionBoxes) { ... options.push(...) }] *)
Fixpoint extractOptions (tess : Tesseract) (doc : PDFDocument)
    (canvas : Canvas) (optionBoxes : list BoundingBox.t)
    (options : list jsstring) : M (list jsstring) :=
  match optionBoxes with
  | [] => ret options
  | optionBox :: rest =>
      optionResult <-
        extractFromBoundingBox tess doc canvas (BoundingBox.page optionBox)
          (region optionBox) 1.5 ;;
      let trimmed := trim (Extraction.text optionResult) in
      extractOptions tess doc canvas rest
        (if nonEmpty trimmed then options ++ [trimmed] else options)
  end.

(** The body of the inner [try]: [Some mcq] is what it pushes. *)
Definition extractQuestion (tess : Tesseract) (doc : PDFDocument)
    (canvas : Canvas) (boundingBoxes : list BoundingBox.t)
    (questionBox : BoundingBox.t) : M (option MCQ.t) :=
  let optionBoxes :=
    filter (isOptionOn (BoundingBox.page questionBox)) boundingBoxes in
  questionResult <-
    extractFromBoundingBox tess doc canvas (BoundingBox.page questionBox)
      (region questionBox) 1.5 ;;
  options <- extractOptions tess doc canvas optionBoxes [] ;;
  if nonEmpty (Extraction.text questionResult) && (0 <? length options)%nat
  then ret (Some (MCQ.mk (BoundingBox.id questionBox)
                    (Extraction.text questionResult) options
                    (BoundingBox.page questionBox)))
  else ret None.

Definition decimal (n : nat) : jsstring :=
  lit (NilEmpty.string_of_uint (Nat.to_uint n)).

(** The MCQ pushed by the [catch] of the inner [try]. *)
Definition fallbackMCQ (i : nat) (questionBox : BoundingBox.t) : MCQ.t :=
  MCQ.mk (BoundingBox.id questionBox)
    (lit "Question " ++ decimal (i + 1) ++ lit " from page "
     ++ decimal (BoundingBox.page questionBox))
    [lit "Option A"; lit "Option B"; lit "Option C"; lit "Option D"]
    (BoundingBox.page questionBox).

Definition push (extractedMCQs : list MCQ.t) (pushed : option MCQ.t)
  : list MCQ.t :=
  match pushed with
  | Some mcq => extractedMCQs ++ [mcq]
  | None => extractedMCQs
  end.

(** The [for] loop from index [i] on; [canvas] is what
    [document.querySelector('canvas')] finds. *)
Fixpoint extractLoop (tess : Tesseract) (doc : PDFDocument)
    (canvas : option Canvas) (boundingBoxes questionBoxes : list BoundingBox.t)
    (i : nat) (extractedMCQs : list MCQ.t) : M (list MCQ.t) :=
  match questionBoxes with
  | [] => ret extractedMCQs
  | questionBox :: rest =>
      match canvas with
      | None =>
          extractLoop tess doc canvas boundingBoxes rest (S i) extractedMCQs
      | Some cv =>
          pushed <-
            tryCatch
              (extractQuestion tess doc cv boundingBoxes questionBox)
              (fun _ => ret (Some (fallbackMCQ i questionBox))) ;;
          extractLoop tess doc canvas boundingBoxes rest (S i)
            (push extractedMCQs pushed)
      end
  end.

Definition extractMCQs (tess : Tesseract) (doc : PDFDocument)
    (canvas : option Canvas) (boundingBoxes : list BoundingBox.t)
  : M (list MCQ.t) :=
  extractLoop tess doc canvas boundingBoxes (filter isQuestion boundingBoxes)
    0 [].

(** What the loop is shown to establish: an extracted MCQ has a question
    text, at least one option, options that are non-empty and trimmed, and
    the id and page of one of the question boxes. *)
Definition wellFormed (boundingBoxes : list BoundingBox.t) (m : MCQ.t) : Prop :=
  nonEmpty (MCQ.question m) = true
  /\ MCQ.options m <> []
  /\ Forall (fun o => nonEmpty o = true /\ trim o = o) (MCQ.options m)
  /\ exists questionBox,
       In questionBox boundingBoxes
       /\ isQuestion questionBox = true
       /\ MCQ.id m = BoundingBox.id questionBox
       /\ MCQ.page m = BoundingBox.page questionBox.

(** An image handed to the recognizer that is the crop of [canvas] at one of
    the boxes. *)
Definition cropOfBox (canvas : Canvas) (boundingBoxes : list BoundingBox.t)
    (img : Image) : Prop :=
  source img = canvas
  /\ exists b, In b boundingBoxes /\ crop img = Some (region b).


(* ================================================================== *)
(** ** [GeminiExtractor] ([lib/gemini-utils.ts])

    Its [detectLatex] has the nine patterns of the hybrid extractor's, so
    [detectLatex] above stands for both. *)

Module Gemini.

Definition lt (a b : number) : bool :=
  match (a ?= b)%Q with
  | Lt => true
  | _ => false
  end.


Definition right (b : BoundingBox.t) : number :=
  (BoundingBox.x b + BoundingBox.width b)%Q.




(** [/^(what|which|how|find|solve|calculate|determine)/i] *)
Definition questionWords : list jsstring :=
  List.map lit
    ["what"; "which"; "how"; "find"; "solve"; "calculate"; "determine"]%string.

Definition startsWithQuestionWord (text : jsstring) : bool :=
  existsb (fun word => match match_ci word text with
                       | Some _ => true
                       | None => false
                       end) questionWords.

(** [/[|_]{2,}/] *)
Definition at_artifactRun (s : jsstring) : bool :=
  match s with
  | a :: b :: _ => isArtifact a && isArtifact b
  | _ => false
  end.

Definition calculateConfidence (text : jsstring) : number :=
  if negb (nonEmpty text) || lt (strlen text) 3 then 0%Q
  else
    let confidence := 80%Q in
    let confidence :=
      if startsWithQuestionWord text then (confidence + 10)%Q
      else confidence in
    let confidence :=
      if detectLatex text then (confidence + 5)%Q else confidence in
    let confidence :=
      if lt (strlen text) 10 then (confidence - 20)%Q else confidence in
    let confidence :=
      if search at_artifactRun text then (confidence - 15)%Q
      else confidence in
    Qmax 0 (Qmin 100 confidence).

End Gemini.

(* ================================================================== *)
(** ** The LaTeX helpers ([lib/latex-utils.ts]) *)

Module LatexUtils.

(** [/\$\$[^$]+\$\$/]: the body takes every code unit up to the next dollar
    sign, which must be followed by a second one. *)
Definition at_displayMath (s : jsstring) : bool :=
  match s with
  | d1 :: d2 :: t =>
      isUnit Char.dollar d1 && isUnit Char.dollar d2
      && nonEmpty (takeWhile (isNotUnit Char.dollar) t)
      && match dropWhile (isNotUnit Char.dollar) t with
         | _ :: e2 :: _ => isUnit Char.dollar e2
         | _ => false
         end
  | _ => false
  end.

Definition latexPatterns : list (jsstring -> bool) :=
  [ search at_inlineMath;
    search at_displayMath;
    search at_commandBraced;
    search at_command;
    search (at_scriptToken Char.caret);
    search (at_scriptToken Char.underscore);
    search (at_scriptBraced Char.caret);
    search (at_scriptBraced Char.underscore) ].

Definition detectLatex (text : jsstring) : bool :=
  existsb (fun pattern => pattern text) latexPatterns.

(** [text.includes('$')] *)
Definition includesDollar (text : jsstring) : bool :=
  existsb (isUnit Char.dollar) text.

Definition wrapLatexInline (text : jsstring) : jsstring :=
  if detectLatex text && negb (includesDollar text)
  then [Char.dollar] ++ text ++ [Char.dollar]
  else text.

End LatexUtils.

(* ================================================================== *)
(** ** The LaTeX endpoint ([pages/api/render-latex.ts]) *)

Module RenderLatex.

(** The loop of [isValidLatex] from a given count on.  [for ... of] walks
    code points; a brace is one code unit and no half of a surrogate pair
    equals one, so walking code units counts the same. *)
Fixpoint scanBraces (braceCount : Z) (text : jsstring) : bool :=
  match text with
  | [] => (braceCount =? 0)%Z
  | char :: rest =>
      let braceCount :=
        if isUnit Char.lbrace char then (braceCount + 1)%Z else braceCount in
      let braceCount :=
        if isUnit Char.rbrace char then (braceCount - 1)%Z else braceCount in
      if (braceCount <? 0)%Z then false else scanBraces braceCount rest
  end.

Definition isValidLatex (text : jsstring) : bool := scanBraces 0 text.

Definition isBrace (c : code_unit) : bool :=
  isUnit Char.lbrace c || isUnit Char.rbrace c.

(** The [latex] field of the request body: missing, a string, or another
    JSON value, of which only its truthiness matters. *)
Inductive LatexField :=
| Missing
| Text (latex : jsstring)
| Other (truthy : bool).

Record Request := { method : jsstring; latex : LatexField }.

(** The status sent and, with 200, the [latex] of the JSON body. *)
Record Response := { status : nat; sent : option jsstring }.

Definition respond (code : nat) : Response :=
  {| status := code; sent := None |}.

Definition jsstring_eqb (a b : jsstring) : bool :=
  if list_eq_dec N.eq_dec a b then true else false.

Definition handler (req : Request) : Response :=
  if negb (jsstring_eqb (method req) (lit "POST")) then respond 405
  else
    match latex req with
    | Missing => respond 400
    | Other false => respond 400
    | Other true => respond 500          (* [latex.replace] is not a function *)
    | Text latex =>
        if negb (nonEmpty latex) then respond 400
        else
          let cleanedLatex := trim (collapseWhitespace latex) in
          let isValid := isValidLatex cleanedLatex in
          if negb isValid then respond 400
          else {| status := 200; sent := Some cleanedLatex |}
    end.

End RenderLatex.

(* ================================================================== *)
(** * Properties *)

Unset Implicit Arguments.

(** ** Numbers and lengths *)

Lemma gt_spec (a b : number) : gt a b = true <-> (b < a)%Q.
Proof.
  unfold gt. rewrite Qgt_alt.
  destruct (a ?= b)%Q; split; intro H; congruence.
Qed.

Lemma gt_false (a b : number) : gt a b = false <-> (a <= b)%Q.
Proof.
  unfold gt. rewrite Qle_alt.
  destruct (a ?= b)%Q; split; intro H; congruence.
Qed.

Lemma ge_spec (a b : number) : ge a b = true <-> (b <= a)%Q.
Proof.
  unfold ge. rewrite Qle_alt, <- (Qcompare_antisym a b).
  destruct (a ?= b)%Q; simpl; split; intro H; congruence.
Qed.

Lemma le_spec (a b : number) : le a b = true <-> (a <= b)%Q.
Proof. unfold le. apply ge_spec. Qed.

Lemma gt_strlen (s : jsstring) (k : Z) :
  gt (strlen s) (inject_Z k) = (k <? Z.of_nat (length s))%Z.
Proof.
  unfold gt, strlen, Qcompare. simpl. rewrite !Z.mul_1_r.
  rewrite Z.ltb_compare, (Z.compare_antisym k).
  destruct (k ?= Z.of_nat (length s))%Z; reflexivity.
Qed.

Lemma strlen_positive (s : jsstring) : gt (strlen s) 0 = nonEmpty s.
Proof.
  change 0%Q with (inject_Z 0). rewrite gt_strlen.
  destruct s; simpl; [reflexivity | apply Z.ltb_lt; lia].
Qed.

Lemma strlen_over_10 (s : jsstring) :
  gt (strlen s) 10 = (10 <? length s)%nat.
Proof.
  change 10%Q with (inject_Z 10). rewrite gt_strlen.
  change 10%Z with (Z.of_nat 10).
  destruct (Nat.ltb_spec 10 (length s)).
  - apply Z.ltb_lt. lia.
  - apply Z.ltb_ge. lia.
Qed.

(** ** The text-layer phase *)

Lemma pdfExtraction_confidence doc pageNumber bbox scale pdfText pdfConfidence :
  pdfExtraction doc pageNumber bbox scale = (pdfText, pdfConfidence) ->
  pdfConfidence = if nonEmpty pdfText then 95%Q else 0%Q.
Proof.
  unfold pdfExtraction.
  destruct (cbind _ _) as [t | e]; intro H; inversion H; subst.
  - now rewrite strlen_positive.
  - reflexivity.
Qed.

(** The function once the text layer has been read, as one case analysis:
    the shape every property below starts from. *)
Lemma extractFromBoundingBox_cases tess doc canvas pageNumber bbox scale w
      pdfText pdfConfidence :
  pdfExtraction doc pageNumber bbox scale = (pdfText, pdfConfidence) ->
  extractFromBoundingBox tess doc canvas pageNumber bbox scale w =
  if (10 <? length pdfText)%nat && gt pdfConfidence 90 then
    (Normal (Extraction.mk pdfText pdf pdfConfidence (detectLatex pdfText)), w)
  else
    let fallback :=
      Extraction.mk (orString pdfText unableToExtract)
        (if nonEmpty pdfText then pdf else ocr)
        (orNumber pdfConfidence 0) (detectLatex pdfText) in
    match extractTextFromCanvas tess canvas (Some bbox) w with
    | (Normal ocrResult, w') =>
        if gt (OCRResult.confidence ocrResult) 60 then
          if nonEmpty pdfText && nonEmpty (OCRResult.text ocrResult) then
            (Normal
               (Extraction.mk
                  (combineTextResults pdfText (OCRResult.text ocrResult))
                  hybrid
                  (Qmax pdfConfidence (OCRResult.confidence ocrResult))
                  (OCRResult.hasLatex ocrResult || detectLatex pdfText)), w')
          else
            (Normal
               (Extraction.mk (OCRResult.text ocrResult) ocr
                  (OCRResult.confidence ocrResult)
                  (OCRResult.hasLatex ocrResult)), w')
        else (Normal fallback, w')
    | (Throw _, w') => (Normal fallback, w')
    end.
Proof.
  intro Hpdf. unfold extractFromBoundingBox. rewrite Hpdf.
  rewrite strlen_over_10.
  destruct ((10 <? length pdfText)%nat && gt pdfConfidence 90);
    [reflexivity |].
  unfold bind, tryCatch, ret. cbv zeta.
  destruct (extractTextFromCanvas tess canvas (Some bbox) w) as [[r | e] w'];
    [| reflexivity].
  rewrite !strlen_positive.
  destruct (gt (OCRResult.confidence r) 60); [| reflexivity].
  destruct (nonEmpty pdfText && nonEmpty (OCRResult.text r)); reflexivity.
Qed.

Lemma nonEmpty_length (s : jsstring) : nonEmpty s = true <-> (1 <= length s)%nat.
Proof. destruct s; simpl; split; intro; try lia; congruence. Qed.

Lemma short_text_not_trusted (s : jsstring) (c : number) :
  (length s <= 10)%nat -> (10 <? length s)%nat && gt c 90 = false.
Proof. intro H. apply Nat.ltb_ge in H. now rewrite H. Qed.

(** ** The Combination Heuristic *)

(** C1. With a text-layer result of 1 to 10 code units and a recognition
    result of confidence above 60 whose text is not empty, the outcome is
    'hybrid', its confidence is the maximum of the text-layer confidence (95)
    and the recognizer's, and its text follows the merge rule: the text-layer
    text when its length exceeds 0.8 times the recognized length; else the
    recognized text when its length exceeds 1.5 times the text-layer length;
    else both joined by one space. *)
Theorem merge_rule tess doc canvas pageNumber bbox scale w
        pdfText pdfConfidence ocrResult w' :
  pdfExtraction doc pageNumber bbox scale = (pdfText, pdfConfidence) ->
  (1 <= length pdfText <= 10)%nat ->
  extractTextFromCanvas tess canvas (Some bbox) w = (Normal ocrResult, w') ->
  (60 < OCRResult.confidence ocrResult)%Q ->
  (1 <= length (OCRResult.text ocrResult))%nat ->
  let ocrText := OCRResult.text ocrResult in
  exists r,
    extractFromBoundingBox tess doc canvas pageNumber bbox scale w
      = (Normal r, w')
    /\ Extraction.method r = hybrid
    /\ pdfConfidence = 95%Q
    /\ Extraction.confidence r
       = Qmax pdfConfidence (OCRResult.confidence ocrResult)
    /\ ((0.8 * strlen ocrText < strlen pdfText)%Q ->
        Extraction.text r = pdfText)
    /\ (~ (0.8 * strlen ocrText < strlen pdfText)%Q ->
        (1.5 * strlen pdfText < strlen ocrText)%Q ->
        Extraction.text r = ocrText)
    /\ (~ (0.8 * strlen ocrText < strlen pdfText)%Q ->
        ~ (1.5 * strlen pdfText < strlen ocrText)%Q ->
        Extraction.text r = pdfText ++ lit " " ++ ocrText).
Proof.
  intros Hpdf [Hlo Hhi] Hocr Hconf Htext ocrText.
  rewrite (extractFromBoundingBox_cases tess _ canvas _ _ _ w _ _ Hpdf), Hocr.
  rewrite (short_text_not_trusted _ _ Hhi).
  apply gt_spec in Hconf. cbv zeta. rewrite Hconf.
  apply nonEmpty_length in Hlo, Htext. rewrite Hlo, Htext. simpl andb.
  eexists. split; [reflexivity |]. simpl.
  pose proof (pdfExtraction_confidence _ _ _ _ _ _ Hpdf) as Hc.
  rewrite Hlo in Hc.
  repeat split; trivial; unfold combineTextResults; fold ocrText.
  - intro H. rewrite Qmult_comm in H. apply gt_spec in H. now rewrite H.
  - intros H1 H2. rewrite Qmult_comm in H1, H2.
    rewrite <- gt_spec in H1, H2.
    apply not_true_is_false in H1. now rewrite H1, H2.
  - intros H1 H2. rewrite Qmult_comm in H1, H2.
    rewrite <- gt_spec in H1, H2.
    apply not_true_is_false in H1, H2. now rewrite H1, H2.
Qed.

Lemma merge_rule_witness :
  exists r,
    extractFromBoundingBox (Samples.reading "3 . Alpha" 75)
      (Samples.document [Samples.fragment "abc" 100 700])
      Samples.canvas 1 Samples.selection 1.5 Samples.freshWorld
      = (Normal r, Samples.afterOneRecognition)
    /\ Extraction.method r = hybrid
    /\ 95%Q = 95%Q
    /\ Extraction.confidence r = Qmax 95 75
    /\ ((0.8 * strlen (lit "3. Alpha") < strlen (lit "abc"))%Q ->
        Extraction.text r = lit "abc")
    /\ (~ (0.8 * strlen (lit "3. Alpha") < strlen (lit "abc"))%Q ->
        (1.5 * strlen (lit "abc") < strlen (lit "3. Alpha"))%Q ->
        Extraction.text r = lit "3. Alpha")
    /\ (~ (0.8 * strlen (lit "3. Alpha") < strlen (lit "abc"))%Q ->
        ~ (1.5 * strlen (lit "abc") < strlen (lit "3. Alpha"))%Q ->
        Extraction.text r = lit "abc" ++ lit " " ++ lit "3. Alpha").
Proof.
  apply (merge_rule (Samples.reading "3 . Alpha" 75)
           (Samples.document [Samples.fragment "abc" 100 700])
           Samples.canvas 1 Samples.selection 1.5 Samples.freshWorld
           (lit "abc") 95%Q
           (OCRResult.mk (lit "3. Alpha") 75 false)
           Samples.afterOneRecognition).
  - vm_compute. reflexivity.
  - simpl. lia.
  - vm_compute. reflexivity.
  - reflexivity.
  - simpl. lia.
Defined.

(** C2. A text-layer result of 11 code units or more is returned at once as
    'structured' with confidence 95: the extractor's state is untouched, no
    image reaches [worker.recognize], and the outcome is the same whatever
    tesseract.js would have done. *)
Theorem short_circuit tess doc canvas pageNumber bbox scale w
        pdfText pdfConfidence :
  pdfExtraction doc pageNumber bbox scale = (pdfText, pdfConfidence) ->
  (11 <= length pdfText)%nat ->
  extractFromBoundingBox tess doc canvas pageNumber bbox scale w
    = (Normal (Extraction.mk pdfText pdf 95 (detectLatex pdfText)), w)
  /\ recognized
       (snd (extractFromBoundingBox tess doc canvas pageNumber bbox scale w))
     = recognized w
  /\ forall tess',
       extractFromBoundingBox tess' doc canvas pageNumber bbox scale w
       = extractFromBoundingBox tess doc canvas pageNumber bbox scale w.
Proof.
  intros Hpdf Hlen.
  assert (Hc : pdfConfidence = 95%Q).
  { rewrite (pdfExtraction_confidence _ _ _ _ _ _ Hpdf).
    destruct pdfText; [simpl in Hlen; lia | reflexivity]. }
  assert (Hrun : forall t,
    extractFromBoundingBox t doc canvas pageNumber bbox scale w
    = (Normal (Extraction.mk pdfText pdf 95 (detectLatex pdfText)), w)).
  { intro t. rewrite (extractFromBoundingBox_cases t _ canvas _ _ _ w _ _ Hpdf). subst.
    assert (H : (10 <? length pdfText)%nat = true) by (apply Nat.ltb_lt; lia).
    rewrite H. reflexivity. }
  split; [apply Hrun |]. split.
  - now rewrite Hrun.
  - intro t. now rewrite !Hrun.
Qed.

Lemma short_circuit_witness :
  extractFromBoundingBox Samples.failing
    (Samples.document [Samples.fragment "What is 2 + 2?" 100 700])
    Samples.canvas 1 Samples.selection 1.5 Samples.freshWorld
    = (Normal (Extraction.mk (lit "What is 2 + 2?") pdf 95
                 (detectLatex (lit "What is 2 + 2?"))),
       Samples.freshWorld)
  /\ recognized
       (snd (extractFromBoundingBox Samples.failing
               (Samples.document [Samples.fragment "What is 2 + 2?" 100 700])
               Samples.canvas 1 Samples.selection 1.5 Samples.freshWorld))
     = recognized Samples.freshWorld
  /\ forall tess',
       extractFromBoundingBox tess'
         (Samples.document [Samples.fragment "What is 2 + 2?" 100 700])
         Samples.canvas 1 Samples.selection 1.5 Samples.freshWorld
       = extractFromBoundingBox Samples.failing
           (Samples.document [Samples.fragment "What is 2 + 2?" 100 700])
           Samples.canvas 1 Samples.selection 1.5 Samples.freshWorld.
Proof.
  apply (short_circuit Samples.failing
           (Samples.document [Samples.fragment "What is 2 + 2?" 100 700])
           Samples.canvas 1 Samples.selection 1.5 Samples.freshWorld
           (lit "What is 2 + 2?") 95%Q).
  - vm_compute. reflexivity.
  - simpl. lia.
Defined.

(** C3 (as stated, refuted).  Text layer "x^2", recognition of confidence
    50: the fallback outcome carries the text-layer confidence 95 and the
    math flag of the text-layer text, not confidence 0 and [false]. *)
Lemma fallback_outcome_counterexample :
  let doc := Samples.document [Samples.fragment "x^2" 100 700] in
  let outcome :=
    fst (extractFromBoundingBox (Samples.reading "hello" 50) doc
           Samples.canvas 1 Samples.selection 1.5 Samples.freshWorld) in
  fst (pdfExtraction doc 1 Samples.selection 1.5) = lit "x^2"
  /\ (50 <= 60)%Q
  /\ outcome = Normal (Extraction.mk (lit "x^2") pdf 95 true)
  /\ outcome <> Normal (Extraction.mk (lit "x^2") pdf 0 false).
Proof.
  cbv zeta. split; [vm_compute; reflexivity |].
  split; [discriminate |].
  split; [vm_compute; reflexivity |].
  vm_compute. discriminate.
Qed.

(** C3 (amended).  With a text-layer result of 1 to 10 code units, when the
    recognizer's confidence is at most 60 or the recognition wrapper throws,
    the outcome is the text-layer text, method 'structured', confidence 95,
    and the math flag [detectLatex] gives that text. *)
Theorem fallback_outcome tess doc canvas pageNumber bbox scale w
        pdfText pdfConfidence :
  pdfExtraction doc pageNumber bbox scale = (pdfText, pdfConfidence) ->
  (1 <= length pdfText <= 10)%nat ->
  match fst (extractTextFromCanvas tess canvas (Some bbox) w) with
  | Normal ocrResult => (OCRResult.confidence ocrResult <= 60)%Q
  | Throw _ => True
  end ->
  fst (extractFromBoundingBox tess doc canvas pageNumber bbox scale w)
  = Normal (Extraction.mk pdfText pdf 95 (detectLatex pdfText)).
Proof.
  intros Hpdf [Hlo Hhi] Hocr.
  rewrite (extractFromBoundingBox_cases tess _ canvas _ _ _ w _ _ Hpdf).
  rewrite (short_text_not_trusted _ _ Hhi).
  pose proof (pdfExtraction_confidence _ _ _ _ _ _ Hpdf) as Hc.
  apply nonEmpty_length in Hlo. rewrite Hlo in Hc. subst pdfConfidence.
  assert (Htext : orString pdfText unableToExtract = pdfText)
    by (destruct pdfText; [discriminate | reflexivity]).
  cbv zeta. rewrite Hlo, Htext.
  destruct (extractTextFromCanvas tess canvas (Some bbox) w) as [[r | e] w'];
    simpl in Hocr |- *; [| reflexivity].
  apply gt_false in Hocr. rewrite Hocr. reflexivity.
Qed.

Lemma fallback_outcome_witness :
  fst (extractFromBoundingBox (Samples.reading "hello" 50)
         (Samples.document [Samples.fragment "x^2" 100 700])
         Samples.canvas 1 Samples.selection 1.5 Samples.freshWorld)
  = Normal (Extraction.mk (lit "x^2") pdf 95 (detectLatex (lit "x^2"))).
Proof.
  apply (fallback_outcome (Samples.reading "hello" 50)
           (Samples.document [Samples.fragment "x^2" 100 700])
           Samples.canvas 1 Samples.selection 1.5 Samples.freshWorld
           (lit "x^2") 95%Q).
  - vm_compute. reflexivity.
  - simpl. lia.
  - vm_compute. discriminate.
Defined.

(** C4 (the code at the failing input).  The text layer gives "Ans:", the
    recognizer reads a blank line "___" with confidence 80, which cleanup
    turns into the empty string: the outcome is the empty recognized text
    with method 'recognized', and the text-layer text is dropped. *)
Theorem confident_empty_recognition_drops_text_layer :
  let doc := Samples.document [Samples.fragment "Ans:" 100 700] in
  fst (pdfExtraction doc 1 Samples.selection 1.5) = lit "Ans:"
  /\ cleanOCRText (lit "___") = []
  /\ extractFromBoundingBox (Samples.reading "___" 80) doc
       Samples.canvas 1 Samples.selection 1.5 Samples.freshWorld
     = (Normal (Extraction.mk [] ocr 80 false), Samples.afterOneRecognition).
Proof.
  cbv zeta. repeat split; vm_compute; reflexivity.
Qed.

Lemma placeholder_outcome tess doc canvas pageNumber bbox scale w :
  fst (pdfExtraction doc pageNumber bbox scale) = [] ->
  match fst (extractTextFromCanvas tess canvas (Some bbox) w) with
  | Normal ocrResult => ocrResult = OCRResult.mk [] 0 false
  | Throw _ => True
  end ->
  fst (extractFromBoundingBox tess doc canvas pageNumber bbox scale w)
  = Normal (Extraction.mk (lit "Unable to extract text") ocr 0 false).
Proof.
  intros Hpdf Hocr.
  destruct (pdfExtraction doc pageNumber bbox scale)
    as [pdfText pdfConfidence] eqn:E.
  simpl in Hpdf. subst pdfText.
  rewrite (extractFromBoundingBox_cases tess _ canvas _ _ _ w _ _ E).
  rewrite (pdfExtraction_confidence _ _ _ _ _ _ E). simpl.
  destruct (extractTextFromCanvas tess canvas (Some bbox) w)
    as [[r | e] w']; simpl in Hocr |- *; [| reflexivity].
  subst r. reflexivity.
Qed.

(** C5. When [worker.recognize] throws, the wrapper returns
    [{text: '', confidence: 0}] instead of raising, and an extraction whose
    text layer gave nothing then returns the placeholder outcome: 'Unable to
    extract text', method 'recognized', confidence 0.  The extraction also
    completes normally, with the same outcome, when the worker cannot be
    started. *)
Theorem recognition_failure_recovered tess :
  (forall canvas region w w1 wk e,
      initialize tess w = (Normal tt, w1) ->
      worker w1 = Some wk ->
      recognize tess wk {| source := canvas; crop := region |} = Throw e ->
      fst (extractTextFromCanvas tess canvas region w)
      = Normal (OCRResult.mk [] 0 false))
  /\ (forall doc canvas pageNumber bbox scale w w1 wk e,
         initialize tess w = (Normal tt, w1) ->
         worker w1 = Some wk ->
         recognize tess wk {| source := canvas; crop := Some bbox |}
           = Throw e ->
         fst (pdfExtraction doc pageNumber bbox scale) = [] ->
         fst (extractFromBoundingBox tess doc canvas pageNumber bbox scale w)
         = Normal (Extraction.mk (lit "Unable to extract text") ocr 0 false))
  /\ (forall doc canvas pageNumber bbox scale w e,
         fst (initialize tess w) = Throw e ->
         fst (pdfExtraction doc pageNumber bbox scale) = [] ->
         fst (extractFromBoundingBox tess doc canvas pageNumber bbox scale w)
         = Normal (Extraction.mk (lit "Unable to extract text") ocr 0 false)).
Proof.
  assert (Hwrapper : forall canvas region w w1 wk e,
    initialize tess w = (Normal tt, w1) ->
    worker w1 = Some wk ->
    recognize tess wk {| source := canvas; crop := region |} = Throw e ->
    fst (extractTextFromCanvas tess canvas region w)
    = Normal (OCRResult.mk [] 0 false)).
  { intros canvas region w w1 wk e Hinit Hworker Hrec.
    unfold extractTextFromCanvas, bind at 1. rewrite Hinit.
    unfold bind, get, tryCatch, callRecognize, ret.
    rewrite Hworker. simpl. rewrite Hrec. reflexivity. }
  split; [exact Hwrapper |]. split.
  - intros doc canvas pageNumber bbox scale w w1 wk e Hinit Hworker Hrec Hpdf.
    apply placeholder_outcome; [exact Hpdf |].
    now rewrite (Hwrapper _ _ _ _ _ _ Hinit Hworker Hrec).
  - intros doc canvas pageNumber bbox scale w e Hinit Hpdf.
    apply placeholder_outcome; [exact Hpdf |].
    unfold extractTextFromCanvas, bind at 1.
    destruct (initialize tess w) as [[[] | e'] w1]; simpl in Hinit |- *;
      [discriminate | exact I].
Qed.

Lemma recognition_failure_recovered_witness :
  fst (extractTextFromCanvas Samples.failing Samples.canvas
         (Some Samples.selection) Samples.freshWorld)
  = Normal (OCRResult.mk [] 0 false)
  /\ fst (extractFromBoundingBox Samples.failing (Samples.document [])
            Samples.canvas 1 Samples.selection 1.5 Samples.freshWorld)
     = Normal (Extraction.mk (lit "Unable to extract text") ocr 0 false)
  /\ fst (extractFromBoundingBox Samples.unavailable (Samples.document [])
            Samples.canvas 1 Samples.selection 1.5 Samples.freshWorld)
     = Normal (Extraction.mk (lit "Unable to extract text") ocr 0 false).
Proof.
  split; [| split].
  - apply (proj1 (recognition_failure_recovered Samples.failing)
             Samples.canvas (Some Samples.selection) Samples.freshWorld
             {| worker := Some EngWorker; isInitialized := true;
                recognized := [] |}
             EngWorker (Error "recognize failed")); reflexivity.
  - apply (proj1 (proj2 (recognition_failure_recovered Samples.failing))
             (Samples.document []) Samples.canvas 1 Samples.selection 1.5%Q
             Samples.freshWorld
             {| worker := Some EngWorker; isInitialized := true;
                recognized := [] |}
             EngWorker (Error "recognize failed")); reflexivity.
  - apply (proj2 (proj2 (recognition_failure_recovered Samples.unavailable))
             (Samples.document []) Samples.canvas 1 Samples.selection 1.5%Q
             Samples.freshWorld (Error "worker failed to start"));
      reflexivity.
Defined.

(** ** Coordinates *)

(** C6. For a render scale [s > 0] the selection [(x, y, width, height)] on
    a page of native height [H] is mapped to
    [(x/s, (H*s - y - height)/s, width/s, height/s)]; a selection anchored at
    raster [y = 0] is mapped to native [y = H - height/s]. *)
Theorem coordinate_mapping page bbox scale :
  (0 < scale)%Q ->
  let native := toPdfBbox (getViewport page scale) bbox scale in
  BBox.x native = (BBox.x bbox / scale)%Q
  /\ BBox.y native
     = ((viewHeight page * scale - BBox.y bbox - BBox.height bbox) / scale)%Q
  /\ BBox.width native = (BBox.width bbox / scale)%Q
  /\ BBox.height native = (BBox.height bbox / scale)%Q
  /\ ((BBox.y bbox == 0)%Q ->
      (BBox.y native == viewHeight page - BBox.height bbox / scale)%Q).
Proof.
  intros Hs native. repeat split.
  intro Hy. subst native. simpl. rewrite Hy. field.
  intro H0. rewrite H0 in Hs. discriminate.
Qed.

Lemma coordinate_mapping_witness :
  let page := {| viewWidth := 612; viewHeight := 792;
                 getTextContent := Normal [] |} in
  let native := toPdfBbox (getViewport page 1.5) Samples.selection 1.5 in
  BBox.x native = (0 / 1.5)%Q
  /\ BBox.y native = ((792 * 1.5 - 0 - 300) / 1.5)%Q
  /\ BBox.width native = (300 / 1.5)%Q
  /\ BBox.height native = (300 / 1.5)%Q
  /\ ((0 == 0)%Q -> (BBox.y native == 792 - 300 / 1.5)%Q).
Proof.
  apply (coordinate_mapping
           {| viewWidth := 612; viewHeight := 792;
              getTextContent := Normal [] |}
           Samples.selection 1.5).
  reflexivity.
Defined.

(** ** The text-layer probe *)

Lemma dropWhile_app p (s t : jsstring) :
  dropWhile p (s ++ t)
  = if forallb p s then dropWhile p t else dropWhile p s ++ t.
Proof.
  induction s as [| c s IH]; simpl; [reflexivity |].
  destruct (p c); simpl; [exact IH | reflexivity].
Qed.

Lemma dropWhile_all p (s : jsstring) : forallb p s = true -> dropWhile p s = [].
Proof.
  induction s as [| c s IH]; simpl; [reflexivity |].
  destruct (p c); simpl; [exact IH | discriminate].
Qed.

Lemma trim_snoc_space (s : jsstring) (c : code_unit) :
  Char.isSpace c = true -> trim (s ++ [c]) = trim s.
Proof.
  intro Hc. unfold trim, trimStart, trimEnd.
  rewrite dropWhile_app. simpl. rewrite Hc.
  match goal with |- context [if ?b then _ else _] => destruct b eqn:E end.
  - now rewrite (dropWhile_all _ _ E).
  - rewrite rev_app_distr. simpl. now rewrite Hc.
Qed.

Lemma fold_appendItem pdfBbox items acc :
  fold_left (appendItem pdfBbox) items acc
  = acc ++ concat (List.map (fun s => s ++ [Char.space])
                     (List.map itemStr (filter (anchoredWithin pdfBbox) items))).
Proof.
  revert acc. induction items as [| item items IH]; intro acc; simpl.
  - now rewrite app_nil_r.
  - rewrite IH. destruct item as [str [[[[[a b] c] d] x] y] |]; simpl.
    + destruct (within pdfBbox x y); simpl; [| reflexivity].
      now rewrite <- !app_assoc.
    + reflexivity.
Qed.

Lemma concat_spaced_join (parts : list jsstring) :
  parts <> [] ->
  concat (List.map (fun s => s ++ [Char.space]) parts)
  = join [Char.space] parts ++ [Char.space].
Proof.
  induction parts as [| s rest IH]; [congruence |]. intros _.
  destruct rest as [| s' rest'].
  - simpl. now rewrite app_nil_r.
  - change (concat (List.map (fun s => s ++ [Char.space]) (s :: s' :: rest')))
      with ((s ++ [Char.space])
            ++ concat (List.map (fun s => s ++ [Char.space]) (s' :: rest'))).
    rewrite IH by discriminate.
    change (join [Char.space] (s :: s' :: rest'))
      with (s ++ [Char.space] ++ join [Char.space] (s' :: rest')).
    now rewrite <- !app_assoc.
Qed.

Lemma trim_collectText pdfBbox items :
  trim (collectText pdfBbox items)
  = trim (join [Char.space]
            (List.map itemStr (filter (anchoredWithin pdfBbox) items))).
Proof.
  unfold collectText. rewrite fold_appendItem. simpl.
  destruct (List.map itemStr (filter (anchoredWithin pdfBbox) items))
    as [| s rest] eqn:E; [reflexivity |].
  rewrite concat_spaced_join by discriminate.
  now apply trim_snoc_space.
Qed.

Lemma within_spec pdfBbox x y :
  within pdfBbox x y = true <->
  (BBox.x pdfBbox <= x /\ x <= BBox.x pdfBbox + BBox.width pdfBbox
   /\ BBox.y pdfBbox <= y /\ y <= BBox.y pdfBbox + BBox.height pdfBbox)%Q.
Proof.
  unfold within. rewrite !andb_true_iff, !ge_spec, !le_spec. tauto.
Qed.

(** C7 (as stated, refuted).  One fragment [" a"] anchored in the region:
    the probe returns ["a"], while the space-joined fragments with trailing
    whitespace trimmed are [" a"]. *)
Lemma probe_trailing_trim_counterexample :
  let items := [Samples.fragment " a" 100 700] in
  let pdfBbox :=
    toPdfBbox (Viewport.mk (612 * 1.5) (792 * 1.5)) Samples.selection 1.5 in
  extractTextFromBoundingBox (Samples.document items) 1 Samples.selection 1.5
    = Normal (lit "a")
  /\ fst (pdfExtraction (Samples.document items) 1 Samples.selection 1.5)
     = lit "a"
  /\ trimEnd (join (lit " ")
                (List.map itemStr (filter (anchoredWithin pdfBbox) items)))
     = lit " a"
  /\ lit "a" <> lit " a".
Proof.
  cbv zeta. repeat split; try (vm_compute; reflexivity).
  vm_compute. discriminate.
Qed.

(** C7 (amended).  The probe of [lib/pdf-utils.ts], and the text-layer phase
    of the hybrid extractor, return the fragments whose anchor [(x, y)] lies
    in the native region, all four bounds inclusive, in their original order,
    joined by single spaces, with whitespace trimmed at both ends.  A fragment
    is in the selection exactly when its anchor is in the region. *)
Theorem structured_layer_probe doc pageNumber bbox scale page items :
  getPage doc pageNumber = Normal page ->
  getTextContent page = Normal items ->
  let pdfBbox := toPdfBbox (getViewport page scale) bbox scale in
  let included := filter (anchoredWithin pdfBbox) items in
  extractTextFromBoundingBox doc pageNumber bbox scale
    = Normal (trim (join (lit " ") (List.map itemStr included)))
  /\ fst (pdfExtraction doc pageNumber bbox scale)
     = trim (join (lit " ") (List.map itemStr included))
  /\ forall str a b c d x y,
       In (TextItem str (a, b, c, d, x, y)) included <->
       In (TextItem str (a, b, c, d, x, y)) items
       /\ (BBox.x pdfBbox <= x /\ x <= BBox.x pdfBbox + BBox.width pdfBbox
           /\ BBox.y pdfBbox <= y
           /\ y <= BBox.y pdfBbox + BBox.height pdfBbox)%Q.
Proof.
  intros Hpage Hitems pdfBbox included. split; [| split].
  - unfold extractTextFromBoundingBox. rewrite Hpage. simpl.
    rewrite Hitems. simpl. now rewrite trim_collectText.
  - unfold pdfExtraction. rewrite Hpage. simpl.
    rewrite Hitems. simpl. now rewrite trim_collectText.
  - intros str a b c d x y. unfold included.
    rewrite filter_In. simpl. rewrite within_spec. tauto.
Qed.

Lemma structured_layer_probe_witness :
  let items := [Samples.fragment " a" 100 700; Samples.fragment "b" 201 700;
                TextMarkedContent; Samples.fragment "c" 200 592] in
  let page := {| viewWidth := 612; viewHeight := 792;
                 getTextContent := Normal items |} in
  let pdfBbox := toPdfBbox (getViewport page 1.5) Samples.selection 1.5 in
  let included := filter (anchoredWithin pdfBbox) items in
  extractTextFromBoundingBox (Samples.document items) 1 Samples.selection 1.5
    = Normal (trim (join (lit " ") (List.map itemStr included)))
  /\ fst (pdfExtraction (Samples.document items) 1 Samples.selection 1.5)
     = trim (join (lit " ") (List.map itemStr included))
  /\ forall str a b c d x y,
       In (TextItem str (a, b, c, d, x, y)) included <->
       In (TextItem str (a, b, c, d, x, y)) items
       /\ (BBox.x pdfBbox <= x /\ x <= BBox.x pdfBbox + BBox.width pdfBbox
           /\ BBox.y pdfBbox <= y
           /\ y <= BBox.y pdfBbox + BBox.height pdfBbox)%Q.
Proof.
  apply (structured_layer_probe
           (Samples.document
              [Samples.fragment " a" 100 700; Samples.fragment "b" 201 700;
               TextMarkedContent; Samples.fragment "c" 200 592])
           1 Samples.selection 1.5).
  - reflexivity.
  - reflexivity.
Defined.

(** ** The math-content detector *)

Lemma lastUnit_cons (c : code_unit) (s : jsstring) :
  lastUnit (c :: s) = match lastUnit s with
                      | Some d => Some d
                      | None => Some c
                      end.
Proof. unfold lastUnit. simpl. now destruct (rev s). Qed.

Lemma lastUnit_In (s : jsstring) (c : code_unit) :
  lastUnit s = Some c -> In c s.
Proof.
  unfold lastUnit. intro H. apply in_rev.
  destruct (rev s); inversion H. now left.
Qed.

Lemma lastUnit_nonEmpty (s : jsstring) : s <> [] -> lastUnit s <> None.
Proof.
  destruct s as [| c s]; [congruence |]. intros _.
  rewrite lastUnit_cons. now destruct (lastUnit s).
Qed.

Lemma search_ctx_app p prev (pre s : jsstring) :
  p (match lastUnit pre with Some c => Some c | None => prev end) s = true ->
  search_ctx p prev (pre ++ s) = true.
Proof.
  revert prev. induction pre as [| c pre IH]; intros prev H.
  - simpl in *. destruct s; simpl; now rewrite H.
  - simpl. rewrite (IH (Some c)); [apply orb_true_r |].
    rewrite lastUnit_cons in H. now destruct (lastUnit pre).
Qed.

Lemma canonical_letter (c p : code_unit) :
  Char.isLower p = true -> canonicalize c = canonicalize p ->
  Char.isAlpha c = true.
Proof.
  unfold canonicalize, Char.isAlpha. intros Hp. rewrite Hp.
  destruct (Char.isLower c) eqn:Hc; [intros _; apply orb_true_r |].
  intro H. subst c. rewrite orb_false_r.
  unfold Char.isLower, Char.isUpper, Char.between in *.
  apply andb_true_iff in Hp. destruct Hp as [H1 H2].
  apply N.leb_le in H1, H2.
  apply andb_true_iff. split; apply N.leb_le; lia.
Qed.

Lemma match_ci_app (name word post : jsstring) :
  List.map canonicalize word = List.map canonicalize name ->
  match_ci name (word ++ post) = Some post
  /\ firstn (length name) (word ++ post) = word.
Proof.
  revert word. induction name as [| p name IH]; intros [| c word] H;
    try discriminate; simpl in *.
  - now split.
  - inversion H as [[Hc Hrest]]. rewrite Hc, N.eqb_refl.
    destruct (IH word Hrest) as [H1 H2]. now rewrite H1, H2.
Qed.

Lemma canonical_word (name word : jsstring) :
  forallb Char.isLower name = true ->
  List.map canonicalize word = List.map canonicalize name ->
  forall c, In c word -> Char.isWord c = true.
Proof.
  revert word. induction name as [| p name IH]; intros [| c word] Hn H;
    try discriminate; simpl in *; [tauto |].
  apply andb_true_iff in Hn. destruct Hn as [Hp Hn].
  inversion H as [[Hc Hrest]]. intros d [-> | Hd].
  - unfold Char.isWord. now rewrite (canonical_letter _ _ Hp Hc).
  - now apply (IH word).
Qed.

Lemma functionNames_lower (name : jsstring) :
  In name functionNames ->
  forallb Char.isLower name = true /\ name <> [].
Proof.
  intro H. repeat (destruct H as [<- | H]; [now split |]). destruct H.
Qed.

(** C10. A text in which one of sin, cos, tan, log, ln, exp, lim, max, min
    stands as a word of its own, in any letter case, is detected as math.
    The prose "choose the max value" is detected although none of the other
    six patterns matches it, so the recognizer's result for it, and the
    outcome built from that result alone, carry the math flag
    ([detectLatex], which has no such pattern, rejects it). *)
Theorem function_name_detected_as_math :
  (forall pre word post name,
      In name functionNames ->
      List.map canonicalize word = List.map canonicalize name ->
      wordChar (lastUnit pre) = false ->
      wordChar (head post) = false ->
      detectMathContent (pre ++ word ++ post) = true)
  /\ (let prose := lit "choose the max value" in
      detectMathContent prose = true
      /\ existsb (fun pattern => pattern prose) (removelast mathPatterns)
         = false
      /\ detectLatex prose = false
      /\ (forall c,
             fst (extractTextFromCanvas
                    (Samples.reading "choose the max value" c)
                    Samples.canvas (Some Samples.selection)
                    Samples.freshWorld)
             = Normal (OCRResult.mk prose c true))
      /\ fst (extractFromBoundingBox
                (Samples.reading "choose the max value" 80)
                (Samples.document []) Samples.canvas 1 Samples.selection 1.5
                Samples.freshWorld)
         = Normal (Extraction.mk prose ocr 80 true)).
Proof.
  split.
  - intros pre word post name Hname Hword Hpre Hpost.
    unfold detectMathContent, mathPatterns. simpl.
    match goal with
    | |- context [search_ctx at_functionName None ?t] =>
        assert (H : search_ctx at_functionName None t = true)
    end.
    2: { rewrite H. now rewrite !orb_true_r. }
    apply search_ctx_app.
    assert (Hctx : wordChar (match lastUnit pre with
                             | Some c => Some c
                             | None => None
                             end) = false)
      by (now destruct (lastUnit pre)).
    destruct (functionNames_lower _ Hname) as [Hlow Hne].
    pose proof (canonical_word _ _ Hlow Hword) as Hchars.
    destruct (match_ci_app name word post Hword) as [Hm Hf].
    assert (Hw : word <> []).
    { intro E. subst word. destruct name; [congruence | discriminate]. }
    unfold at_functionName. apply andb_true_iff. split.
    + unfold boundary. rewrite Hctx.
      destruct word as [| c word]; [congruence |]. simpl.
      apply Hchars. now left.
    + apply existsb_exists. exists name. split; [exact Hname |].
      rewrite Hm, Hf. unfold boundary. rewrite Hpost.
      destruct (lastUnit word) as [c |] eqn:E.
      * simpl. rewrite (Hchars c (lastUnit_In _ _ E)). reflexivity.
      * now apply lastUnit_nonEmpty in Hw.
  - cbv zeta. repeat split; try (vm_compute; reflexivity).
Qed.

Lemma function_name_detected_as_math_witness :
  detectMathContent (lit "the " ++ lit "MAX" ++ lit " of x") = true.
Proof.
  apply (proj1 function_name_detected_as_math
           (lit "the ") (lit "MAX") (lit " of x") (lit "max")).
  - simpl. tauto.
  - reflexivity.
  - reflexivity.
  - reflexivity.
Defined.

(** ** Cleanup: what the steps write *)

(** A code unit of the output of a replacement comes from the input or from
    a replacement text. *)
Lemma replace_from_In (m : matcher) (c : code_unit) :
  (forall t repl extra, m t = Some (repl, extra) -> ~ In c repl) ->
  forall s skip, In c (replace_from m skip s) -> In c s.
Proof.
  intros Hm. induction s as [| d s IH]; intros skip H; simpl in *; [tauto |].
  destruct skip as [| k].
  - destruct (m (d :: s)) as [[repl extra] |] eqn:E.
    + apply in_app_or in H. destruct H as [H | H].
      * now apply Hm in E.
      * right. now apply (IH extra).
    + destruct H as [H | H]; [now left | right; now apply (IH 0)].
  - right. now apply (IH k).
Qed.

Lemma dropWhile_In p (s : jsstring) (c : code_unit) :
  In c (dropWhile p s) -> In c s.
Proof.
  induction s as [| d s IH]; simpl; [tauto |].
  destruct (p d); [right; now apply IH | tauto].
Qed.

Lemma trim_In (s : jsstring) (c : code_unit) : In c (trim s) -> In c s.
Proof.
  unfold trim, trimEnd, trimStart. intro H.
  apply in_rev, dropWhile_In, in_rev, dropWhile_In in H. exact H.
Qed.

Lemma subst_In (a b c : code_unit) (s : jsstring) :
  In c (subst a b s) -> (c = b /\ In a s) \/ (c <> a /\ In c s).
Proof.
  unfold subst. rewrite in_map_iff. intros [d [Hd Hin]].
  destruct (N.eqb_spec d a); subst; [left | right]; now split.
Qed.

Lemma re_dollar_writes t repl extra :
  re_dollar t = Some (repl, extra) -> repl = [Char.dollar].
Proof.
  unfold re_dollar. destruct (dropWhile Char.isSpace t) as [| d r];
    [discriminate |].
  destruct (d =? Char.dollar)%N; [| discriminate].
  now inversion 1.
Qed.

Lemma re_backslash_writes t repl extra :
  re_backslash t = Some (repl, extra) -> repl = [Char.backslash].
Proof.
  unfold re_backslash. destruct t as [| c t]; [discriminate |].
  destruct (c =? Char.backslash)%N; [| discriminate].
  destruct (takeWhile Char.isSpace t); [discriminate |].
  now inversion 1.
Qed.

Lemma re_artifacts_writes t repl extra :
  re_artifacts t = Some (repl, extra) -> repl = [Char.space].
Proof.
  unfold re_artifacts. destruct t as [| c t]; [discriminate |].
  destruct (isArtifact c); [| discriminate].
  now inversion 1.
Qed.

(** After the two digit substitutions nothing writes a digit again. *)
Lemma after_substitutions_In (c : code_unit) (s : jsstring) :
  c <> Char.dollar -> c <> Char.backslash -> c <> Char.space ->
  In c (trim (removeArtifacts (tightenBackslash (tightenDollar s)))) ->
  In c s.
Proof.
  intros H1 H2 H3 H.
  apply trim_In in H.
  apply replace_from_In in H.
  2: { intros t repl extra E Hin.
       rewrite (re_artifacts_writes _ _ _ E) in Hin.
       destruct Hin as [Hin | []]. congruence. }
  apply replace_from_In in H.
  2: { intros t repl extra E Hin.
       rewrite (re_backslash_writes _ _ _ E) in Hin.
       destruct Hin as [Hin | []]. congruence. }
  apply replace_from_In in H.
  2: { intros t repl extra E Hin.
       rewrite (re_dollar_writes _ _ _ E) in Hin.
       destruct Hin as [Hin | []]. congruence. }
  exact H.
Qed.

Lemma cleanOCRText_no_digit_0_5 (text : jsstring) :
  ~ In Char.digit0 (cleanOCRText text) /\ ~ In Char.digit5 (cleanOCRText text).
Proof.
  unfold cleanOCRText, fiveToS, zeroToO. split; intro H;
    apply after_substitutions_In in H; try discriminate;
    apply subst_In in H; destruct H as [[H _] | [H1 H2]];
    try discriminate; try congruence.
  apply subst_In in H2. destruct H2 as [[H _] | [H2 _]];
    [discriminate | congruence].
Qed.

Lemma subst_untouched (a b : code_unit) (s : jsstring) :
  ~ In a s -> subst a b s = s.
Proof.
  unfold subst. induction s as [| c s IH]; intro H; [reflexivity |].
  simpl. rewrite IH by (intro; apply H; now right).
  destruct (N.eqb_spec c a); [| reflexivity].
  exfalso. apply H. now left.
Qed.

(** C8 (the code at the failing inputs).  "105" and "5. B" are in normal
    form under the five listed normalizations, and cleanup returns "1OS" and
    "S. B": the O/0 and S/5 corrections, which their comments call
    context-based, are the unconditional [/0/g] and [/5/g].  They alone break
    the claim: a string in normal form under the listed normalizations is a
    fixed point of cleanup exactly when it holds no digit 0 and no digit 5. *)
Theorem cleanup_rewrites_digits :
  listedNormal (lit "105")
  /\ cleanOCRText (lit "105") = lit "1OS"
  /\ listedNormal (lit "5. B")
  /\ cleanOCRText (lit "5. B") = lit "S. B"
  /\ forall text,
       listedNormal text ->
       (cleanOCRText text = text
        <-> ~ In Char.digit0 text /\ ~ In Char.digit5 text).
Proof.
  split; [repeat split; vm_compute; reflexivity |].
  split; [vm_compute; reflexivity |].
  split; [repeat split; vm_compute; reflexivity |].
  split; [vm_compute; reflexivity |].
  intros text (H1 & H2 & H3 & H4 & H5 & H6 & H7 & H8). split.
  - intro Hfix. rewrite <- Hfix. apply cleanOCRText_no_digit_0_5.
  - intros [H0 Hfive]. unfold cleanOCRText.
    rewrite H1, H2, H3, H4.
    unfold zeroToO. rewrite (subst_untouched _ _ _ H0).
    unfold fiveToS. rewrite (subst_untouched _ _ _ Hfive).
    now rewrite H6, H7, H5, H8.
Qed.

Lemma cleanup_rewrites_digits_witness :
  cleanOCRText (lit "12. A") = lit "12. A".
Proof.
  apply (proj2 (proj2 (proj2 (proj2 cleanup_rewrites_digits))) (lit "12. A")).
  - repeat split; vm_compute; reflexivity.
  - simpl. intuition discriminate.
Defined.

(** ** Cleanup on the spaced form *)

Lemma replace_from_skipn (m : matcher) (s : jsstring) (k : nat) :
  replace_from m k s = replaceAll m (skipn k s).
Proof.
  revert k. induction s as [| c s IH]; intros [| k]; try reflexivity.
  simpl. apply IH.
Qed.

Lemma replaceAll_cons (m : matcher) (c : code_unit) (t : jsstring) :
  replaceAll m (c :: t)
  = match m (c :: t) with
    | Some (repl, extra) => repl ++ replaceAll m (skipn extra t)
    | None => c :: replaceAll m t
    end.
Proof.
  unfold replaceAll at 1. simpl.
  destruct (m (c :: t)) as [[repl extra] |]; [| reflexivity].
  now rewrite replace_from_skipn.
Qed.

Lemma replaceAll_miss (m : matcher) (c : code_unit) (t : jsstring) :
  m (c :: t) = None -> replaceAll m (c :: t) = c :: replaceAll m t.
Proof. intro H. now rewrite replaceAll_cons, H. Qed.

Lemma replaceAll_hit (m : matcher) (c : code_unit) (t repl : jsstring) extra :
  m (c :: t) = Some (repl, extra) ->
  replaceAll m (c :: t) = repl ++ replaceAll m (skipn extra t).
Proof. intro H. now rewrite replaceAll_cons, H. Qed.

(** A pattern that can only start on a code unit of some class leaves a
    string without such code units as it is. *)
Lemma replaceAll_untouched (m : matcher) (p : code_unit -> bool) :
  (forall c t, p c = false -> m (c :: t) = None) ->
  forall s, forallb (fun c => negb (p c)) s = true -> replaceAll m s = s.
Proof.
  intros Hm. induction s as [| c s IH]; intro H; [reflexivity |].
  simpl in H. apply andb_true_iff in H. destruct H as [Hc Hs].
  apply negb_true_iff in Hc.
  rewrite replaceAll_miss by now apply Hm. now rewrite IH.
Qed.

(** *** Shape of a rendering *)

Lemma render_eq cs gs : render cs gs = gap (hd false gs) ++ body cs (tl gs).
Proof. destruct cs; reflexivity. Qed.

Lemma render_cons g gs cs : render cs (g :: gs) = gap g ++ body cs gs.
Proof. now rewrite render_eq. Qed.

Lemma render_In cs gs c : In c (render cs gs) -> c = Char.space \/ In c cs.
Proof.
  revert gs. induction cs as [| d cs IH]; intros gs H; simpl in H.
  - rewrite app_nil_r in H. destruct (hd false gs); simpl in H;
      intuition congruence.
  - apply in_app_or in H. destruct H as [H | [H | H]].
    + destruct (hd false gs); simpl in H; intuition congruence.
    + right. now left.
    + destruct (IH _ H); [now left | right; now right].
Qed.

Lemma nonSpace_cons c cs :
  nonSpace (c :: cs) <-> Char.isSpace c = false /\ nonSpace cs.
Proof. unfold nonSpace. split; [now inversion 1 | intros []; now constructor]. Qed.

Lemma takeWhile_space_body cs gs :
  nonSpace cs -> takeWhile Char.isSpace (body cs gs) = [].
Proof.
  destruct cs as [| c cs]; [reflexivity |].
  intros [Hc _] % nonSpace_cons. simpl. now rewrite Hc.
Qed.

Lemma dropWhile_space_body cs gs :
  nonSpace cs -> dropWhile Char.isSpace (body cs gs) = body cs gs.
Proof.
  destruct cs as [| c cs]; [reflexivity |].
  intros [Hc _] % nonSpace_cons. simpl. now rewrite Hc.
Qed.

Lemma takeWhile_space_gap g cs gs :
  nonSpace cs -> takeWhile Char.isSpace (gap g ++ body cs gs) = gap g.
Proof.
  intro H. destruct g; simpl; [| now apply takeWhile_space_body].
  now rewrite takeWhile_space_body.
Qed.

Lemma dropWhile_space_gap g cs gs :
  nonSpace cs -> dropWhile Char.isSpace (gap g ++ body cs gs) = body cs gs.
Proof.
  intro H. destruct g; simpl; now apply dropWhile_space_body.
Qed.

Lemma skipn_gap g (s : jsstring) : skipn (length (gap g)) (gap g ++ s) = s.
Proof. now destruct g. Qed.

(** *** Rules *)

Lemma regap_eq f p2 p1 cs gs :
  regap f p2 p1 cs gs
  = act (f p2 p1 (head cs) (head (tl cs))) (hd false gs)
    :: match cs with
       | [] => []
       | c :: cs' => regap f p1 (Some c) cs' (tl gs)
       end.
Proof. destruct cs; reflexivity. Qed.

Lemma regap_thenRule f g p2 p1 cs gs :
  regap g p2 p1 cs (regap f p2 p1 cs gs) = regap (thenRule f g) p2 p1 cs gs.
Proof.
  revert p2 p1 gs. induction cs as [| c cs IH]; intros p2 p1 gs; simpl.
  - unfold thenRule. now destruct (g p2 p1 None None).
  - rewrite IH. f_equal. unfold thenRule.
    now destruct (g p2 p1 (Some c) (head cs)).
Qed.

Lemma regap_idempotent f p2 p1 cs gs :
  regap f p2 p1 cs (regap f p2 p1 cs gs) = regap f p2 p1 cs gs.
Proof.
  revert p2 p1 gs. induction cs as [| c cs IH]; intros p2 p1 gs; simpl.
  - now destruct (f p2 p1 None None).
  - rewrite IH. f_equal. now destruct (f p2 p1 (Some c) (head cs)).
Qed.

Lemma body_render cs gs : body cs gs = render cs (false :: gs).
Proof. now rewrite render_cons. Qed.

Lemma replaceAll_gap (m : matcher) g (s : jsstring) :
  (forall t, m (Char.space :: t) = None) ->
  replaceAll m (gap g ++ s) = gap g ++ replaceAll m s.
Proof.
  intro H. destruct g; [| reflexivity]. simpl. now apply replaceAll_miss.
Qed.

Lemma regap_dropped_head f p2 p1 cs gs g :
  f p2 p1 (head cs) (head (tl cs)) = Drop ->
  regap f p2 p1 cs (g :: tl gs) = regap f p2 p1 cs gs.
Proof. intro H. rewrite (regap_eq f p2 p1 cs gs), regap_eq, H. reflexivity. Qed.

(** *** Whitespace after a backslash *)

Lemma tightenBackslash_render cs :
  nonSpace cs ->
  forall gs p2 p1,
    (holds (isUnit Char.backslash) p1 = true -> hd false gs = false) ->
    tightenBackslash (render cs gs)
    = render cs (regap backslashRule p2 p1 cs gs).
Proof.
  unfold tightenBackslash.
  induction cs as [| c cs IH]; intros Hns gs p2 p1 Hinv.
  - simpl. rewrite !app_nil_r. unfold backslashRule.
    destruct (holds (isUnit Char.backslash) p1).
    + now rewrite Hinv.
    + simpl. now destruct (hd false gs).
  - apply nonSpace_cons in Hns. destruct Hns as [Hc Hns].
    simpl. rewrite replaceAll_gap by reflexivity.
    assert (Hg : act (backslashRule p2 p1 (Some c) (head cs)) (hd false gs)
                 = hd false gs).
    { unfold backslashRule. destruct (holds (isUnit Char.backslash) p1);
        [now rewrite Hinv | reflexivity]. }
    rewrite Hg. f_equal.
    destruct (c =? Char.backslash)%N eqn:Ec.
    + destruct (hd false (tl gs)) eqn:Eg.
      * rewrite (replaceAll_hit _ _ _ [Char.backslash] 1).
        2: { unfold re_backslash. rewrite Ec, render_eq, Eg.
             now rewrite (takeWhile_space_gap true _ _ Hns). }
        apply N.eqb_eq in Ec. subst c. simpl. f_equal.
        rewrite render_eq, Eg. simpl. rewrite body_render.
        rewrite (IH Hns _ p1 (Some Char.backslash)) by reflexivity.
        now rewrite regap_dropped_head.
      * rewrite replaceAll_miss.
        2: { unfold re_backslash. rewrite Ec, render_eq, Eg.
             now rewrite (takeWhile_space_gap false _ _ Hns). }
        f_equal. now apply IH.
    + rewrite replaceAll_miss by (unfold re_backslash; now rewrite Ec).
      f_equal. apply IH; [exact Hns |]. simpl. unfold isUnit. congruence.
Qed.

(** *** Whitespace around a dollar sign *)

Lemma re_dollar_at_gap g c cs gs :
  nonSpace (c :: cs) ->
  re_dollar (gap g ++ c :: render cs gs)
  = if (c =? Char.dollar)%N
    then Some ([Char.dollar],
               pred (length (gap g) + 1 + length (gap (hd false gs))))
    else None.
Proof.
  intro Hns. unfold re_dollar.
  change (c :: render cs gs) with (body (c :: cs) gs).
  rewrite takeWhile_space_gap, dropWhile_space_gap by exact Hns.
  simpl. destruct (c =? Char.dollar)%N; [| reflexivity].
  apply nonSpace_cons in Hns. destruct Hns as [_ Hns].
  now rewrite render_eq, (takeWhile_space_gap _ _ _ Hns).
Qed.

Lemma tightenDollar_hit g cs gs :
  nonSpace cs ->
  replaceAll re_dollar (gap g ++ Char.dollar :: render cs gs)
  = Char.dollar :: replaceAll re_dollar (body cs (tl gs)).
Proof.
  intro Hns.
  assert (Hall : nonSpace (Char.dollar :: cs))
    by (apply nonSpace_cons; now split).
  pose proof (re_dollar_at_gap g Char.dollar cs gs Hall) as Hm.
  rewrite N.eqb_refl in Hm.
  destruct g;
    change (gap true) with [Char.space] in *;
    change (gap false) with (@nil N) in *;
    cbn [app] in Hm |- *;
    rewrite (replaceAll_hit _ _ _ _ _ Hm); cbn [app length Nat.add pred skipn];
    f_equal; now rewrite render_eq, skipn_gap.
Qed.

Lemma tightenDollar_miss g c cs gs :
  nonSpace (c :: cs) -> (c =? Char.dollar)%N = false ->
  replaceAll re_dollar (gap g ++ c :: render cs gs)
  = gap g ++ c :: replaceAll re_dollar (render cs gs).
Proof.
  intros Hns Hc.
  pose proof (re_dollar_at_gap g c cs gs Hns) as Hm. rewrite Hc in Hm.
  pose proof (re_dollar_at_gap false c cs gs Hns) as Hm'. rewrite Hc in Hm'.
  cbn [gap app] in Hm'.
  destruct g; cbn [gap app] in Hm |- *.
  - rewrite (replaceAll_miss _ _ _ Hm). f_equal.
    now rewrite (replaceAll_miss _ _ _ Hm').
  - now rewrite (replaceAll_miss _ _ _ Hm').
Qed.

Lemma tightenDollar_render cs :
  nonSpace cs ->
  forall gs p2 p1,
    (holds (isUnit Char.dollar) p1 = true -> hd false gs = false) ->
    tightenDollar (render cs gs) = render cs (regap dollarRule p2 p1 cs gs).
Proof.
  unfold tightenDollar.
  induction cs as [| c cs IH]; intros Hns gs p2 p1 Hinv.
  - simpl. rewrite !app_nil_r. unfold dollarRule.
    destruct (holds (isUnit Char.dollar) p1).
    + now rewrite Hinv.
    + simpl. now destruct (hd false gs).
  - pose proof Hns as Hall.
    apply nonSpace_cons in Hns. destruct Hns as [Hc Hns]. simpl.
    destruct (c =? Char.dollar)%N eqn:Ec.
    + apply N.eqb_eq in Ec. subst c.
      rewrite (tightenDollar_hit _ _ _ Hns).
      assert (Hr : dollarRule p2 p1 (Some Char.dollar) (head cs) = Drop).
      { unfold dollarRule. simpl. now rewrite orb_true_r. }
      rewrite Hr. simpl. f_equal.
      rewrite body_render, (IH Hns _ p1 (Some Char.dollar)) by reflexivity.
      now rewrite regap_dropped_head.
    + rewrite (tightenDollar_miss _ _ _ _ Hall Ec).
      assert (Hg : act (dollarRule p2 p1 (Some c) (head cs)) (hd false gs)
                   = hd false gs).
      { unfold dollarRule. simpl. unfold isUnit at 2. rewrite Ec, orb_false_r.
        destruct (holds (isUnit Char.dollar) p1);
          [now rewrite Hinv | reflexivity]. }
      rewrite Hg. do 2 f_equal.
      apply IH; [exact Hns |]. simpl. unfold isUnit. congruence.
Qed.

(** *** Whitespace collapse and trim *)

Lemma collapseWhitespace_render cs :
  nonSpace cs -> forall gs, collapseWhitespace (render cs gs) = render cs gs.
Proof.
  unfold collapseWhitespace.
  induction cs as [| c cs IH]; intros Hns gs.
  - simpl. now destruct (hd false gs).
  - apply nonSpace_cons in Hns. destruct Hns as [Hc Hns].
    assert (Hmiss : replaceAll re_spaces (c :: render cs (tl gs))
                    = c :: render cs (tl gs)).
    { rewrite replaceAll_miss by (unfold re_spaces; now rewrite Hc).
      now rewrite IH. }
    simpl. destruct (hd false gs); cbn [gap app]; [| exact Hmiss].
    rewrite (replaceAll_hit _ _ _ [Char.space] 0).
    + cbn [skipn app]. now rewrite Hmiss.
    + unfold re_spaces. simpl. now rewrite Hc.
Qed.

Lemma skipn_takeWhile p (s : jsstring) :
  skipn (length (takeWhile p s)) s = dropWhile p s.
Proof.
  induction s as [| c s IH]; simpl; [reflexivity |].
  destruct (p c); simpl; [exact IH | reflexivity].
Qed.

Lemma dropWhile_length p (s : jsstring) :
  (length (dropWhile p s) <= length s)%nat.
Proof.
  induction s as [| c s IH]; simpl; [lia |].
  destruct (p c); simpl; lia.
Qed.

Lemma takeWhile_dropWhile p (s : jsstring) :
  takeWhile p (dropWhile p s) = [].
Proof.
  induction s as [| c s IH]; simpl; [reflexivity |].
  destruct (p c) eqn:E; simpl; [exact IH | now rewrite E].
Qed.

(** Collapsing whitespace gives a spaced form over the code units of the
    input that are not whitespace. *)
Lemma collapseWhitespace_spaced (x : jsstring) :
  exists cs gs,
    collapseWhitespace x = render cs gs
    /\ nonSpace cs
    /\ forall c, In c cs -> In c x.
Proof.
  enough (H : forall n (x : jsstring), (length x <= n)%nat ->
    exists cs gs,
      collapseWhitespace x = render cs gs
      /\ nonSpace cs
      /\ (forall c, In c cs -> In c x)
      /\ (takeWhile Char.isSpace x = [] -> hd false gs = false)).
  { destruct (H (length x) x (Nat.le_refl _)) as (cs & gs & H1 & H2 & H3 & _).
    now exists cs, gs. }
  clear x. unfold collapseWhitespace.
  induction n as [| n IH]; intros [| c t] Hlen; simpl in Hlen; try lia;
    try (exists [], []; repeat split; [constructor | tauto]).
  destruct (Char.isSpace c) eqn:Hc.
  - destruct (IH (dropWhile Char.isSpace t)) as (cs & gs & H1 & H2 & H3 & H4).
    { pose proof (dropWhile_length Char.isSpace t). lia. }
    specialize (H4 (takeWhile_dropWhile _ _)).
    exists cs, (true :: tl gs). repeat split.
    + rewrite (replaceAll_hit _ _ _ [Char.space]
                 (length (takeWhile Char.isSpace t)))
        by (unfold re_spaces; now rewrite Hc).
      rewrite skipn_takeWhile, H1, render_cons, (render_eq cs gs), H4.
      reflexivity.
    + exact H2.
    + intros d Hd. right. apply (dropWhile_In Char.isSpace). now apply H3.
    + simpl. rewrite Hc. discriminate.
  - destruct (IH t) as (cs & gs & H1 & H2 & H3 & _); [lia |].
    exists (c :: cs), (false :: gs). repeat split.
    + rewrite replaceAll_miss by (unfold re_spaces; now rewrite Hc).
      now rewrite H1.
    + apply nonSpace_cons. now split.
    + intros d [-> | Hd]; [now left | right; now apply H3].
Qed.

Lemma forallb_rev p (s : jsstring) : forallb p (rev s) = forallb p s.
Proof.
  induction s as [| c s IH]; [reflexivity |].
  simpl. rewrite forallb_app, IH. simpl. rewrite andb_true_r. apply andb_comm.
Qed.

Lemma trimEnd_cons (c : code_unit) (s : jsstring) :
  trimEnd (c :: s)
  = if forallb Char.isSpace (c :: s) then [] else c :: trimEnd s.
Proof.
  unfold trimEnd. simpl. rewrite dropWhile_app, forallb_rev.
  destruct (forallb Char.isSpace s) eqn:E.
  - rewrite <- forallb_rev in E. rewrite (dropWhile_all _ _ E). simpl.
    rewrite andb_true_r. now destruct (Char.isSpace c).
  - rewrite andb_false_r, rev_app_distr. reflexivity.
Qed.

Lemma trimEnd_nonSpace (c : code_unit) (s : jsstring) :
  Char.isSpace c = false -> trimEnd (c :: s) = c :: trimEnd s.
Proof. intro H. rewrite trimEnd_cons. simpl. now rewrite H. Qed.

Lemma trimEnd_render cs :
  nonSpace cs ->
  forall gs p2 p,
    trimEnd (render cs gs) = render cs (regap trimRule p2 (Some p) cs gs).
Proof.
  induction cs as [| c cs IH]; intros Hns gs p2 p.
  - simpl. now destruct (hd false gs).
  - apply nonSpace_cons in Hns. destruct Hns as [Hc Hns].
    simpl. destruct (hd false gs); cbn [gap app].
    + rewrite trimEnd_cons. simpl. rewrite Hc. simpl.
      now rewrite (trimEnd_nonSpace _ _ Hc), (IH Hns _ (Some p) c).
    + now rewrite (trimEnd_nonSpace _ _ Hc), (IH Hns _ (Some p) c).
Qed.

Lemma trim_render cs :
  nonSpace cs ->
  forall gs, trim (render cs gs) = render cs (regap trimRule None None cs gs).
Proof.
  intros Hns gs. unfold trim, trimStart.
  rewrite render_eq, (dropWhile_space_gap _ _ _ Hns).
  destruct cs as [| c cs]; [reflexivity |].
  apply nonSpace_cons in Hns. destruct Hns as [Hc Hns].
  simpl. now rewrite (trimEnd_nonSpace _ _ Hc), (trimEnd_render _ Hns _ None c).
Qed.

(** *** Lettering *)

Lemma skipn_gap_unit_gap a b (x : code_unit) (s : jsstring) :
  skipn (length (gap a) + 1 + length (gap b)) (gap a ++ x :: gap b ++ s) = s.
Proof. now destruct a, b. Qed.

Lemma re_lettering_at c cs gs :
  nonSpace cs ->
  re_lettering (c :: render cs gs)
  = if Char.isLower c then
      match cs with
      | p :: _ =>
          if (p =? Char.rparen)%N
          then Some ([c; Char.rparen; Char.space],
                     length (gap (hd false gs)) + 1
                     + length (gap (hd false (tl gs))))
          else None
      | [] => None
      end
    else None.
Proof.
  intro Hns. unfold re_lettering. destruct (Char.isLower c); [| reflexivity].
  rewrite render_eq, takeWhile_space_gap, dropWhile_space_gap by exact Hns.
  destruct cs as [| p cs]; [reflexivity |]. simpl.
  destruct (p =? Char.rparen)%N; [| reflexivity].
  apply nonSpace_cons in Hns. destruct Hns as [_ Hns].
  now rewrite render_eq, (takeWhile_space_gap _ _ _ Hns).
Qed.

Lemma fixLettering_from n :
  forall cs, (length cs <= n)%nat -> nonSpace cs ->
  forall c gs p1,
    Char.isSpace c = false ->
    holds Char.isLower p1 && isUnit Char.rparen c = false ->
    fixLettering (c :: render cs gs)
    = c :: render cs (regap letteringRule p1 (Some c) cs gs).
Proof.
  unfold fixLettering.
  induction n as [n IH] using lt_wf_ind.
  intros cs Hlen Hns c gs p1 Hc Hinv.
  pose proof (re_lettering_at c cs gs Hns) as Hm.
  destruct (Char.isLower c && holds (isUnit Char.rparen) (head cs)) eqn:Hhit.
  - (* the pattern matches at [c] *)
    apply andb_true_iff in Hhit. destruct Hhit as [Hlow Hp].
    destruct cs as [| p cs]; [discriminate |]. simpl in Hp. unfold isUnit in Hp.
    rewrite Hlow, Hp in Hm. apply N.eqb_eq in Hp. subst p.
    apply nonSpace_cons in Hns. destruct Hns as [_ Hns].
    rewrite (replaceAll_hit _ _ _ _ _ Hm).
    simpl render.
    rewrite (render_eq cs (tl gs)), skipn_gap_unit_gap.
    assert (H1 : letteringRule p1 (Some c) (Some Char.rparen) (head cs) = Drop).
    { unfold letteringRule. simpl. now rewrite Hlow. }
    assert (H2 : letteringRule (Some c) (Some Char.rparen) (head cs)
                   (head (tl cs)) = Put).
    { unfold letteringRule. simpl. now rewrite Hlow. }
    rewrite H1. cbn [act gap app]. do 2 f_equal.
    rewrite regap_eq, H2. cbn [act]. rewrite render_cons. cbn [gap app].
    f_equal.
    destruct cs as [| c' cs]; [reflexivity |].
    apply nonSpace_cons in Hns. destruct Hns as [Hc' Hns].
    simpl body. simpl in Hlen.
    apply (IH (length cs)); trivial; lia.
  - (* no match at [c] *)
    assert (Hnone : re_lettering (c :: render cs gs) = None).
    { rewrite Hm. destruct (Char.isLower c); [| reflexivity].
      destruct cs as [| p cs]; [reflexivity |].
      simpl in Hhit. unfold isUnit in Hhit. now rewrite Hhit. }
    rewrite (replaceAll_miss _ _ _ Hnone). f_equal.
    rewrite render_eq, replaceAll_gap by reflexivity.
    rewrite (regap_eq letteringRule).
    assert (Hkeep : letteringRule p1 (Some c) (head cs) (head (tl cs)) = Keep).
    { unfold letteringRule.
      change (holds Char.isLower (Some c)) with (Char.isLower c).
      change (holds (isUnit Char.rparen) (Some c))
        with (isUnit Char.rparen c).
      now rewrite Hhit, Hinv. }
    rewrite Hkeep. cbn [act]. rewrite render_cons. f_equal.
    destruct cs as [| c' cs]; [reflexivity |].
    apply nonSpace_cons in Hns. destruct Hns as [Hc' Hns].
    simpl body. simpl in Hlen, Hhit. cbn [tl].
    destruct n as [| n]; [lia |].
    apply (IH n); trivial; lia.
Qed.

Lemma fixLettering_render cs :
  nonSpace cs ->
  forall gs,
    fixLettering (render cs gs)
    = render cs (regap letteringRule None None cs gs).
Proof.
  intros Hns gs. rewrite render_eq. unfold fixLettering.
  rewrite replaceAll_gap by reflexivity.
  rewrite regap_eq. cbn [letteringRule holds andb act]. rewrite render_cons.
  f_equal. destruct cs as [| c cs]; [reflexivity |].
  apply nonSpace_cons in Hns. destruct Hns as [Hc Hns].
  now apply (fixLettering_from (length cs)).
Qed.

(** *** Numbering *)

Lemma digit_not_dot (d : code_unit) :
  Char.isDigit d = true -> isUnit Char.dot d = false.
Proof.
  unfold Char.isDigit, Char.between, isUnit, Char.dot.
  intros [H1 _] % andb_true_iff. apply N.leb_le in H1.
  apply N.eqb_neq. lia.
Qed.

Lemma upper_not_digit (L : code_unit) :
  Char.isUpper L = true -> Char.isDigit L = false.
Proof.
  unfold Char.isDigit, Char.isUpper, Char.between.
  intros [H1 _] % andb_true_iff. apply N.leb_le in H1.
  apply andb_false_iff. right. apply N.leb_gt. lia.
Qed.

(** A match that starts on a digit followed by a digit is the match that
    starts on the second digit, one digit longer. *)
Lemma re_numbering_digit c d t :
  Char.isDigit c = true -> Char.isDigit d = true ->
  re_numbering (c :: d :: t)
  = match re_numbering (d :: t) with
    | Some (repl, extra) => Some (c :: repl, S extra)
    | None => None
    end.
Proof.
  intros Hc Hd. unfold re_numbering. cbn [takeWhile dropWhile].
  rewrite Hc, Hd.
  destruct (dropWhile Char.isSpace (dropWhile Char.isDigit t)) as [| x r1];
    [reflexivity |].
  destruct (x =? Char.dot)%N; [| reflexivity].
  destruct (dropWhile Char.isSpace r1) as [| L r2]; [reflexivity |].
  destruct (Char.isUpper L); reflexivity.
Qed.

Lemma fixNumbering_digit c d t :
  Char.isDigit c = true -> Char.isDigit d = true ->
  replaceAll re_numbering (c :: d :: t)
  = c :: replaceAll re_numbering (d :: t).
Proof.
  intros Hc Hd.
  rewrite (replaceAll_cons _ c), (replaceAll_cons _ d).
  rewrite (re_numbering_digit _ _ _ Hc Hd).
  destruct (re_numbering (d :: t)) as [[repl extra] |]; reflexivity.
Qed.

Lemma digits_render cs gs :
  negb (hd false gs) && holds Char.isDigit (head cs) = false ->
  takeWhile Char.isDigit (render cs gs) = []
  /\ dropWhile Char.isDigit (render cs gs) = render cs gs.
Proof.
  intro H. rewrite render_eq.
  destruct (hd false gs); [now split |].
  destruct cs as [| c cs]; [now split |].
  simpl in H |- *. now rewrite H.
Qed.

Lemma skipn_gap_unit_gap_unit a b (x y : code_unit) (s : jsstring) :
  skipn (length (gap a) + 1 + length (gap b) + 1)
        (gap a ++ x :: gap b ++ y :: s) = s.
Proof. now destruct a, b. Qed.

Lemma re_numbering_at c cs gs :
  nonSpace cs ->
  Char.isDigit c && (negb (hd false gs) && holds Char.isDigit (head cs))
    = false ->
  re_numbering (c :: render cs gs)
  = match cs with
    | p :: L :: _ =>
        if Char.isDigit c && isUnit Char.dot p && Char.isUpper L
        then Some ([c; Char.dot; Char.space; L],
                   length (gap (hd false gs)) + 1
                   + length (gap (hd false (tl gs))) + 1)
        else None
    | _ => None
    end.
Proof.
  intros Hns H. unfold re_numbering. cbn [takeWhile dropWhile].
  destruct (Char.isDigit c).
  - simpl in H. destruct (digits_render cs gs H) as [Ht Hd].
    rewrite Ht, Hd.
    rewrite render_eq, takeWhile_space_gap, dropWhile_space_gap by exact Hns.
    destruct cs as [| p cs]; [reflexivity |].
    apply nonSpace_cons in Hns. destruct Hns as [_ Hns].
    cbn [body andb]. unfold isUnit.
    destruct (p =? Char.dot)%N; [| now destruct cs].
    rewrite render_eq, takeWhile_space_gap, dropWhile_space_gap by exact Hns.
    destruct cs as [| L cs]; [reflexivity |].
    cbn [body andb]. destruct (Char.isUpper L); reflexivity.
  - destruct cs as [| p [| L cs]]; reflexivity.
Qed.

Lemma fixNumbering_from n :
  forall cs, (length cs <= n)%nat -> nonSpace cs ->
  forall c gs p1,
    Char.isSpace c = false ->
    holds Char.isDigit p1 && isUnit Char.dot c && holds Char.isUpper (head cs)
      = false ->
    fixNumbering (c :: render cs gs)
    = c :: render cs (regap numberingRule p1 (Some c) cs gs).
Proof.
  unfold fixNumbering.
  induction n as [n IH] using lt_wf_ind.
  intros cs Hlen Hns c gs p1 Hc Hinv.
  destruct (Char.isDigit c && (negb (hd false gs)
                               && holds Char.isDigit (head cs))) eqn:Hrun.
  { (* inside a run of digits *)
    apply andb_true_iff in Hrun. destruct Hrun as [Hd Hrun].
    apply andb_true_iff in Hrun. destruct Hrun as [Hg Hd'].
    apply negb_true_iff in Hg.
    destruct cs as [| d cs]; [discriminate |]. simpl in Hd', Hlen.
    apply nonSpace_cons in Hns. destruct Hns as [Hsd Hns].
    simpl render. rewrite Hg. cbn [gap app].
    rewrite (fixNumbering_digit _ _ _ Hd Hd').
    assert (Hkeep : numberingRule p1 (Some c) (Some d) (head cs) = Keep).
    { unfold numberingRule. cbn [holds].
      now rewrite (digit_not_dot _ Hd'), (digit_not_dot _ Hd),
        !andb_false_r. }
    rewrite Hkeep. cbn [act gap app]. f_equal.
    destruct n as [| n]; [lia |].
    apply (IH n); trivial; try lia.
    cbn [holds]. now rewrite (digit_not_dot _ Hd'), andb_false_r. }
  pose proof (re_numbering_at c cs gs Hns Hrun) as Hm.
  destruct (Char.isDigit c && holds (isUnit Char.dot) (head cs)
            && holds Char.isUpper (head (tl cs))) eqn:Hhit.
  - (* the pattern matches at [c], the last digit of its run *)
    destruct cs as [| p [| L cs]];
      try (simpl in Hhit; rewrite ?andb_false_r in Hhit; discriminate).
    cbn [holds head tl] in Hhit. rewrite Hhit in Hm.
    apply andb_true_iff in Hhit. destruct Hhit as [Hhit HL].
    apply andb_true_iff in Hhit. destruct Hhit as [Hd Hp].
    apply N.eqb_eq in Hp. subst p.
    apply nonSpace_cons in Hns. destruct Hns as [_ Hns].
    apply nonSpace_cons in Hns. destruct Hns as [_ Hns].
    rewrite (replaceAll_hit _ _ _ _ _ Hm).
    simpl render. rewrite skipn_gap_unit_gap_unit.
    assert (H1 : numberingRule p1 (Some c) (Some Char.dot) (Some L) = Drop).
    { unfold numberingRule. cbn [holds]. now rewrite Hd, HL. }
    assert (H2 : numberingRule (Some c) (Some Char.dot) (Some L) (head cs)
                 = Put).
    { unfold numberingRule. cbn [holds]. now rewrite Hd, HL. }
    assert (H3 : numberingRule (Some Char.dot) (Some L) (head cs)
                   (head (tl cs)) = Keep).
    { unfold numberingRule. cbn [holds].
      now rewrite (upper_not_digit _ HL). }
    rewrite H1, H2. cbn [act gap app]. do 4 f_equal.
    rewrite (render_eq cs), replaceAll_gap by reflexivity.
    rewrite regap_eq, H3. cbn [act]. rewrite render_cons. f_equal.
    destruct cs as [| c' cs]; [reflexivity |].
    apply nonSpace_cons in Hns. destruct Hns as [Hc' Hns].
    simpl body. simpl in Hlen.
    apply (IH (length cs)); trivial; try lia.
    cbn [holds]. now rewrite (upper_not_digit _ HL).
  - (* no match at [c] *)
    assert (Hnone : re_numbering (c :: render cs gs) = None).
    { rewrite Hm. destruct cs as [| p [| L cs]]; try reflexivity.
      cbn [holds head tl] in Hhit. now rewrite Hhit. }
    rewrite (replaceAll_miss _ _ _ Hnone). f_equal.
    rewrite render_eq, replaceAll_gap by reflexivity.
    rewrite (regap_eq numberingRule).
    assert (Hkeep : numberingRule p1 (Some c) (head cs) (head (tl cs)) = Keep).
    { unfold numberingRule.
      change (holds Char.isDigit (Some c)) with (Char.isDigit c).
      change (holds (isUnit Char.dot) (Some c)) with (isUnit Char.dot c).
      now rewrite Hhit, Hinv. }
    rewrite Hkeep. cbn [act]. rewrite render_cons. f_equal.
    destruct cs as [| c' cs]; [reflexivity |].
    apply nonSpace_cons in Hns. destruct Hns as [Hc' Hns].
    simpl body. simpl in Hlen. cbn [tl].
    destruct n as [| n]; [lia |].
    apply (IH n); trivial; try lia.
Qed.

Lemma fixNumbering_render cs :
  nonSpace cs ->
  forall gs,
    fixNumbering (render cs gs)
    = render cs (regap numberingRule None None cs gs).
Proof.
  intros Hns gs. rewrite render_eq. unfold fixNumbering.
  rewrite replaceAll_gap by reflexivity.
  rewrite regap_eq. cbn [numberingRule holds andb act]. rewrite render_cons.
  f_equal. destruct cs as [| c cs]; [reflexivity |].
  apply nonSpace_cons in Hns. destruct Hns as [Hc Hns].
  now apply (fixNumbering_from (length cs)).
Qed.

(** *** The whole of cleanup on a spaced form *)

Lemma not_In_forallb (a : code_unit) (s : jsstring) :
  ~ In a s -> forallb (fun c => negb (isUnit a c)) s = true.
Proof.
  intro H. apply forallb_forall. intros c Hc.
  apply negb_true_iff, N.eqb_neq. congruence.
Qed.

Lemma fixPipeAsI_untouched (s : jsstring) :
  ~ In Char.pipe s -> fixPipeAsI s = s.
Proof.
  intro H. apply (replaceAll_untouched re_pipe (isUnit Char.pipe)).
  - intros c t Hc. unfold re_pipe. unfold isUnit in Hc. now rewrite Hc.
  - now apply not_In_forallb.
Qed.

Lemma removeArtifacts_untouched (s : jsstring) :
  ~ In Char.pipe s -> ~ In Char.underscore s -> removeArtifacts s = s.
Proof.
  intros Hp Hu. apply (replaceAll_untouched re_artifacts isArtifact).
  - intros c t Hc. unfold re_artifacts. now rewrite Hc.
  - apply forallb_forall. intros c Hc. unfold isArtifact.
    apply negb_true_iff, orb_false_iff. split; apply N.eqb_neq; congruence.
Qed.

Lemma render_without (a : code_unit) cs gs :
  a <> Char.space -> ~ In a cs -> ~ In a (render cs gs).
Proof. intros Ha Hcs H. apply render_In in H. tauto. Qed.

Lemma cleanOCRText_render cs :
  nonSpace cs ->
  ~ In Char.underscore cs -> ~ In Char.pipe cs ->
  ~ In Char.digit0 cs -> ~ In Char.digit5 cs ->
  forall gs,
    cleanOCRText (render cs gs)
    = render cs (regap spacingRule None None cs gs).
Proof.
  intros Hns Hu Hp H0 H5 gs. unfold cleanOCRText.
  rewrite (collapseWhitespace_render _ Hns).
  rewrite (fixNumbering_render _ Hns).
  rewrite (fixLettering_render _ Hns).
  rewrite fixPipeAsI_untouched by (apply render_without; easy).
  unfold zeroToO, fiveToS.
  rewrite (subst_untouched Char.digit0) by (apply render_without; easy).
  rewrite (subst_untouched Char.digit5) by (apply render_without; easy).
  rewrite (tightenDollar_render _ Hns _ None None) by discriminate.
  rewrite (tightenBackslash_render _ Hns _ None None) by discriminate.
  rewrite removeArtifacts_untouched by (apply render_without; easy).
  rewrite (trim_render _ Hns).
  now rewrite !regap_thenRule.
Qed.

(** C9 (as stated, refuted).  An underscore becomes a space only in the
    ninth step, after whitespace has been collapsed, so a second pass still
    has a run of two spaces to collapse; a 0, a 5 or a pipe becomes a capital
    letter after the numbering step has run, so a second pass finds a new
    numbering to space out. *)
Lemma cleanup_idempotence_counterexample :
  cleanOCRText (cleanOCRText (lit "a_ b")) <> cleanOCRText (lit "a_ b")
  /\ cleanOCRText (cleanOCRText (lit "1.0")) <> cleanOCRText (lit "1.0")
  /\ cleanOCRText (cleanOCRText (lit "1.5")) <> cleanOCRText (lit "1.5")
  /\ cleanOCRText (cleanOCRText (lit "1.|")) <> cleanOCRText (lit "1.|").
Proof. repeat split; vm_compute; discriminate. Qed.

(** C9 (amended).  Cleanup is idempotent on every string that contains no
    underscore, no pipe, no digit 0 and no digit 5. *)
Theorem cleanup_idempotent (x : jsstring) :
  ~ In Char.underscore x -> ~ In Char.pipe x ->
  ~ In Char.digit0 x -> ~ In Char.digit5 x ->
  cleanOCRText (cleanOCRText x) = cleanOCRText x.
Proof.
  intros Hu Hp H0 H5.
  destruct (collapseWhitespace_spaced x) as (cs & gs & E & Hns & Hin).
  assert (Hx : cleanOCRText x = cleanOCRText (render cs gs)).
  { unfold cleanOCRText. now rewrite E, (collapseWhitespace_render _ Hns). }
  assert (Hclean : forall a, ~ In a x -> ~ In a cs)
    by (intros a Ha Hcs; now apply Ha, Hin).
  rewrite Hx.
  rewrite !cleanOCRText_render by auto.
  now rewrite regap_idempotent.
Qed.

Lemma cleanup_idempotent_witness :
  cleanOCRText (cleanOCRText (lit "12 . Alpha  a )x $ y $ \ z "))
  = cleanOCRText (lit "12 . Alpha  a )x $ y $ \ z ").
Proof.
  apply (cleanup_idempotent (lit "12 . Alpha  a )x $ y $ \ z "));
    simpl; intuition discriminate.
Defined.

(* ================================================================== *)
(** * Further properties of the code *)

(** ** The recognizer's worker *)

Lemma initialize_cases tess w :
  initialize tess w
  = if isInitialized w then (Normal tt, w)
    else
      match createWorker tess with
      | Throw e => (Throw e, w)
      | Normal wk =>
          match setParameters tess wk with
          | Throw e =>
              (Throw e, {| worker := Some wk; isInitialized := false;
                           recognized := recognized w |})
          | Normal _ =>
              (Normal tt, {| worker := Some wk; isInitialized := true;
                             recognized := recognized w |})
          end
      end.
Proof.
  unfold initialize, bind, get, ret, await, setWorker, setInitialized.
  destruct (isInitialized w) eqn:E; [reflexivity |].
  destruct (createWorker tess) as [wk | e]; [| reflexivity].
  simpl. rewrite E.
  destruct (setParameters tess wk) as [[] | e]; reflexivity.
Qed.

Lemma extractTextFromCanvas_cases tess canvas region w :
  extractTextFromCanvas tess canvas region w
  = match initialize tess w with
    | (Throw e, w1) => (Throw e, w1)
    | (Normal _, w1) =>
        match worker w1 with
        | None => (Throw (Error "OCR worker not initialized"), w1)
        | Some wk =>
            let img := {| source := canvas; crop := region |} in
            let w2 := {| worker := worker w1;
                         isInitialized := isInitialized w1;
                         recognized := recognized w1 ++ [img] |} in
            match recognize tess wk img with
            | Normal data =>
                let text := cleanOCRText (RecognizeData.text data) in
                (Normal (OCRResult.mk text (RecognizeData.confidence data)
                           (detectMathContent text)), w2)
            | Throw _ => (Normal (OCRResult.mk [] 0 false), w2)
            end
        end
    end.
Proof.
  unfold extractTextFromCanvas, bind at 1.
  destruct (initialize tess w) as [[[] | e] w1]; [| reflexivity].
  unfold bind, get, tryCatch, callRecognize, ret, throw.
  destruct (worker w1) as [wk |] eqn:E; [| reflexivity].
  destruct (recognize tess wk _); simpl; rewrite ?E; reflexivity.
Qed.

(** X1. Whatever tesseract.js does, an extractor whose flag and worker
    agree keeps them in agreement through [initialize],
    [extractTextFromCanvas], [extractFromBoundingBox] and [terminate]. *)
Theorem extractor_stays_consistent tess doc canvas region pageNumber bbox
        scale workerTerminate w :
  consistent w ->
  consistent (snd (initialize tess w))
  /\ consistent (snd (extractTextFromCanvas tess canvas region w))
  /\ consistent
       (snd (extractFromBoundingBox tess doc canvas pageNumber bbox scale w))
  /\ consistent (snd (terminateWith workerTerminate w)).
Proof.
  intro Hw.
  assert (Hinit : consistent (snd (initialize tess w))).
  { rewrite initialize_cases.
    destruct (isInitialized w) eqn:Ei; [exact Hw |].
    destruct (createWorker tess) as [wk | e]; [| exact Hw].
    destruct (setParameters tess wk); unfold consistent; simpl;
      discriminate. }
  assert (Hwrap : forall cv rg,
             consistent (snd (extractTextFromCanvas tess cv rg w))).
  { intros cv rg. rewrite extractTextFromCanvas_cases.
    destruct (initialize tess w) as [[[] | e] w1]; simpl in Hinit |- *;
      [| exact Hinit].
    destruct (worker w1) as [wk |] eqn:E; [| exact Hinit].
    destruct (recognize tess wk _); unfold consistent; simpl;
      rewrite ?E; discriminate. }
  repeat split; trivial.
  - destruct (pdfExtraction doc pageNumber bbox scale) as [t c] eqn:E.
    rewrite (extractFromBoundingBox_cases tess _ canvas _ _ _ w _ _ E).
    destruct ((10 <? length t)%nat && gt c 90); [exact Hw |].
    specialize (Hwrap canvas (Some bbox)). cbv zeta.
    destruct (extractTextFromCanvas tess canvas (Some bbox) w)
      as [[r | e] w']; simpl in Hwrap |- *; [| exact Hwrap].
    destruct (gt (OCRResult.confidence r) 60); [| exact Hwrap].
    now destruct (nonEmpty t && nonEmpty (OCRResult.text r)).
  - unfold terminateWith, bind, get, await, setWorker, setInitialized, ret.
    destruct (worker w) as [wk |] eqn:E; [| exact Hw].
    destruct (workerTerminate wk) as [[] | e]; [| exact Hw].
    unfold consistent. simpl. discriminate.
Qed.

Lemma extractor_stays_consistent_witness :
  consistent (snd (initialize Samples.unavailable Samples.freshWorld))
  /\ consistent
       (snd (extractTextFromCanvas Samples.failing Samples.canvas
               (Some Samples.selection) Samples.freshWorld))
  /\ consistent
       (snd (extractFromBoundingBox Samples.failing (Samples.document [])
               Samples.canvas 1 Samples.selection 1.5 Samples.freshWorld))
  /\ consistent
       (snd (terminateWith (fun _ => Normal tt) Samples.freshWorld)).
Proof.
  split; [| split; [| split]].
  - apply (extractor_stays_consistent Samples.unavailable
             (Samples.document []) Samples.canvas None 1 Samples.selection
             1.5%Q (fun _ => Normal tt) Samples.freshWorld).
    discriminate.
  - apply (extractor_stays_consistent Samples.failing
             (Samples.document []) Samples.canvas (Some Samples.selection) 1
             Samples.selection 1.5%Q (fun _ => Normal tt) Samples.freshWorld).
    discriminate.
  - apply (extractor_stays_consistent Samples.failing
             (Samples.document []) Samples.canvas (Some Samples.selection) 1
             Samples.selection 1.5%Q (fun _ => Normal tt) Samples.freshWorld).
    discriminate.
  - apply (extractor_stays_consistent Samples.failing
             (Samples.document []) Samples.canvas (Some Samples.selection) 1
             Samples.selection 1.5%Q (fun _ => Normal tt) Samples.freshWorld).
    discriminate.
Defined.

Lemma extractTextFromCanvasDom_cases dom tess canvas region w :
  extractTextFromCanvasDom dom tess canvas region w
  = match initialize tess w with
    | (Throw e, w1) => (Throw e, w1)
    | (Normal _, w1) =>
        match worker w1 with
        | None => (Throw (Error "OCR worker not initialized"), w1)
        | Some wk =>
            match match region with
                  | Some rectangle => dom canvas rectangle
                  | None => Normal tt
                  end with
            | Throw e => (Throw e, w1)
            | Normal _ =>
                let img := {| source := canvas; crop := region |} in
                let w2 := {| worker := worker w1;
                             isInitialized := isInitialized w1;
                             recognized := recognized w1 ++ [img] |} in
                match recognize tess wk img with
                | Normal data =>
                    let text := cleanOCRText (RecognizeData.text data) in
                    (Normal (OCRResult.mk text (RecognizeData.confidence data)
                               (detectMathContent text)), w2)
                | Throw _ => (Normal (OCRResult.mk [] 0 false), w2)
                end
            end
        end
    end.
Proof.
  unfold extractTextFromCanvasDom, bind at 1.
  destruct (initialize tess w) as [[[] | e] w1]; [| reflexivity].
  unfold bind, get, tryCatch, callRecognize, ret, throw, await.
  destruct (worker w1) as [wk |] eqn:E; [| reflexivity].
  destruct region as [rectangle |].
  - destruct (dom canvas rectangle) as [[] | e]; [| reflexivity].
    destruct (recognize tess wk _); simpl; rewrite ?E; reflexivity.
  - destruct (recognize tess wk _); simpl; rewrite ?E; reflexivity.
Qed.

Lemma cropping_completes dom tess canvas region w :
  (forall rectangle,
      region = Some rectangle -> dom canvas rectangle = Normal tt) ->
  extractTextFromCanvasDom dom tess canvas region w
  = extractTextFromCanvas tess canvas region w.
Proof.
  intro Hdom.
  rewrite extractTextFromCanvasDom_cases, extractTextFromCanvas_cases.
  destruct (initialize tess w) as [[[] | e] w1]; [| reflexivity].
  destruct (worker w1) as [wk |]; [| reflexivity].
  destruct region as [rectangle |]; [| reflexivity].
  now rewrite (Hdom rectangle eq_refl).
Qed.

Lemma cropping_throws dom tess canvas rectangle e w :
  dom canvas rectangle = Throw e ->
  extractTextFromCanvasDom dom tess canvas (Some rectangle) w
  = match initialize tess w with
    | (Throw e', w1) => (Throw e', w1)
    | (Normal _, w1) =>
        match worker w1 with
        | None => (Throw (Error "OCR worker not initialized"), w1)
        | Some _ => (Throw e, w1)
        end
    end.
Proof.
  intro Hdom. rewrite extractTextFromCanvasDom_cases.
  destruct (initialize tess w) as [[[] | e'] w1]; [| reflexivity].
  destruct (worker w1) as [wk |]; [| reflexivity].
  now rewrite Hdom.
Qed.

Lemma cropping_cases (dom : Dom) canvas region :
  (forall rectangle,
      region = Some rectangle -> dom canvas rectangle = Normal tt)
  \/ exists rectangle e,
       region = Some rectangle /\ dom canvas rectangle = Throw e.
Proof.
  destruct region as [rectangle |]; [| left; discriminate].
  destruct (dom canvas rectangle) as [[] | e] eqn:E.
  - left. intros r [= <-]. exact E.
  - right. now exists rectangle, e.
Qed.

(** X2. Where the DOM cropping completes, the wrapper is
    [extractTextFromCanvas].  From a consistent state it never throws its
    own 'OCR worker not initialized': when it throws, either the extractor
    was not initialized and the error is the one [createWorker] or
    [setParameters] threw, or a rectangle was given and the error is the one
    the DOM cropping threw. *)
Theorem wrapper_throws_only_foreign_errors dom tess canvas region w :
  ((forall rectangle,
       region = Some rectangle -> dom canvas rectangle = Normal tt) ->
   extractTextFromCanvasDom dom tess canvas region w
   = extractTextFromCanvas tess canvas region w)
  /\ (consistent w ->
      forall e,
        fst (extractTextFromCanvasDom dom tess canvas region w) = Throw e ->
        (isInitialized w = false
         /\ (createWorker tess = Throw e
             \/ exists wk, createWorker tess = Normal wk
                           /\ setParameters tess wk = Throw e))
        \/ exists rectangle,
             region = Some rectangle /\ dom canvas rectangle = Throw e).
Proof.
  split; [apply cropping_completes |].
  intros Hw e.
  destruct (cropping_cases dom canvas region)
    as [Hdom | (rectangle & e' & -> & Hdom)].
  - rewrite (cropping_completes _ _ _ _ _ Hdom).
    rewrite extractTextFromCanvas_cases, initialize_cases.
    unfold consistent in Hw.
    destruct (isInitialized w) eqn:Ei.
    + destruct (worker w) as [wk |] eqn:E; [| now destruct Hw].
      simpl. destruct (recognize tess wk _); discriminate.
    + destruct (createWorker tess) as [wk | e1].
      * destruct (setParameters tess wk) as [[] | e1] eqn:Es; simpl.
        -- destruct (recognize tess wk _); discriminate.
        -- intros [= ->]. left. split; [reflexivity |]. right. now exists wk.
      * simpl. intros [= ->]. left. split; [reflexivity |]. now left.
  - rewrite (cropping_throws _ _ _ _ _ _ Hdom), initialize_cases.
    unfold consistent in Hw.
    destruct (isInitialized w) eqn:Ei.
    + destruct (worker w) as [wk |] eqn:E; [| now destruct Hw].
      simpl. intros [= ->]. right. now exists rectangle.
    + destruct (createWorker tess) as [wk | e1].
      * destruct (setParameters tess wk) as [[] | e1] eqn:Es; simpl.
        -- intros [= ->]. right. now exists rectangle.
        -- intros [= ->]. left. split; [reflexivity |]. right. now exists wk.
      * simpl. intros [= ->]. left. split; [reflexivity |]. now left.
Qed.

Lemma wrapper_throws_only_foreign_errors_witness :
  (isInitialized Samples.afterOneRecognition = false
   /\ (createWorker Samples.failing = Throw (Error "no 2d context")
       \/ exists wk, createWorker Samples.failing = Normal wk
                     /\ setParameters Samples.failing wk
                        = Throw (Error "no 2d context")))
  \/ exists rectangle,
       Some Samples.selection = Some rectangle
       /\ (fun _ _ => Throw (Error "no 2d context")) Samples.canvas rectangle
          = Throw (A := unit) (Error "no 2d context").
Proof.
  apply (proj2 (wrapper_throws_only_foreign_errors
                  (fun _ _ => Throw (Error "no 2d context"))
                  Samples.failing Samples.canvas (Some Samples.selection)
                  Samples.afterOneRecognition)).
  - discriminate.
  - reflexivity.
Defined.

(** X3. An initialized extractor reuses its worker: a further call does not
    depend on [createWorker] or [setParameters] and leaves both fields as
    they are.  With the worker there it throws only when a rectangle is given
    and the DOM cropping throws, and then [recognize] is not called. *)
Theorem worker_is_reused dom tess tess' canvas region w :
  isInitialized w = true ->
  (forall wk img, recognize tess wk img = recognize tess' wk img) ->
  extractTextFromCanvasDom dom tess canvas region w
    = extractTextFromCanvasDom dom tess' canvas region w
  /\ worker (snd (extractTextFromCanvasDom dom tess canvas region w))
     = worker w
  /\ isInitialized (snd (extractTextFromCanvasDom dom tess canvas region w))
     = true
  /\ (worker w <> None ->
      (exists r,
          fst (extractTextFromCanvasDom dom tess canvas region w) = Normal r)
      \/ exists rectangle e,
           region = Some rectangle
           /\ dom canvas rectangle = Throw e
           /\ extractTextFromCanvasDom dom tess canvas region w
              = (Throw e, w)).
Proof.
  intros Hi Hrec.
  destruct (cropping_cases dom canvas region)
    as [Hdom | (rectangle & e & -> & Hdom)].
  - rewrite !(cropping_completes _ _ _ _ _ Hdom).
    rewrite !extractTextFromCanvas_cases, !initialize_cases, Hi.
    cbv iota zeta.
    destruct (worker w) as [wk |] eqn:E.
    + rewrite <- Hrec.
      destruct (recognize tess wk _); simpl; rewrite ?E;
        (split; [| split; [| split]]); trivial;
        intros _; left; eexists; reflexivity.
    + simpl. split; [| split; [| split]]; trivial. congruence.
  - rewrite !(cropping_throws _ _ _ _ _ _ Hdom), !initialize_cases, Hi.
    cbv iota.
    destruct (worker w) as [wk |] eqn:E; simpl;
      (split; [| split; [| split]]); trivial; try congruence.
    intros _. right. now exists rectangle, e.
Qed.

Lemma worker_is_reused_witness :
  extractTextFromCanvasDom (fun _ _ => Normal tt) (Samples.reading "x" 90)
    Samples.canvas (Some Samples.selection) Samples.afterOneRecognition
  = extractTextFromCanvasDom (fun _ _ => Normal tt)
      {| createWorker := Throw (Error "worker failed to start");
         setParameters := fun _ => Throw (Error "no parameters");
         recognize := recognize (Samples.reading "x" 90) |}
      Samples.canvas (Some Samples.selection) Samples.afterOneRecognition.
Proof.
  apply (worker_is_reused (fun _ _ => Normal tt) (Samples.reading "x" 90)
           {| createWorker := Throw (Error "worker failed to start");
              setParameters := fun _ => Throw (Error "no parameters");
              recognize := recognize (Samples.reading "x" 90) |}
           Samples.canvas (Some Samples.selection)
           Samples.afterOneRecognition).
  - reflexivity.
  - reflexivity.
Defined.

(** X4. [terminate] releases the worker once [worker.terminate()] has
    resolved: both fields are reset, the log is kept, a second [terminate]
    does nothing and does not call the library, and the next extraction has
    to create a worker again.  When [worker.terminate()] rejects, the error
    propagates and the extractor keeps its worker. *)
Theorem terminate_releases_worker workerTerminate w wk :
  worker w = Some wk ->
  match workerTerminate wk with
  | Normal _ =>
      let released := {| worker := None; isInitialized := false;
                         recognized := recognized w |} in
      terminateWith workerTerminate w = (Normal tt, released)
      /\ (forall again, terminateWith again released = (Normal tt, released))
      /\ (forall tess canvas region e,
             createWorker tess = Throw e ->
             extractTextFromCanvas tess canvas region released
             = (Throw e, released))
  | Throw e => terminateWith workerTerminate w = (Throw e, w)
  end.
Proof.
  intro Hwk.
  unfold terminateWith, bind, get, await, setWorker, setInitialized, ret.
  rewrite Hwk.
  destruct (workerTerminate wk) as [[] | e]; [| reflexivity].
  cbv zeta. simpl. repeat split.
  intros tess canvas region e He.
  now rewrite extractTextFromCanvas_cases, initialize_cases, He.
Qed.

Lemma terminate_releases_worker_witness :
  let released := {| worker := None; isInitialized := false;
                     recognized := recognized Samples.afterOneRecognition |} in
  terminateWith (fun _ => Normal tt) Samples.afterOneRecognition
    = (Normal tt, released)
  /\ (forall again, terminateWith again released = (Normal tt, released))
  /\ (forall tess canvas region e,
         createWorker tess = Throw e ->
         extractTextFromCanvas tess canvas region released
         = (Throw e, released)).
Proof.
  apply (terminate_releases_worker (fun _ => Normal tt)
           Samples.afterOneRecognition EngWorker).
  reflexivity.
Defined.

Lemma extractTextFromCanvas_log tess canvas region w :
  let w' := snd (extractTextFromCanvas tess canvas region w) in
  match fst (extractTextFromCanvas tess canvas region w) with
  | Normal _ =>
      recognized w' = recognized w ++ [{| source := canvas; crop := region |}]
      /\ isInitialized w' = true
      /\ worker w' <> None
  | Throw _ => recognized w' = recognized w
  end.
Proof.
  cbv zeta. rewrite extractTextFromCanvas_cases, initialize_cases.
  destruct (isInitialized w) eqn:Ei.
  - destruct (worker w) as [wk |] eqn:E; [| reflexivity].
    simpl. destruct (recognize tess wk _); simpl; rewrite ?E, ?Ei;
      repeat split; trivial; discriminate.
  - destruct (createWorker tess) as [wk | e]; [| reflexivity].
    destruct (setParameters tess wk) as [[] | e]; [| reflexivity].
    simpl. destruct (recognize tess wk _); simpl; repeat split; discriminate.
Qed.

(** X5. A wrapper call that returns has called [worker.recognize] exactly
    once, on the crop it was asked for, and leaves the extractor initialized
    with its worker; a wrapper call that throws has not called it. *)
Theorem wrapper_recognizes_once tess canvas region w :
  let w' := snd (extractTextFromCanvas tess canvas region w) in
  match fst (extractTextFromCanvas tess canvas region w) with
  | Normal _ =>
      recognized w' = recognized w ++ [{| source := canvas; crop := region |}]
      /\ isInitialized w' = true
      /\ worker w' <> None
  | Throw _ => recognized w' = recognized w
  end.
Proof. apply extractTextFromCanvas_log. Qed.

(** ** The hybrid extraction as a whole *)

Lemma combineTextResults_nonEmpty pdfText ocrText :
  nonEmpty pdfText = true -> nonEmpty ocrText = true ->
  nonEmpty (combineTextResults pdfText ocrText) = true.
Proof.
  intros Hp Ho. unfold combineTextResults.
  destruct (gt _ _); [exact Hp |].
  destruct (gt _ _); [exact Ho |].
  now destruct pdfText.
Qed.

(** X6. [extractFromBoundingBox] never throws: whatever pdf.js and
    tesseract.js do, it returns an outcome; and it calls [worker.recognize]
    at most once, on the crop of the canvas at the selection. *)
Theorem extraction_always_returns tess doc canvas pageNumber bbox scale w :
  (exists r,
      fst (extractFromBoundingBox tess doc canvas pageNumber bbox scale w)
      = Normal r)
  /\ let w' :=
       snd (extractFromBoundingBox tess doc canvas pageNumber bbox scale w) in
     recognized w' = recognized w
     \/ recognized w'
        = recognized w ++ [{| source := canvas; crop := Some bbox |}].
Proof.
  destruct (pdfExtraction doc pageNumber bbox scale) as [t c] eqn:E.
  rewrite (extractFromBoundingBox_cases tess _ canvas _ _ _ w _ _ E).
  destruct ((10 <? length t)%nat && gt c 90).
  { split; [eexists; reflexivity | now left]. }
  pose proof (extractTextFromCanvas_log tess canvas (Some bbox) w) as Hlog.
  cbv zeta in Hlog |- *.
  destruct (extractTextFromCanvas tess canvas (Some bbox) w)
    as [[r | e] w']; simpl in Hlog |- *.
  - destruct Hlog as [Hlog _].
    destruct (gt (OCRResult.confidence r) 60);
      [destruct (nonEmpty t && nonEmpty (OCRResult.text r)) |];
      (split; [eexists; reflexivity | now right]).
  - split; [eexists; reflexivity | now left].
Qed.

(** X7. The outcome text is empty only in one case: the recognizer was
    confident (above 60) and its cleaned text is empty.  In every other
    case the text is the text layer's, the recognizer's, both, or the
    placeholder. *)
Theorem empty_outcome_only_from_confident_recognition
        tess doc canvas pageNumber bbox scale w r :
  fst (extractFromBoundingBox tess doc canvas pageNumber bbox scale w)
    = Normal r ->
  Extraction.text r = [] ->
  Extraction.method r = ocr
  /\ (60 < Extraction.confidence r)%Q
  /\ exists ocrResult,
       fst (extractTextFromCanvas tess canvas (Some bbox) w)
         = Normal ocrResult
       /\ OCRResult.text ocrResult = []
       /\ OCRResult.confidence ocrResult = Extraction.confidence r.
Proof.
  destruct (pdfExtraction doc pageNumber bbox scale) as [t c] eqn:E.
  rewrite (extractFromBoundingBox_cases tess _ canvas _ _ _ w _ _ E).
  destruct ((10 <? length t)%nat && gt c 90) eqn:Hshort.
  { simpl. intros [= <-]. simpl. intros ->. discriminate. }
  assert (Hfallback : orString t unableToExtract <> [])
    by (destruct t; discriminate).
  cbv zeta.
  destruct (extractTextFromCanvas tess canvas (Some bbox) w)
    as [[o | e] w']; simpl.
  - destruct (gt (OCRResult.confidence o) 60) eqn:Hc.
    + destruct (nonEmpty t && nonEmpty (OCRResult.text o)) eqn:Hboth.
      * intros [= <-]. simpl. intro Hnil.
        apply andb_true_iff in Hboth. destruct Hboth as [Ht Ho].
        pose proof (combineTextResults_nonEmpty _ _ Ht Ho) as Hne.
        rewrite Hnil in Hne. discriminate.
      * intros [= <-]. simpl. intro Hnil. split; [reflexivity |].
        split; [now apply gt_spec |]. now exists o.
    + intros [= <-]. simpl. intro Hnil. now destruct Hfallback.
  - intros [= <-]. simpl. intro Hnil. now destruct Hfallback.
Qed.

Lemma empty_outcome_only_from_confident_recognition_witness :
  ocr = ocr
  /\ (60 < 80)%Q
  /\ exists ocrResult,
       fst (extractTextFromCanvas (Samples.reading "___" 80) Samples.canvas
              (Some Samples.selection) Samples.freshWorld)
         = Normal ocrResult
       /\ OCRResult.text ocrResult = []
       /\ OCRResult.confidence ocrResult = 80%Q.
Proof.
  apply (empty_outcome_only_from_confident_recognition
           (Samples.reading "___" 80)
           (Samples.document [Samples.fragment "Ans:" 100 700])
           Samples.canvas 1 Samples.selection 1.5%Q Samples.freshWorld
           (Extraction.mk [] ocr 80 false)).
  - vm_compute. reflexivity.
  - reflexivity.
Defined.

(** X8. When the text layer gives nothing (also because pdf.js threw) and
    the recognizer is confident, the outcome is the recognizer's result as it
    is: its cleaned text, method 'recognized', its confidence and its math
    flag. *)
Theorem recognition_alone tess doc canvas pageNumber bbox scale w
        ocrResult w' :
  fst (pdfExtraction doc pageNumber bbox scale) = [] ->
  extractTextFromCanvas tess canvas (Some bbox) w = (Normal ocrResult, w') ->
  (60 < OCRResult.confidence ocrResult)%Q ->
  extractFromBoundingBox tess doc canvas pageNumber bbox scale w
  = (Normal (Extraction.mk (OCRResult.text ocrResult) ocr
               (OCRResult.confidence ocrResult)
               (OCRResult.hasLatex ocrResult)), w').
Proof.
  intros Hpdf Hocr Hconf.
  destruct (pdfExtraction doc pageNumber bbox scale) as [t c] eqn:E.
  simpl in Hpdf. subst t.
  rewrite (extractFromBoundingBox_cases tess _ canvas _ _ _ w _ _ E), Hocr.
  apply gt_spec in Hconf. simpl. now rewrite Hconf.
Qed.

Lemma recognition_alone_witness :
  extractFromBoundingBox (Samples.reading "3 . Alpha" 75)
    {| getPage := fun _ => Throw (Error "no such page") |}
    Samples.canvas 7 Samples.selection 1.5 Samples.freshWorld
  = (Normal (Extraction.mk (lit "3. Alpha") ocr 75 false),
     Samples.afterOneRecognition).
Proof.
  apply (recognition_alone (Samples.reading "3 . Alpha" 75)
           {| getPage := fun _ => Throw (Error "no such page") |}
           Samples.canvas 7 Samples.selection 1.5%Q Samples.freshWorld
           (OCRResult.mk (lit "3. Alpha") 75 false)
           Samples.afterOneRecognition).
  - reflexivity.
  - vm_compute. reflexivity.
  - reflexivity.
Defined.

(** X9. When [getPage] or [getTextContent] throws, the two probes of
    [lib/pdf-utils.ts] throw that error, while the hybrid extractor's
    text-layer phase swallows it and goes on with an empty text of
    confidence 0. *)
Theorem pdf_failure_handling doc pageNumber bbox scale e :
  (getPage doc pageNumber = Throw e
   \/ exists page, getPage doc pageNumber = Normal page
                   /\ getTextContent page = Throw e) ->
  extractTextFromBoundingBox doc pageNumber bbox scale = Throw e
  /\ getPageText doc pageNumber = Throw e
  /\ pdfExtraction doc pageNumber bbox scale = ([], 0%Q).
Proof.
  unfold extractTextFromBoundingBox, getPageText, pdfExtraction.
  intros [H | [page [H1 H2]]].
  - now rewrite H.
  - rewrite H1. simpl. now rewrite H2.
Qed.

Lemma pdf_failure_handling_witness :
  extractTextFromBoundingBox
    {| getPage := fun _ => Throw (Error "no such page") |}
    7 Samples.selection 1.5 = Throw (Error "no such page")
  /\ getPageText {| getPage := fun _ => Throw (Error "no such page") |} 7
     = Throw (Error "no such page")
  /\ pdfExtraction {| getPage := fun _ => Throw (Error "no such page") |}
       7 Samples.selection 1.5 = ([], 0%Q).
Proof.
  apply (pdf_failure_handling
           {| getPage := fun _ => Throw (Error "no such page") |}
           7 Samples.selection 1.5%Q (Error "no such page")).
  left. reflexivity.
Defined.

Lemma strlen_scaled_08 (p o : jsstring) :
  gt (strlen p) (strlen o * 0.8) = (4 * length o <? 5 * length p)%nat.
Proof.
  destruct (Nat.ltb_spec (4 * length o) (5 * length p)) as [H | H].
  - apply gt_spec. unfold Qlt, strlen. simpl. lia.
  - apply gt_false. unfold Qle, strlen. simpl. lia.
Qed.

Lemma strlen_scaled_15 (p o : jsstring) :
  gt (strlen o) (strlen p * 1.5) = (3 * length p <? 2 * length o)%nat.
Proof.
  destruct (Nat.ltb_spec (3 * length p) (2 * length o)) as [H | H].
  - apply gt_spec. unfold Qlt, strlen. simpl. lia.
  - apply gt_false. unfold Qle, strlen. simpl. lia.
Qed.

(** X10. [combineTextResults] in whole numbers: the text-layer text wins
    when 5 times its length exceeds 4 times the recognized length; else the
    recognized text wins when twice its length exceeds 3 times the
    text-layer length; else both are joined by a space, which happens only
    when the recognized length lies between 1.25 and 1.5 times the
    text-layer length.  A text-layer text at least as long as the recognized
    one always wins, and the result is never longer than both plus one. *)
Theorem combineTextResults_by_lengths (pdfText ocrText : jsstring) :
  combineTextResults pdfText ocrText
  = (if (4 * length ocrText <? 5 * length pdfText)%nat then pdfText
     else if (3 * length pdfText <? 2 * length ocrText)%nat then ocrText
     else pdfText ++ [Char.space] ++ ocrText)
  /\ (combineTextResults pdfText ocrText
      = pdfText ++ [Char.space] ++ ocrText ->
      (5 * length pdfText <= 4 * length ocrText
       /\ 2 * length ocrText <= 3 * length pdfText)%nat)
  /\ (nonEmpty pdfText = true ->
      (length ocrText <= length pdfText)%nat ->
      combineTextResults pdfText ocrText = pdfText)
  /\ (length (combineTextResults pdfText ocrText)
      <= length pdfText + length ocrText + 1)%nat.
Proof.
  assert (Heq : combineTextResults pdfText ocrText
    = (if (4 * length ocrText <? 5 * length pdfText)%nat then pdfText
       else if (3 * length pdfText <? 2 * length ocrText)%nat then ocrText
       else pdfText ++ [Char.space] ++ ocrText)).
  { unfold combineTextResults.
    now rewrite strlen_scaled_08, strlen_scaled_15. }
  split; [exact Heq |]. rewrite Heq.
  destruct (Nat.ltb_spec (4 * length ocrText) (5 * length pdfText)) as [H1 | H1];
    [| destruct (Nat.ltb_spec (3 * length pdfText) (2 * length ocrText))
         as [H2 | H2]];
    (split; [| split]).
  - intro E. apply (f_equal (@length N)) in E.
    rewrite !length_app in E. simpl in E. lia.
  - reflexivity.
  - lia.
  - intro E. apply (f_equal (@length N)) in E.
    rewrite !length_app in E. simpl in E. lia.
  - intros Hne Hlen. destruct pdfText; [discriminate | simpl in *; lia].
  - lia.
  - intros _. lia.
  - intros Hne Hlen. destruct pdfText; [discriminate | simpl in *; lia].
  - rewrite !length_app. simpl. lia.
Qed.

Lemma combineTextResults_by_lengths_witness :
  combineTextResults (lit "What is 2 + 2?") (lit "What is 2+2")
  = lit "What is 2 + 2?".
Proof.
  apply (proj1 (proj2 (proj2 (combineTextResults_by_lengths
                                (lit "What is 2 + 2?") (lit "What is 2+2"))))).
  - reflexivity.
  - simpl. lia.
Defined.

(** ** What cleanup gives back *)

(** A replacement whose pattern matches wherever a code unit of class [p]
    starts, and which writes none, leaves none. *)
Lemma replace_from_removes (m : matcher) (p : N -> bool) :
  (forall c t, p c = true -> m (c :: t) <> None) ->
  (forall t repl extra,
      m t = Some (repl, extra) -> forallb (fun c => negb (p c)) repl = true) ->
  forall s skip, forallb (fun c => negb (p c)) (replace_from m skip s) = true.
Proof.
  intros Hhit Hrepl. induction s as [| c s IH]; intro skip; [reflexivity |].
  simpl. destruct skip as [| k]; [| apply IH].
  destruct (m (c :: s)) as [[repl extra] |] eqn:E.
  - rewrite forallb_app, (Hrepl _ _ _ E). apply IH.
  - simpl. rewrite IH, andb_true_r. apply negb_true_iff.
    destruct (p c) eqn:Hp; [| reflexivity].
    now destruct (Hhit c s Hp).
Qed.

(** A code unit of the output of a replacement that no replacement text
    brings in on its own was in the input. *)
Lemma replace_from_keeps (m : matcher) (c : N) :
  (forall t repl extra, m t = Some (repl, extra) -> In c repl -> In c t) ->
  forall s skip, In c (replace_from m skip s) -> In c s.
Proof.
  intros Hm. induction s as [| d s IH]; intros skip H; simpl in *; [tauto |].
  destruct skip as [| k].
  - destruct (m (d :: s)) as [[repl extra] |] eqn:E.
    + apply in_app_or in H. destruct H as [H | H].
      * now apply (Hm _ _ _ E).
      * right. now apply (IH extra).
    + destruct H as [H | H]; [now left | right; now apply (IH 0)].
  - right. now apply (IH k).
Qed.

Lemma takeWhile_In p (s : jsstring) (c : N) : In c (takeWhile p s) -> In c s.
Proof.
  induction s as [| d s IH]; simpl; [tauto |].
  destruct (p d); simpl; [| tauto].
  intros [H | H]; [now left | right; now apply IH].
Qed.

(** Whitespace other than U+0020. *)
Lemma odd_space_not_written (c : N) :
  Char.isSpace c = true -> c <> Char.space ->
  forall m, In m [re_numbering; re_lettering; re_pipe; re_dollar;
                  re_backslash; re_artifacts] ->
  forall t repl extra, m t = Some (repl, extra) -> In c repl -> In c t.
Proof.
  intros Hc Hsp m Hm t repl extra E Hin.
  assert (Hlit : forall d, d <> Char.space -> Char.isSpace d = false ->
                           c <> d) by (intros d _ Hd ->; congruence).
  simpl in Hm.
  destruct Hm as [<- | [<- | [<- | [<- | [<- | [<- | []]]]]]].
  - unfold re_numbering in E.
    destruct (takeWhile Char.isDigit t) as [| d0 ds] eqn:Eds; [discriminate |].
    destruct (dropWhile Char.isSpace (dropWhile Char.isDigit t))
      as [| d r1] eqn:Er; [discriminate |].
    destruct (d =? Char.dot)%N; [| discriminate].
    destruct (dropWhile Char.isSpace r1) as [| L r2] eqn:EL; [discriminate |].
    destruct (Char.isUpper L); [| discriminate].
    inversion E; subst repl. rewrite app_comm_cons in Hin.
    apply in_app_or in Hin.
    destruct Hin as [Hin | [Hin | [Hin | [Hin | []]]]].
    + apply (takeWhile_In Char.isDigit). now rewrite Eds.
    + now destruct (Hlit Char.dot).
    + congruence.
    + subst c. apply (dropWhile_In Char.isDigit), (dropWhile_In Char.isSpace).
      rewrite Er. right. apply (dropWhile_In Char.isSpace). rewrite EL.
      now left.
  - unfold re_lettering in E. destruct t as [| d t]; [discriminate |].
    destruct (Char.isLower d); [| discriminate].
    destruct (dropWhile Char.isSpace t) as [| q r1]; [discriminate |].
    destruct (q =? Char.rparen)%N; [| discriminate].
    inversion E; subst repl.
    destruct Hin as [Hin | [Hin | [Hin | []]]].
    + now left.
    + now destruct (Hlit Char.rparen).
    + congruence.
  - unfold re_pipe in E. destruct t as [| d t]; [discriminate |].
    destruct (d =? Char.pipe)%N; [| discriminate].
    inversion E; subst repl. destruct Hin as [Hin | []].
    now destruct (Hlit Char.upperI).
  - rewrite (re_dollar_writes _ _ _ E) in Hin. destruct Hin as [Hin | []].
    now destruct (Hlit Char.dollar).
  - rewrite (re_backslash_writes _ _ _ E) in Hin. destruct Hin as [Hin | []].
    now destruct (Hlit Char.backslash).
  - rewrite (re_artifacts_writes _ _ _ E) in Hin. destruct Hin as [Hin | []].
    congruence.
Qed.

Lemma subst_keeps_odd_space (a b c : N) (s : jsstring) :
  c <> b -> In c (subst a b s) -> In c s.
Proof.
  intros Hb H. apply subst_In in H. destruct H as [[H _] | [_ H]];
    [congruence | exact H].
Qed.

Lemma cleanOCRText_units (text : jsstring) (c : N) :
  In c (cleanOCRText text) ->
  c <> Char.pipe /\ c <> Char.underscore
  /\ c <> Char.digit0 /\ c <> Char.digit5
  /\ (Char.isSpace c = true -> c = Char.space).
Proof.
  intro Hin.
  assert (Hart : isArtifact c = false).
  { unfold cleanOCRText in Hin. apply trim_In in Hin.
    pose proof (replace_from_removes re_artifacts isArtifact) as H.
    assert (Hall : forallb (fun d => negb (isArtifact d))
                     (removeArtifacts
                        (tightenBackslash (tightenDollar (fiveToS (zeroToO
                           (fixPipeAsI (fixLettering (fixNumbering
                              (collapseWhitespace text))))))))) = true).
    { apply H.
      - intros d t Hd. unfold re_artifacts. now rewrite Hd.
      - intros t repl extra E. now rewrite (re_artifacts_writes _ _ _ E). }
    rewrite forallb_forall in Hall. apply negb_true_iff. now apply Hall. }
  unfold isArtifact in Hart. apply orb_false_iff in Hart.
  destruct Hart as [Hp Hu]. apply N.eqb_neq in Hp, Hu.
  destruct (cleanOCRText_no_digit_0_5 text) as [H0 H5].
  repeat split; trivial; try congruence.
  intro Hc. destruct (N.eq_dec c Char.space) as [| Hsp]; [assumption |].
  exfalso. unfold cleanOCRText in Hin. apply trim_In in Hin.
  pose proof (odd_space_not_written c Hc Hsp) as Hw.
  apply (replace_from_keeps re_artifacts) in Hin;
    [| apply Hw; simpl; tauto].
  apply (replace_from_keeps re_backslash) in Hin;
    [| apply Hw; simpl; tauto].
  apply (replace_from_keeps re_dollar) in Hin; [| apply Hw; simpl; tauto].
  apply subst_keeps_odd_space in Hin; [| intros ->; discriminate].
  apply subst_keeps_odd_space in Hin; [| intros ->; discriminate].
  apply (replace_from_keeps re_pipe) in Hin; [| apply Hw; simpl; tauto].
  apply (replace_from_keeps re_lettering) in Hin; [| apply Hw; simpl; tauto].
  apply (replace_from_keeps re_numbering) in Hin; [| apply Hw; simpl; tauto].
  pose proof (replace_from_removes re_spaces
                (fun d => Char.isSpace d && negb (d =? Char.space)%N)) as H.
  assert (Hall : forallb
                   (fun d => negb (Char.isSpace d && negb (d =? Char.space)%N))
                   (collapseWhitespace text) = true).
  { apply H.
    - intros d t Hd. apply andb_true_iff in Hd. destruct Hd as [Hd _].
      unfold re_spaces. now rewrite Hd.
    - intros t repl extra E. unfold re_spaces in E.
      destruct t as [| d t]; [discriminate |].
      destruct (Char.isSpace d); [| discriminate].
      now inversion E. }
  rewrite forallb_forall in Hall. specialize (Hall c Hin).
  apply negb_true_iff, andb_false_iff in Hall.
  destruct Hall as [Hall | Hall]; [congruence |].
  apply negb_false_iff, N.eqb_eq in Hall. congruence.
Qed.

(** X11. The cleaned text never contains a pipe, an underscore, the digit 0
    or the digit 5, and its only whitespace is the space U+0020. *)
Theorem cleanup_output_units (text : jsstring) (c : N) :
  In c (cleanOCRText text) ->
  c <> Char.pipe /\ c <> Char.underscore
  /\ c <> Char.digit0 /\ c <> Char.digit5
  /\ (Char.isSpace c = true -> c = Char.space).
Proof. apply cleanOCRText_units. Qed.

Lemma cleanup_output_units_witness :
  Char.upperI <> Char.pipe /\ Char.upperI <> Char.underscore
  /\ Char.upperI <> Char.digit0 /\ Char.upperI <> Char.digit5
  /\ (Char.isSpace Char.upperI = true -> Char.upperI = Char.space).
Proof.
  apply (cleanup_output_units (lit "a|_0") Char.upperI).
  vm_compute. tauto.
Defined.

Lemma dropWhile_head p (s : jsstring) : holds p (head (dropWhile p s)) = false.
Proof.
  induction s as [| c s IH]; [reflexivity |].
  simpl. destruct (p c) eqn:E; [exact IH | simpl; exact E].
Qed.

Lemma dropWhile_fixed p (s : jsstring) :
  holds p (head s) = false -> dropWhile p s = s.
Proof. destruct s as [| c s]; [reflexivity |]. simpl. now intros ->. Qed.

Lemma trim_ends (s : jsstring) :
  holds Char.isSpace (head (trim s)) = false
  /\ holds Char.isSpace (lastUnit (trim s)) = false.
Proof.
  unfold trim, trimStart. split.
  - pose proof (dropWhile_head Char.isSpace s) as H.
    destruct (dropWhile Char.isSpace s) as [| c t]; [reflexivity |].
    simpl in H. now rewrite (trimEnd_nonSpace _ _ H).
  - unfold lastUnit, trimEnd. rewrite rev_involutive. apply dropWhile_head.
Qed.

Lemma trim_idempotent (s : jsstring) : trim (trim s) = trim s.
Proof.
  destruct (trim_ends s) as [Hh Hl].
  unfold trim at 1. unfold trimStart.
  rewrite (dropWhile_fixed _ _ Hh).
  unfold trimEnd. unfold lastUnit in Hl.
  now rewrite (dropWhile_fixed _ _ Hl), rev_involutive.
Qed.

Lemma collapseWhitespace_blank (text : jsstring) :
  text <> [] -> forallb Char.isSpace text = true ->
  collapseWhitespace text = [Char.space].
Proof.
  destruct text as [| c t]; [congruence |]. intros _ H.
  simpl in H. apply andb_true_iff in H. destruct H as [Hc Ht].
  unfold collapseWhitespace.
  rewrite (replaceAll_hit _ _ _ [Char.space]
             (length (takeWhile Char.isSpace t)))
    by (unfold re_spaces; now rewrite Hc).
  now rewrite skipn_takeWhile, (dropWhile_all _ _ Ht).
Qed.

(** X12. The cleaned text has no whitespace at either end (trimming it
    again changes nothing), and a text of whitespace alone, or an empty one,
    is cleaned to the empty string. *)
Theorem cleanup_output_trimmed (text : jsstring) :
  trim (cleanOCRText text) = cleanOCRText text
  /\ holds Char.isSpace (head (cleanOCRText text)) = false
  /\ holds Char.isSpace (lastUnit (cleanOCRText text)) = false
  /\ (forallb Char.isSpace text = true -> cleanOCRText text = []).
Proof.
  split; [apply trim_idempotent |].
  split; [apply trim_ends |]. split; [apply trim_ends |].
  intro H. destruct text as [| c t]; [reflexivity |].
  unfold cleanOCRText.
  now rewrite (collapseWhitespace_blank (c :: t)) by (trivial; discriminate).
Qed.

Lemma cleanup_output_trimmed_witness :
  cleanOCRText (lit "   ") = [].
Proof.
  apply (proj2 (proj2 (proj2 (cleanup_output_trimmed (lit "   "))))).
  reflexivity.
Defined.

Lemma cleanOCRText_twice (x : jsstring) :
  ~ In Char.underscore x -> ~ In Char.pipe x ->
  ~ In Char.digit0 x -> ~ In Char.digit5 x ->
  cleanOCRText (cleanOCRText x) = cleanOCRText x.
Proof.
  intros Hu Hp H0 H5.
  destruct (collapseWhitespace_spaced x) as (cs & gs & E & Hns & Hin).
  assert (Hx : cleanOCRText x = cleanOCRText (render cs gs)).
  { unfold cleanOCRText. now rewrite E, (collapseWhitespace_render _ Hns). }
  assert (Hclean : forall a, ~ In a x -> ~ In a cs)
    by (intros a Ha Hcs; now apply Ha, Hin).
  rewrite Hx.
  rewrite !cleanOCRText_render by auto.
  now rewrite regap_idempotent.
Qed.

(** X13. Cleanup settles after two passes: for every text a third pass
    changes nothing. *)
Theorem cleanup_settles_after_two_passes (text : jsstring) :
  cleanOCRText (cleanOCRText (cleanOCRText text))
  = cleanOCRText (cleanOCRText text).
Proof.
  apply cleanOCRText_twice; intro H;
    destruct (cleanOCRText_units text _ H) as (H1 & H2 & H3 & H4 & _);
    congruence.
Qed.

(** ** When the detectors fire *)

Lemma search_found p (s : jsstring) :
  search p s = true -> exists pre t, s = pre ++ t /\ p t = true.
Proof.
  induction s as [| c s IH]; simpl.
  - rewrite orb_false_r. intro H. now exists [], [].
  - intro H. apply orb_true_iff in H. destruct H as [H | H].
    + now exists [], (c :: s).
    + destruct (IH H) as (pre & t & -> & Ht). now exists (c :: pre), t.
Qed.

Lemma search_at p (pre t : jsstring) :
  p t = true -> search p (pre ++ t) = true.
Proof.
  intro H. induction pre as [| c pre IH]; simpl.
  - destruct t; simpl; now rewrite H.
  - rewrite IH. apply orb_true_r.
Qed.

Lemma search_ctx_found p prev (s : jsstring) :
  search_ctx p prev s = true ->
  exists prev' pre t, s = pre ++ t /\ p prev' t = true.
Proof.
  revert prev. induction s as [| c s IH]; intro prev; simpl.
  - rewrite orb_false_r. intro H. now exists prev, [], [].
  - intro H. apply orb_true_iff in H. destruct H as [H | H].
    + now exists prev, [], (c :: s).
    + destruct (IH _ H) as (q & pre & t & -> & Ht).
      now exists q, (c :: pre), t.
Qed.

(** A pattern that can only start on a code unit of class [q] is found only
    in a text that has such a code unit. *)
Lemma search_needs p (q : N -> bool) (s : jsstring) :
  (forall t, p t = true -> holds q (head t) = true) ->
  search p s = true -> existsb q s = true.
Proof.
  intros Hp H. destruct (search_found _ _ H) as (pre & t & -> & Ht).
  apply Hp in Ht. destruct t as [| c t]; [discriminate |].
  rewrite existsb_app. simpl in *. rewrite Ht. now rewrite orb_true_r.
Qed.

Lemma isTrigger_units (c : N) :
  isUnit Char.dollar c = true \/ isUnit Char.backslash c = true
  \/ isUnit Char.caret c = true \/ isUnit Char.underscore c = true
  \/ existsb (N.eqb c) mathSymbols = true
  \/ existsb (N.eqb c) greekLetters = true ->
  isTrigger c = true.
Proof.
  unfold isTrigger. intros [H | [H | [H | [H | [H | H]]]]]; rewrite H;
    now rewrite ?orb_true_r.
Qed.

Lemma at_inlineMath_head t :
  at_inlineMath t = true -> holds isTrigger (head t) = true.
Proof.
  destruct t as [| c t]; [discriminate |]. simpl.
  intro H. apply andb_true_iff in H. destruct H as [H _].
  apply andb_true_iff in H. destruct H as [H _].
  apply isTrigger_units. now left.
Qed.

Lemma at_command_head t :
  at_command t = true -> holds isTrigger (head t) = true.
Proof.
  destruct t as [| c t]; [discriminate |]. simpl.
  intro H. apply andb_true_iff in H. destruct H as [H _].
  apply isTrigger_units. right. now left.
Qed.

Lemma at_commandBraced_head t :
  at_commandBraced t = true -> holds isTrigger (head t) = true.
Proof.
  destruct t as [| c t]; [discriminate |]. simpl.
  intro H. apply andb_true_iff in H. destruct H as [H _].
  apply andb_true_iff in H. destruct H as [H _].
  apply isTrigger_units. right. now left.
Qed.

Lemma script_mark_trigger (mark c : N) :
  mark = Char.caret \/ mark = Char.underscore ->
  isUnit mark c = true -> isTrigger c = true.
Proof.
  intros [-> | ->] H; apply isTrigger_units; tauto.
Qed.

Lemma at_scriptWord_head mark t :
  mark = Char.caret \/ mark = Char.underscore ->
  at_scriptWord mark t = true -> holds isTrigger (head t) = true.
Proof.
  intro Hm. destruct t as [| c t]; [discriminate |]. simpl.
  intro H. apply andb_true_iff in H. destruct H as [H _].
  now apply (script_mark_trigger mark).
Qed.

Lemma at_scriptToken_head mark t :
  mark = Char.caret \/ mark = Char.underscore ->
  at_scriptToken mark t = true -> holds isTrigger (head t) = true.
Proof.
  intro Hm. destruct t as [| c t]; [discriminate |]. simpl.
  intro H. apply andb_true_iff in H. destruct H as [H _].
  now apply (script_mark_trigger mark).
Qed.

Lemma at_scriptBraced_head mark t :
  mark = Char.caret \/ mark = Char.underscore ->
  at_scriptBraced mark t = true -> holds isTrigger (head t) = true.
Proof.
  intro Hm. destruct t as [| c [| o t]]; try discriminate. simpl.
  intro H. apply andb_true_iff in H. destruct H as [H _].
  apply andb_true_iff in H. destruct H as [H _].
  apply andb_true_iff in H. destruct H as [H _].
  now apply (script_mark_trigger mark).
Qed.

Lemma at_class_head cls t :
  cls = mathSymbols \/ cls = greekLetters ->
  at_class cls t = true -> holds isTrigger (head t) = true.
Proof.
  intros Hc. destruct t as [| c t]; [discriminate |]. simpl.
  intro H. apply isTrigger_units. destruct Hc as [-> | ->]; tauto.
Qed.

Lemma at_functionName_head prev t :
  at_functionName prev t = true -> holds Char.isAlpha (head t) = true.
Proof.
  unfold at_functionName. intro H.
  apply andb_true_iff in H. destruct H as [_ H].
  apply existsb_exists in H. destruct H as (name & Hname & H).
  destruct (functionNames_lower _ Hname) as [Hlow Hne].
  destruct name as [| p name]; [congruence |].
  destruct t as [| c t]; [discriminate |].
  simpl in H, Hlow. apply andb_true_iff in Hlow. destruct Hlow as [Hp _].
  destruct (canonicalize c =? canonicalize p)%N eqn:E; [| discriminate].
  apply N.eqb_eq in E. simpl. now apply (canonical_letter c p).
Qed.

(** X14. [detectLatex] fires only on a text holding a dollar sign, a
    backslash, a caret, an underscore, one of the listed math symbols or a
    Greek letter; [detectMathContent] fires only on a text holding one of
    those or an ASCII letter.  So digits, spaces and other punctuation alone
    are never tagged as math. *)
Theorem detectors_need_a_trigger (text : jsstring) :
  (detectLatex text = true -> existsb isTrigger text = true)
  /\ (detectMathContent text = true ->
      existsb (fun c => isTrigger c || Char.isAlpha c) text = true).
Proof.
  split.
  - unfold detectLatex, latexPatterns. simpl. rewrite orb_false_r.
    intro H.
    repeat (apply orb_true_iff in H; destruct H as [H | H]);
      revert H; apply search_needs.
    + apply at_inlineMath_head.
    + apply at_commandBraced_head.
    + apply at_command_head.
    + intro t. apply at_scriptToken_head. now left.
    + intro t. apply at_scriptToken_head. now right.
    + intro t. apply at_scriptBraced_head. now left.
    + intro t. apply at_scriptBraced_head. now right.
    + intro t. apply at_class_head. now left.
    + intro t. apply at_class_head. now right.
  - unfold detectMathContent, mathPatterns. simpl. rewrite orb_false_r.
    intro H.
    assert (Hweak : existsb isTrigger text = true ->
                    existsb (fun c => isTrigger c || Char.isAlpha c) text
                    = true).
    { intro Ht. apply existsb_exists in Ht. destruct Ht as (c & Hc & Ht).
      apply existsb_exists. exists c. now rewrite Ht. }
    repeat (apply orb_true_iff in H; destruct H as [H | H]).
    + apply Hweak. revert H. apply search_needs, at_inlineMath_head.
    + apply Hweak. revert H. apply search_needs, at_command_head.
    + apply Hweak. revert H. apply search_needs. intro t.
      apply at_scriptWord_head. now left.
    + apply Hweak. revert H. apply search_needs. intro t.
      apply at_scriptWord_head. now right.
    + apply Hweak. revert H. apply search_needs. intro t.
      apply at_class_head. now left.
    + apply Hweak. revert H. apply search_needs. intro t.
      apply at_class_head. now right.
    + destruct (search_ctx_found _ _ _ H) as (q & pre & t & -> & Ht).
      apply at_functionName_head in Ht.
      destruct t as [| c t]; [discriminate |].
      rewrite existsb_app. simpl in *. rewrite Ht.
      now rewrite !orb_true_r.
Qed.

Lemma detectors_need_a_trigger_witness :
  existsb isTrigger (lit "x^2") = true.
Proof.
  apply (proj1 (detectors_need_a_trigger (lit "x^2"))).
  reflexivity.
Defined.

(** X15. A text holding one of the listed math symbols or Greek letters is
    tagged as math by both detectors, wherever the code unit stands. *)
Theorem symbols_and_greek_always_detected (text : jsstring) (c : N) :
  In c text ->
  In c mathSymbols \/ In c greekLetters ->
  detectLatex text = true /\ detectMathContent text = true.
Proof.
  intros Hin Hc.
  apply in_split in Hin. destruct Hin as (pre & post & ->).
  assert (H : search (at_class mathSymbols) (pre ++ c :: post) = true
              \/ search (at_class greekLetters) (pre ++ c :: post) = true).
  { destruct Hc as [Hc | Hc]; [left | right]; apply search_at;
      unfold at_class; apply existsb_exists; exists c; split; trivial;
      apply N.eqb_refl. }
  unfold detectLatex, detectMathContent, latexPatterns, mathPatterns. simpl.
  destruct H as [H | H]; rewrite H; now rewrite ?orb_true_r.
Qed.

Lemma symbols_and_greek_always_detected_witness :
  detectLatex (lit "area = " ++ [0x3C0%N] ++ lit " r r") = true
  /\ detectMathContent (lit "area = " ++ [0x3C0%N] ++ lit " r r") = true.
Proof.
  apply (symbols_and_greek_always_detected
           (lit "area = " ++ [0x3C0%N] ++ lit " r r") 0x3C0%N).
  - vm_compute. tauto.
  - right. vm_compute. tauto.
Defined.

(** ** The text layer: the whole page and the confidence *)

Lemma filter_all {A} (p : A -> bool) (l : list A) :
  forallb p l = true -> filter p l = l.
Proof.
  induction l as [| a l IH]; simpl; [reflexivity |].
  intro H. apply andb_true_iff in H. destruct H as [Ha Hl].
  now rewrite Ha, (IH Hl).
Qed.

(** X17. On a page whose entries are all text fragments anchored in the
    region, the probe returns the text of [getPageText] trimmed; the two
    functions of [lib/pdf-utils.ts] differ only in the filter and the trim. *)
Theorem probe_of_a_covering_region doc pageNumber bbox scale page items :
  getPage doc pageNumber = Normal page ->
  getTextContent page = Normal items ->
  forallb (anchoredWithin (toPdfBbox (getViewport page scale) bbox scale))
          items = true ->
  exists pageText,
    getPageText doc pageNumber = Normal pageText
    /\ extractTextFromBoundingBox doc pageNumber bbox scale
       = Normal (trim pageText).
Proof.
  intros Hpage Hitems Hall.
  exists (join [Char.space] (List.map itemStr items)).
  unfold getPageText, extractTextFromBoundingBox.
  rewrite Hpage. simpl. rewrite Hitems. simpl.
  split; [reflexivity |].
  now rewrite trim_collectText, (filter_all _ _ Hall).
Qed.

Lemma probe_of_a_covering_region_witness :
  exists pageText,
    getPageText
      (Samples.document [Samples.fragment "What is" 100 700;
                         Samples.fragment "2 + 2?" 150 700]) 1
    = Normal pageText
    /\ extractTextFromBoundingBox
         (Samples.document [Samples.fragment "What is" 100 700;
                            Samples.fragment "2 + 2?" 150 700])
         1 Samples.selection 1.5
       = Normal (trim pageText).
Proof.
  eapply (probe_of_a_covering_region
            (Samples.document [Samples.fragment "What is" 100 700;
                               Samples.fragment "2 + 2?" 150 700])
            1 Samples.selection 1.5%Q);
    reflexivity.
Defined.

Lemma dropWhile_nil p (s : jsstring) :
  dropWhile p s = [] -> forallb p s = true.
Proof.
  induction s as [| c s IH]; simpl; [reflexivity |].
  destruct (p c); simpl; [exact IH | discriminate].
Qed.

Lemma existsb_negb (p : N -> bool) (s : jsstring) :
  existsb (fun c => negb (p c)) s = negb (forallb p s).
Proof.
  induction s as [| c s IH]; simpl; [reflexivity |].
  rewrite IH. now destruct (p c).
Qed.

Lemma trim_blank (s : jsstring) :
  trim s = [] <-> forallb Char.isSpace s = true.
Proof.
  split.
  - intro H. apply dropWhile_nil.
    pose proof (dropWhile_head Char.isSpace s) as Hh.
    unfold trim, trimStart, trimEnd in H.
    destruct (dropWhile Char.isSpace s) as [| c d]; [reflexivity |].
    simpl in Hh.
    assert (Hr : dropWhile Char.isSpace (rev (c :: d)) = [])
      by (rewrite <- (rev_involutive (dropWhile _ _)); now rewrite H).
    apply dropWhile_nil in Hr.
    rewrite forallb_forall in Hr.
    assert (Char.isSpace c = true)
      by (apply Hr; rewrite <- In_rev; now left).
    congruence.
  - intro H. unfold trim, trimStart. now rewrite (dropWhile_all _ _ H).
Qed.

Lemma nonEmpty_trim (s : jsstring) :
  nonEmpty (trim s) = existsb (fun c => negb (Char.isSpace c)) s.
Proof.
  rewrite existsb_negb.
  destruct (forallb Char.isSpace s) eqn:E.
  - apply trim_blank in E. now rewrite E.
  - destruct (trim s) eqn:T; [| reflexivity].
    apply trim_blank in T. congruence.
Qed.

Lemma existsb_join (p : N -> bool) (parts : list jsstring) :
  p Char.space = false ->
  existsb p (join [Char.space] parts) = existsb (existsb p) parts.
Proof.
  intro Hsp. induction parts as [| s rest IH]; [reflexivity |].
  destruct rest as [| s' rest'].
  - simpl. now rewrite orb_false_r.
  - change (join [Char.space] (s :: s' :: rest'))
      with (s ++ [Char.space] ++ join [Char.space] (s' :: rest')).
    rewrite !existsb_app, IH. simpl. now rewrite Hsp.
Qed.

Lemma existsb_map_filter {A B} (f : A -> B) (q : A -> bool) (p : B -> bool)
    (l : list A) :
  existsb p (List.map f (filter q l)) = existsb (fun a => q a && p (f a)) l.
Proof.
  induction l as [| a l IH]; simpl; [reflexivity |].
  destruct (q a); simpl; now rewrite IH.
Qed.

(** X18. When the text layer can be read, the confidence given to it is 95
    exactly when some fragment anchored in the region has a code unit that is
    not white space, and 0 otherwise: fragments of blanks alone count as no
    text. *)
Theorem text_layer_confidence doc pageNumber bbox scale page items :
  getPage doc pageNumber = Normal page ->
  getTextContent page = Normal items ->
  let pdfBbox := toPdfBbox (getViewport page scale) bbox scale in
  let visible item :=
    anchoredWithin pdfBbox item
    && existsb (fun c => negb (Char.isSpace c)) (itemStr item) in
  snd (pdfExtraction doc pageNumber bbox scale)
  = if existsb visible items then 95%Q else 0%Q.
Proof.
  intros Hpage Hitems pdfBbox visible.
  unfold pdfExtraction. rewrite Hpage. simpl. rewrite Hitems. simpl.
  rewrite strlen_positive, trim_collectText, nonEmpty_trim.
  rewrite existsb_join by reflexivity.
  now rewrite existsb_map_filter.
Qed.

Lemma text_layer_confidence_witness :
  snd (pdfExtraction
         (Samples.document [Samples.fragment "  " 100 700;
                            Samples.fragment "x" 100 9000]) 1
         Samples.selection 1.5)
  = 0%Q.
Proof.
  exact (text_layer_confidence
           (Samples.document [Samples.fragment "  " 100 700;
                              Samples.fragment "x" 100 9000])
           1 Samples.selection 1.5%Q
           {| viewWidth := 612; viewHeight := 792;
              getTextContent := Normal [Samples.fragment "  " 100 700;
                                        Samples.fragment "x" 100 9000] |}
           [Samples.fragment "  " 100 700; Samples.fragment "x" 100 9000]
           eq_refl eq_refl).
Defined.

(** ** The extraction loop *)

Lemma extractFromBoundingBox_total tess doc canvas pageNumber bbox scale w :
  exists r w',
    extractFromBoundingBox tess doc canvas pageNumber bbox scale w
    = (Normal r, w')
    /\ (recognized w' = recognized w
        \/ recognized w'
           = recognized w ++ [{| source := canvas; crop := Some bbox |}]).
Proof.
  destruct (pdfExtraction doc pageNumber bbox scale) as [t c] eqn:E.
  rewrite (extractFromBoundingBox_cases tess _ canvas _ _ _ w _ _ E).
  destruct ((10 <? length t)%nat && gt c 90).
  { eexists. eexists. split; [reflexivity | now left]. }
  pose proof (extractTextFromCanvas_log tess canvas (Some bbox) w) as Hlog.
  cbv zeta in Hlog |- *.
  destruct (extractTextFromCanvas tess canvas (Some bbox) w)
    as [[r | e] w']; simpl in Hlog |- *.
  - destruct Hlog as [Hlog _].
    destruct (gt (OCRResult.confidence r) 60);
      [destruct (nonEmpty t && nonEmpty (OCRResult.text r)) |];
      (eexists; eexists; split; [reflexivity | now right]).
  - eexists. eexists. split; [reflexivity | now left].
Qed.

Lemma extractOptions_total tess doc canvas optionBoxes :
  forall options w,
  exists added w' news,
    extractOptions tess doc canvas optionBoxes options w
    = (Normal (options ++ added), w')
    /\ Forall (fun o => nonEmpty o = true /\ trim o = o) added
    /\ recognized w' = recognized w ++ news
    /\ Forall (cropOfBox canvas optionBoxes) news.
Proof.
  induction optionBoxes as [| optionBox rest IH]; intros options w.
  - exists [], w, []. simpl. unfold ret.
    rewrite !app_nil_r. repeat split; constructor.
  - simpl. unfold bind.
    destruct (extractFromBoundingBox_total tess doc canvas
                (BoundingBox.page optionBox) (region optionBox) 1.5%Q w)
      as (r & w1 & E & Hlog).
    rewrite E. cbv zeta.
    set (trimmed := trim (Extraction.text r)).
    destruct (IH (if nonEmpty trimmed then options ++ [trimmed] else options)
                 w1)
      as (added & w' & news & E' & Hadded & Hrec & Hnews).
    assert (Hnews' : Forall (cropOfBox canvas (optionBox :: rest)) news).
    { revert Hnews. apply Forall_impl. intros img (Hs & b & Hb & Hc).
      split; [exact Hs |]. exists b. split; [now right | exact Hc]. }
    assert (Hhere : cropOfBox canvas (optionBox :: rest)
                      {| source := canvas;
                         crop := Some (region optionBox) |}).
    { split; [reflexivity |]. exists optionBox. split; [now left | reflexivity]. }
    assert (Hlog' : exists news',
               recognized w' = recognized w ++ news'
               /\ Forall (cropOfBox canvas (optionBox :: rest)) news').
    { destruct Hlog as [Hl | Hl]; rewrite Hrec, Hl.
      - now exists news.
      - exists ({| source := canvas; crop := Some (region optionBox) |}
                :: news).
        split; [now rewrite <- app_assoc | now constructor]. }
    destruct Hlog' as (news' & Hrec' & Hnews'').
    exists (if nonEmpty trimmed then trimmed :: added else added), w', news'.
    rewrite E'. repeat split; trivial.
    + destruct (nonEmpty trimmed); [| reflexivity].
      now rewrite <- app_assoc.
    + destruct (nonEmpty trimmed) eqn:En; [| exact Hadded].
      constructor; [| exact Hadded].
      split; [exact En | apply trim_idempotent].
Qed.

Lemma cropOfBox_incl canvas (boxes boxes' : list BoundingBox.t) news :
  (forall b, In b boxes -> In b boxes') ->
  Forall (cropOfBox canvas boxes) news -> Forall (cropOfBox canvas boxes') news.
Proof.
  intro Hincl. apply Forall_impl. intros img (Hs & b & Hb & Hc).
  split; [exact Hs |]. exists b. split; [now apply Hincl | exact Hc].
Qed.

Lemma extractQuestion_total tess doc canvas boundingBoxes questionBox w :
  In questionBox boundingBoxes ->
  isQuestion questionBox = true ->
  exists pushed w' news,
    extractQuestion tess doc canvas boundingBoxes questionBox w
    = (Normal pushed, w')
    /\ (forall m, pushed = Some m -> wellFormed boundingBoxes m)
    /\ (filter (isOptionOn (BoundingBox.page questionBox)) boundingBoxes = []
        -> pushed = None)
    /\ recognized w' = recognized w ++ news
    /\ Forall (cropOfBox canvas boundingBoxes) news.
Proof.
  intros Hin Hq. unfold extractQuestion. cbv zeta. unfold bind.
  destruct (extractFromBoundingBox_total tess doc canvas
              (BoundingBox.page questionBox) (region questionBox) 1.5%Q w)
    as (r & w1 & E & Hlog).
  rewrite E.
  destruct (extractOptions_total tess doc canvas
              (filter (isOptionOn (BoundingBox.page questionBox))
                      boundingBoxes) [] w1)
    as (options & w' & news & E' & Hopts & Hrec & Hnews).
  rewrite E'. simpl app.
  apply (cropOfBox_incl canvas _ boundingBoxes) in Hnews;
    [| intros b Hb; apply filter_In in Hb; tauto].
  assert (Hhere : cropOfBox canvas boundingBoxes
                    {| source := canvas;
                       crop := Some (region questionBox) |}).
  { split; [reflexivity |]. exists questionBox. now split. }
  assert (Hlog' : exists news',
             recognized w' = recognized w ++ news'
             /\ Forall (cropOfBox canvas boundingBoxes) news').
  { destruct Hlog as [Hl | Hl]; rewrite Hrec, Hl.
    - now exists news.
    - exists ({| source := canvas; crop := Some (region questionBox) |}
              :: news).
      split; [now rewrite <- app_assoc | now constructor]. }
  destruct Hlog' as (news' & Hrec' & Hnews').
  assert (Hnone : filter (isOptionOn (BoundingBox.page questionBox))
                    boundingBoxes = [] -> options = []).
  { intro Hf. rewrite Hf in E'. simpl in E'. unfold ret in E'.
    inversion E'. reflexivity. }
  change ([] ++ options) with options in *.
  destruct (nonEmpty (Extraction.text r)) eqn:Et;
    [destruct (0 <? length options)%nat eqn:El |]; simpl; cbv beta.
  - eexists. exists w', news'. split; [reflexivity |].
    split; [| split; [| split]]; trivial.
    + intros mcq Hm. inversion Hm; subst mcq; clear Hm.
      unfold wellFormed. simpl. split; [exact Et | split; [| split]].
      * intro H0. rewrite H0 in El. discriminate.
      * exact Hopts.
      * exists questionBox. now repeat split.
    + intro Hf. rewrite (Hnone Hf) in El. discriminate.
  - exists None, w', news'. split; [reflexivity |].
    split; [| split; [| split]]; trivial. discriminate.
  - exists None, w', news'. split; [reflexivity |].
    split; [| split; [| split]]; trivial. discriminate.
Qed.

Lemma extractLoop_total tess doc canvas boundingBoxes questionBoxes :
  (forall q, In q questionBoxes ->
             In q boundingBoxes /\ isQuestion q = true) ->
  forall i extractedMCQs w,
  exists mcqs w' news,
    extractLoop tess doc (Some canvas) boundingBoxes questionBoxes i
      extractedMCQs w
    = (Normal (extractedMCQs ++ mcqs), w')
    /\ Forall (wellFormed boundingBoxes) mcqs
    /\ (length mcqs <= length questionBoxes)%nat
    /\ recognized w' = recognized w ++ news
    /\ Forall (cropOfBox canvas boundingBoxes) news.
Proof.
  induction questionBoxes as [| questionBox rest IH];
    intros Hqs i extractedMCQs w.
  - exists [], w, []. simpl. unfold ret. rewrite !app_nil_r.
    repeat split; trivial; constructor.
  - destruct (Hqs questionBox (or_introl eq_refl)) as [Hin Hq].
    simpl. unfold bind, tryCatch.
    destruct (extractQuestion_total tess doc canvas boundingBoxes
                questionBox w Hin Hq)
      as (pushed & w1 & news1 & E & Hwf & _ & Hrec1 & Hnews1).
    rewrite E.
    destruct (IH (fun q Hq' => Hqs q (or_intror Hq')) (S i)
                 (push extractedMCQs pushed) w1)
      as (mcqs & w' & news & E' & Hmcqs & Hlen & Hrec & Hnews).
    rewrite E'.
    exists (match pushed with Some m => m :: mcqs | None => mcqs end), w',
           (news1 ++ news).
    repeat split.
    + destruct pushed; simpl; [now rewrite <- app_assoc | reflexivity].
    + destruct pushed as [m |]; [| exact Hmcqs].
      constructor; [now apply Hwf | exact Hmcqs].
    + destruct pushed; simpl; lia.
    + now rewrite Hrec, Hrec1, app_assoc.
    + apply Forall_app. now split.
Qed.

(** X19. With a canvas on the page the extraction loop never throws, and
    every MCQ it yields has a non-empty question, at least one option, only
    non-empty trimmed options, and the id and page of one of the question
    boxes; it yields at most one MCQ per question box. *)
Theorem extraction_loop_yields_well_formed_mcqs
        tess doc canvas boundingBoxes w :
  exists mcqs w',
    extractMCQs tess doc (Some canvas) boundingBoxes w = (Normal mcqs, w')
    /\ Forall (wellFormed boundingBoxes) mcqs
    /\ (length mcqs <= length (filter isQuestion boundingBoxes))%nat.
Proof.
  unfold extractMCQs.
  destruct (extractLoop_total tess doc canvas boundingBoxes
              (filter isQuestion boundingBoxes)
              (fun q Hq => proj1 (filter_In _ _ _) Hq) 0%nat [] w)
    as (mcqs & w' & news & E & Hwf & Hlen & _).
  exists mcqs, w'. now rewrite E.
Qed.

(** X20. Every image the loop hands to the recognizer is the crop of the one
    canvas found on the page at one of the drawn boxes, whatever page the
    box was drawn on; nothing else is recognized and earlier entries of the
    log are kept. *)
Theorem extraction_loop_recognizes_only_box_crops
        tess doc canvas boundingBoxes w :
  exists news,
    recognized (snd (extractMCQs tess doc (Some canvas) boundingBoxes w))
    = recognized w ++ news
    /\ Forall (cropOfBox canvas boundingBoxes) news.
Proof.
  unfold extractMCQs.
  destruct (extractLoop_total tess doc canvas boundingBoxes
              (filter isQuestion boundingBoxes)
              (fun q Hq => proj1 (filter_In _ _ _) Hq) 0%nat [] w)
    as (mcqs & w' & news & E & _ & _ & Hrec & Hnews).
  exists news. now rewrite E.
Qed.

(** X21. The [catch] of the inner [try] is unreachable: the body never
    throws, so the placeholder MCQ ("Question i from page p" with options
    A to D) is never pushed. *)
Theorem inner_catch_is_unreachable
        tess doc canvas boundingBoxes questionBox i w :
  tryCatch (extractQuestion tess doc canvas boundingBoxes questionBox)
           (fun _ => ret (Some (fallbackMCQ i questionBox))) w
  = extractQuestion tess doc canvas boundingBoxes questionBox w.
Proof.
  unfold tryCatch, extractQuestion. cbv zeta. unfold bind.
  destruct (extractFromBoundingBox_total tess doc canvas
              (BoundingBox.page questionBox) (region questionBox) 1.5%Q w)
    as (r & w1 & E & _).
  rewrite E.
  destruct (extractOptions_total tess doc canvas
              (filter (isOptionOn (BoundingBox.page questionBox))
                      boundingBoxes) [] w1)
    as (options & w' & news & E' & _).
  rewrite E'.
  now destruct (nonEmpty (Extraction.text r) && (0 <? length ([] ++ options))%nat).
Qed.

Lemma extractLoop_no_canvas tess doc boundingBoxes questionBoxes :
  forall i extractedMCQs w,
    extractLoop tess doc None boundingBoxes questionBoxes i extractedMCQs w
    = (Normal extractedMCQs, w).
Proof.
  induction questionBoxes as [| q rest IH]; intros i acc w; simpl;
    [reflexivity | apply IH].
Qed.

(** X22. Without a canvas on the page every question is skipped: the loop
    yields no MCQ, reads nothing from the document and leaves the extractor
    as it was. *)
Theorem no_canvas_no_mcqs tess doc boundingBoxes w :
  extractMCQs tess doc None boundingBoxes w = (Normal [], w).
Proof. apply extractLoop_no_canvas. Qed.

(** X23. A question box with no option box on its page yields no MCQ,
    whatever text is found for it. *)
Theorem question_without_options_is_dropped
        tess doc canvas boundingBoxes questionBox w :
  In questionBox boundingBoxes ->
  isQuestion questionBox = true ->
  filter (isOptionOn (BoundingBox.page questionBox)) boundingBoxes = [] ->
  fst (extractQuestion tess doc canvas boundingBoxes questionBox w)
  = Normal None.
Proof.
  intros Hin Hq Hf.
  destruct (extractQuestion_total tess doc canvas boundingBoxes questionBox w
              Hin Hq)
    as (pushed & w' & news & E & _ & Hnone & _).
  rewrite E. simpl. now rewrite (Hnone Hf).
Qed.

Lemma question_without_options_is_dropped_witness :
  fst (extractQuestion (Samples.reading "3 . Alpha" 75)
         (Samples.document [Samples.fragment "What is 2 + 2?" 100 700])
         Samples.canvas
         [BoundingBox.mk (lit "q1") 0 0 300 300 questionKind 1;
          BoundingBox.mk (lit "o1") 0 300 300 50 optionKind 2]
         (BoundingBox.mk (lit "q1") 0 0 300 300 questionKind 1)
         Samples.freshWorld)
  = Normal None.
Proof.
  apply (question_without_options_is_dropped
           (Samples.reading "3 . Alpha" 75)
           (Samples.document [Samples.fragment "What is 2 + 2?" 100 700])
           Samples.canvas
           [BoundingBox.mk (lit "q1") 0 0 300 300 questionKind 1;
            BoundingBox.mk (lit "o1") 0 300 300 50 optionKind 2]
           (BoundingBox.mk (lit "q1") 0 0 300 300 questionKind 1)
           Samples.freshWorld).
  - simpl. left. reflexivity.
  - reflexivity.
  - reflexivity.
Defined.

(** ** The recognizer's flag after cleanup *)

Lemma cleaned_has_no_subscript (raw : jsstring) :
  search (at_scriptWord Char.underscore) (cleanOCRText raw) = false.
Proof.
  destruct (search _ _) eqn:E; [| reflexivity]. exfalso.
  destruct (search_found _ _ E) as (pre & t & Heq & Ht).
  destruct t as [| c t]; [discriminate |]. simpl in Ht.
  apply andb_true_iff in Ht. destruct Ht as [Hc _].
  apply N.eqb_eq in Hc. subst c.
  destruct (cleanOCRText_units raw Char.underscore) as (_ & Hu & _).
  - rewrite Heq. apply in_or_app. right. now left.
  - now apply Hu.
Qed.

(** X24. On the text the wrapper hands on, the subscript pattern of
    [detectMathContent] can never fire, cleanup having turned every
    underscore into a space: the flag [hasLatex] of a recognition is decided
    by the six other patterns. *)
Theorem subscript_pattern_dead_after_cleanup (raw : jsstring) :
  let text := cleanOCRText raw in
  search (at_scriptWord Char.underscore) text = false
  /\ detectMathContent text
     = existsb (fun pattern => pattern text)
         [ search at_inlineMath;
           search at_command;
           search (at_scriptWord Char.caret);
           search (at_class mathSymbols);
           search (at_class greekLetters);
           search_ctx at_functionName None ].
Proof.
  cbv zeta. split; [apply cleaned_has_no_subscript |].
  unfold detectMathContent, mathPatterns. simpl.
  now rewrite cleaned_has_no_subscript.
Qed.

(** ** The Gemini extractor *)

Lemma lt_strlen (s : jsstring) (k : Z) :
  Gemini.lt (strlen s) (inject_Z k) = (Z.of_nat (length s) <? k)%Z.
Proof.
  unfold Gemini.lt, strlen, Qcompare. simpl. rewrite !Z.mul_1_r.
  reflexivity.
Qed.

Lemma calculateConfidence_short (text : jsstring) :
  (length text < 3)%nat -> Gemini.calculateConfidence text = 0%Q.
Proof.
  intro H. unfold Gemini.calculateConfidence.
  change 3%Q with (inject_Z 3). rewrite lt_strlen.
  assert (E : (Z.of_nat (length text) <? 3)%Z = true)
    by (apply Z.ltb_lt; lia).
  now rewrite E, orb_true_r.
Qed.

Lemma calculateConfidence_bands (text : jsstring) :
  (3 <= length text)%nat ->
  ((length text < 10)%nat ->
   (45 <= Gemini.calculateConfidence text
    /\ Gemini.calculateConfidence text <= 75)%Q)
  /\ ((10 <= length text)%nat ->
      (65 <= Gemini.calculateConfidence text
       /\ Gemini.calculateConfidence text <= 95)%Q).
Proof.
  intro H3. unfold Gemini.calculateConfidence.
  change 3%Q with (inject_Z 3). change 10%Q with (inject_Z 10).
  rewrite !lt_strlen.
  assert (E3 : (Z.of_nat (length text) <? 3)%Z = false)
    by (apply Z.ltb_ge; lia).
  assert (Ene : nonEmpty text = true) by (destruct text; simpl in *; [lia | reflexivity]).
  rewrite E3, Ene. simpl negb. simpl orb. cbv iota zeta.
  split; intro H10.
  - assert (E10 : (Z.of_nat (length text) <? 10)%Z = true)
      by (apply Z.ltb_lt; lia).
    rewrite E10.
    destruct (Gemini.startsWithQuestionWord text), (detectLatex text),
      (search Gemini.at_artifactRun text);
      split; vm_compute; discriminate.
  - assert (E10 : (Z.of_nat (length text) <? 10)%Z = false)
      by (apply Z.ltb_ge; lia).
    rewrite E10.
    destruct (Gemini.startsWithQuestionWord text), (detectLatex text),
      (search Gemini.at_artifactRun text);
      split; vm_compute; discriminate.
Qed.

(** X25. [calculateConfidence] of the Gemini extractor: 0 exactly for a text
    of fewer than three code units; between 45 and 75 for three to nine code
    units; between 65 and 95 from ten code units on.  So the final clamp to
    [0, 100] never changes the score. *)
Theorem gemini_confidence_bands (text : jsstring) :
  (Gemini.calculateConfidence text = 0%Q <-> (length text < 3)%nat)
  /\ ((3 <= length text < 10)%nat ->
      (45 <= Gemini.calculateConfidence text
       /\ Gemini.calculateConfidence text <= 75)%Q)
  /\ ((10 <= length text)%nat ->
      (65 <= Gemini.calculateConfidence text
       /\ Gemini.calculateConfidence text <= 95)%Q).
Proof.
  split; [split |].
  - intro H0. destruct (Nat.lt_ge_cases (length text) 3) as [| H3];
      [assumption |]. exfalso.
    destruct (calculateConfidence_bands text H3) as [Hs Hl].
    destruct (Nat.lt_ge_cases (length text) 10) as [H10 | H10].
    + destruct (Hs H10) as [Hlo _]. rewrite H0 in Hlo.
      vm_compute in Hlo. now apply Hlo.
    + destruct (Hl H10) as [Hlo _]. rewrite H0 in Hlo.
      vm_compute in Hlo. now apply Hlo.
  - apply calculateConfidence_short.
  - split.
    + intros [H3 H10]. now apply (calculateConfidence_bands text H3).
    + intro H10. apply (calculateConfidence_bands text); lia.
Qed.

Lemma gemini_confidence_bands_witness :
  (65 <= Gemini.calculateConfidence (lit "What is 2 + 2?")
   /\ Gemini.calculateConfidence (lit "What is 2 + 2?") <= 95)%Q.
Proof.
  apply (proj2 (proj2 (gemini_confidence_bands (lit "What is 2 + 2?")))).
  simpl. lia.
Defined.









(** ** The LaTeX helpers *)

Lemma takeWhile_app_all p (s t : jsstring) :
  forallb p s = true -> takeWhile p (s ++ t) = s ++ takeWhile p t.
Proof.
  induction s as [| c s IH]; simpl; [reflexivity |].
  intro H. apply andb_true_iff in H. destruct H as [Hc Hs].
  now rewrite Hc, (IH Hs).
Qed.

Lemma no_dollar_forallb (text : jsstring) :
  LatexUtils.includesDollar text = false ->
  forallb (isNotUnit Char.dollar) text = true.
Proof.
  unfold LatexUtils.includesDollar, isNotUnit, isUnit.
  induction text as [| c t IH]; simpl; [reflexivity |].
  intro H. apply orb_false_iff in H. destruct H as [Hc Ht].
  now rewrite Hc, (IH Ht).
Qed.

Lemma wrapped_is_inline_math (text : jsstring) :
  text <> [] -> LatexUtils.includesDollar text = false ->
  at_inlineMath ([Char.dollar] ++ text ++ [Char.dollar]) = true.
Proof.
  intros Hne Hno. apply no_dollar_forallb in Hno.
  cbn [app at_inlineMath].
  rewrite (takeWhile_app_all _ _ _ Hno), dropWhile_app, Hno.
  destruct text; [congruence | reflexivity].
Qed.

Lemma display_math_holds_inline_math (s : jsstring) :
  search LatexUtils.at_displayMath s = true -> search at_inlineMath s = true.
Proof.
  intro H. destruct (search_found _ _ H) as (pre & t & -> & Ht).
  destruct t as [| d1 [| d2 t]]; try discriminate.
  change (pre ++ d1 :: d2 :: t) with (pre ++ [d1] ++ d2 :: t).
  rewrite app_assoc. apply search_at.
  unfold LatexUtils.at_displayMath in Ht. unfold at_inlineMath.
  apply andb_true_iff in Ht. destruct Ht as [Ht Hend].
  apply andb_true_iff in Ht. destruct Ht as [Ht Hbody].
  apply andb_true_iff in Ht. destruct Ht as [_ H2].
  rewrite H2, Hbody.
  now destruct (dropWhile (isNotUnit Char.dollar) t).
Qed.

(** X27. [wrapLatexInline] wraps at most once: a text that it wraps has no
    dollar sign, the wrapped text is detected as LaTeX by the inline-math
    pattern, and wrapping it again changes nothing; a text holding a dollar
    sign is always returned as it is. *)
Theorem wrapLatexInline_wraps_once (text : jsstring) :
  LatexUtils.wrapLatexInline (LatexUtils.wrapLatexInline text)
  = LatexUtils.wrapLatexInline text
  /\ (LatexUtils.includesDollar text = true ->
      LatexUtils.wrapLatexInline text = text)
  /\ (LatexUtils.wrapLatexInline text <> text ->
      LatexUtils.wrapLatexInline text
      = [Char.dollar] ++ text ++ [Char.dollar]
      /\ LatexUtils.includesDollar text = false
      /\ search at_inlineMath (LatexUtils.wrapLatexInline text) = true).
Proof.
  assert (Hw : forall t,
             LatexUtils.includesDollar ([Char.dollar] ++ t ++ [Char.dollar])
             = true) by reflexivity.
  destruct (LatexUtils.detectLatex text && negb (LatexUtils.includesDollar text))
    eqn:E.
  - assert (Hwrap : LatexUtils.wrapLatexInline text
                    = [Char.dollar] ++ text ++ [Char.dollar])
      by (unfold LatexUtils.wrapLatexInline; now rewrite E).
    apply andb_true_iff in E. destruct E as [Ed Ei].
    apply negb_true_iff in Ei.
    rewrite Hwrap. split; [| split].
    + unfold LatexUtils.wrapLatexInline. now rewrite Hw, andb_false_r.
    + rewrite Ei. discriminate.
    + intros _. split; [reflexivity |]. split; [exact Ei |].
      apply (search_at _ []).
      apply wrapped_is_inline_math; [| exact Ei].
      intros ->. discriminate Ed.
  - assert (Hwrap : LatexUtils.wrapLatexInline text = text)
      by (unfold LatexUtils.wrapLatexInline; now rewrite E).
    rewrite !Hwrap. split; [reflexivity |]. split; [reflexivity | congruence].
Qed.

Lemma wrapLatexInline_wraps_once_witness :
  LatexUtils.wrapLatexInline (lit "x^2")
  = [Char.dollar] ++ lit "x^2" ++ [Char.dollar]
  /\ LatexUtils.includesDollar (lit "x^2") = false
  /\ search at_inlineMath (LatexUtils.wrapLatexInline (lit "x^2")) = true.
Proof.
  apply (proj2 (proj2 (wrapLatexInline_wraps_once (lit "x^2")))).
  vm_compute. discriminate.
Defined.

(** X28. The display-math pattern of the helper's [detectLatex] adds
    nothing, every [$$...$$] holding a [$...$]; and whatever the helper
    flags the extractors' [detectLatex] flags too. *)
Theorem helper_detector_is_subsumed (text : jsstring) :
  (search LatexUtils.at_displayMath text = true ->
   search at_inlineMath text = true)
  /\ (LatexUtils.detectLatex text = true -> detectLatex text = true).
Proof.
  split; [apply display_math_holds_inline_math |].
  unfold LatexUtils.detectLatex, LatexUtils.latexPatterns,
    detectLatex, latexPatterns.
  simpl. rewrite !orb_false_r. intro H.
  repeat (apply orb_true_iff in H; destruct H as [H | H]);
    try (rewrite H; now rewrite ?orb_true_r).
  apply display_math_holds_inline_math in H. now rewrite H.
Qed.

Lemma helper_detector_is_subsumed_witness :
  detectLatex (lit "$$x$$") = true.
Proof.
  apply (proj2 (helper_detector_is_subsumed (lit "$$x$$"))).
  reflexivity.
Defined.

(** ** The LaTeX endpoint *)

Lemma scanBraces_counts (text : jsstring) :
  forall n, (0 <= n)%Z ->
  RenderLatex.scanBraces n text = true <->
  (forall k,
      (Z.of_nat (length (filter (isUnit Char.rbrace) (firstn k text)))
       <= n + Z.of_nat (length (filter (isUnit Char.lbrace) (firstn k text))))%Z)
  /\ (n + Z.of_nat (length (filter (isUnit Char.lbrace) text))
      = Z.of_nat (length (filter (isUnit Char.rbrace) text)))%Z.
Proof.
  induction text as [| c text IH]; intros n Hn.
  - simpl. rewrite Z.eqb_eq. split.
    + intros ->. split; [| reflexivity]. intros [| k]; simpl; lia.
    + intros [_ H]. lia.
  - cbn [RenderLatex.scanBraces]. cbv zeta.
    assert (Hcase : (isUnit Char.lbrace c = true /\ isUnit Char.rbrace c = false)
                    \/ (isUnit Char.lbrace c = false /\ isUnit Char.rbrace c = true)
                    \/ (isUnit Char.lbrace c = false /\ isUnit Char.rbrace c = false)).
    { unfold isUnit.
      destruct (N.eqb_spec c Char.lbrace) as [-> | _]; [now left |].
      destruct (c =? Char.rbrace)%N; tauto. }
    destruct Hcase as [[Hl Hr] | [[Hl Hr] | [Hl Hr]]]; rewrite Hl, Hr.
    + assert (E : (n + 1 <? 0)%Z = false) by (apply Z.ltb_ge; lia).
      rewrite E, (IH (n + 1)%Z) by lia. cbn [filter]. rewrite Hl, Hr.
      cbn [length]. split.
      * intros [Hk Ht]. split; [| lia].
        intros [| k]; cbn [firstn filter length]; [lia |].
        rewrite Hl, Hr. cbn [length]. specialize (Hk k). lia.
      * intros [Hk Ht]. split; [| lia].
        intro k. specialize (Hk (S k)). cbn [firstn filter length] in Hk.
        rewrite Hl, Hr in Hk. cbn [length] in Hk. lia.
    + destruct (Z.ltb_spec (n - 1) 0) as [Hneg | Hpos].
      * split; [discriminate |]. intros [Hk _]. specialize (Hk 1%nat).
        cbn [firstn filter length] in Hk. rewrite Hl, Hr in Hk.
        cbn [length] in Hk. lia.
      * rewrite (IH (n - 1)%Z) by lia. cbn [filter]. rewrite Hl, Hr.
        cbn [length]. split.
        -- intros [Hk Ht]. split; [| lia].
           intros [| k]; cbn [firstn filter length]; [lia |].
           rewrite Hl, Hr. cbn [length]. specialize (Hk k). lia.
        -- intros [Hk Ht]. split; [| lia].
           intro k. specialize (Hk (S k)). cbn [firstn filter length] in Hk.
           rewrite Hl, Hr in Hk. cbn [length] in Hk. lia.
    + assert (E : (n <? 0)%Z = false) by (apply Z.ltb_ge; lia).
      rewrite E, (IH n) by lia. cbn [filter]. rewrite Hl, Hr. split.
      * intros [Hk Ht]. split; [| lia].
        intros [| k]; cbn [firstn filter length]; [lia |].
        rewrite Hl, Hr. specialize (Hk k). lia.
      * intros [Hk Ht]. split; [| lia].
        intro k. specialize (Hk (S k)). cbn [firstn filter length] in Hk.
        rewrite Hl, Hr in Hk. lia.
Qed.

(** X29. [isValidLatex] accepts exactly the texts whose braces are balanced:
    no prefix closes more braces than it opens, and the whole text opens as
    many as it closes.  Other code units play no part. *)
Theorem isValidLatex_is_brace_balance (text : jsstring) :
  RenderLatex.isValidLatex text = true <->
  (forall k,
      length (filter (isUnit Char.rbrace) (firstn k text))
      <= length (filter (isUnit Char.lbrace) (firstn k text)))%nat
  /\ length (filter (isUnit Char.lbrace) text)
     = length (filter (isUnit Char.rbrace) text).
Proof.
  unfold RenderLatex.isValidLatex.
  rewrite (scanBraces_counts text 0%Z) by lia. split.
  - intros [Hk Ht]. split; [| lia]. intro k. specialize (Hk k). lia.
  - intros [Hk Ht]. split; [| lia]. intro k. specialize (Hk k). lia.
Qed.


Lemma scanBraces_filter (text : jsstring) :
  forall n, (0 <= n)%Z ->
  RenderLatex.scanBraces n text
  = RenderLatex.scanBraces n (filter RenderLatex.isBrace text).
Proof.
  induction text as [| c text IH]; intros n Hn; [reflexivity |].
  cbn [RenderLatex.scanBraces filter]. unfold RenderLatex.isBrace at 1.
  cbv zeta.
  destruct (isUnit Char.lbrace c) eqn:Hl; cbn [orb].
  - cbn [RenderLatex.scanBraces]. cbv zeta. rewrite Hl.
    destruct (isUnit Char.rbrace c).
    + destruct (n + 1 - 1 <? 0)%Z; [reflexivity | apply IH; lia].
    + destruct (n + 1 <? 0)%Z; [reflexivity | apply IH; lia].
  - destruct (isUnit Char.rbrace c) eqn:Hr.
    + cbn [RenderLatex.scanBraces]. cbv zeta. rewrite Hl, Hr.
      destruct (Z.ltb_spec (n - 1) 0); [reflexivity | apply IH; lia].
    + assert (E : (n <? 0)%Z = false) by (apply Z.ltb_ge; lia).
      rewrite E. now apply IH.
Qed.

Lemma filter_replace_from (m : matcher) (p : N -> bool) :
  (forall t repl extra,
      m t = Some (repl, extra) ->
      filter p repl = [] /\ filter p (firstn (S extra) t) = []) ->
  forall s skip, filter p (replace_from m skip s) = filter p (skipn skip s).
Proof.
  intro Hm. induction s as [| c s IH]; intro skip.
  - now destruct skip.
  - destruct skip as [| k]; [| apply IH].
    cbn [replace_from skipn].
    destruct (m (c :: s)) as [[repl extra] |] eqn:E.
    + destruct (Hm _ _ _ E) as [Hrepl Hmatched].
      rewrite filter_app, Hrepl, IH. cbn [app].
      transitivity (filter p (firstn (S extra) (c :: s)
                              ++ skipn (S extra) (c :: s))).
      * rewrite filter_app, Hmatched. reflexivity.
      * now rewrite firstn_skipn.
    + cbn [filter]. now rewrite (IH 0%nat).
Qed.

Lemma firstn_takeWhile p (s : jsstring) :
  firstn (length (takeWhile p s)) s = takeWhile p s.
Proof.
  induction s as [| c s IH]; [reflexivity |].
  simpl. destruct (p c); [simpl; now rewrite IH | reflexivity].
Qed.

Lemma filter_none (p q : N -> bool) (s : jsstring) :
  (forall c, q c = true -> p c = false) ->
  forallb q s = true -> filter p s = [].
Proof.
  intro Hpq. induction s as [| c s IH]; [reflexivity |].
  simpl. intro H. apply andb_true_iff in H. destruct H as [Hc Hs].
  now rewrite (Hpq c Hc), (IH Hs).
Qed.

Lemma takeWhile_all p (s : jsstring) : forallb p (takeWhile p s) = true.
Proof.
  induction s as [| c s IH]; [reflexivity |].
  simpl. destruct (p c) eqn:E; [simpl; now rewrite E | reflexivity].
Qed.

Lemma filter_dropWhile (p q : N -> bool) (s : jsstring) :
  (forall c, q c = true -> p c = false) ->
  filter p (dropWhile q s) = filter p s.
Proof.
  intro Hpq. induction s as [| c s IH]; [reflexivity |].
  simpl. destruct (q c) eqn:E; [| reflexivity].
  now rewrite (Hpq c E).
Qed.

Lemma space_is_no_brace (c : N) :
  Char.isSpace c = true -> RenderLatex.isBrace c = false.
Proof.
  intro H. unfold RenderLatex.isBrace, isUnit.
  destruct (N.eqb_spec c Char.lbrace) as [-> | _]; [discriminate H |].
  destruct (N.eqb_spec c Char.rbrace) as [-> | _]; [discriminate H |].
  reflexivity.
Qed.

Lemma braces_of_cleaned (text : jsstring) :
  filter RenderLatex.isBrace (trim (collapseWhitespace text))
  = filter RenderLatex.isBrace text.
Proof.
  unfold trim, trimStart, trimEnd.
  rewrite filter_rev, (filter_dropWhile _ _ _ space_is_no_brace).
  rewrite filter_rev, rev_involutive.
  rewrite (filter_dropWhile _ _ _ space_is_no_brace).
  unfold collapseWhitespace, replaceAll.
  rewrite filter_replace_from; [reflexivity |].
  intros t repl extra E. unfold re_spaces in E.
  destruct t as [| c t]; [discriminate |].
  destruct (Char.isSpace c) eqn:Hc; [| discriminate].
  inversion E; subst; clear E. split; [reflexivity |].
  cbn [firstn]. rewrite firstn_takeWhile.
  apply (filter_none _ Char.isSpace); [exact space_is_no_brace |].
  simpl. now rewrite Hc, takeWhile_all.
Qed.

Lemma isValidLatex_cleaned (text : jsstring) :
  RenderLatex.isValidLatex (trim (collapseWhitespace text))
  = RenderLatex.isValidLatex text.
Proof.
  unfold RenderLatex.isValidLatex.
  rewrite (scanBraces_filter (trim _)), (scanBraces_filter text) by lia.
  now rewrite braces_of_cleaned.
Qed.

Lemma jsstring_eqb_eq (a b : jsstring) :
  RenderLatex.jsstring_eqb a b = true <-> a = b.
Proof.
  unfold RenderLatex.jsstring_eqb.
  destruct (list_eq_dec N.eq_dec a b); split; congruence.
Qed.

(** X30. The endpoint answers 200 exactly for a POST whose [latex] is a
    non-empty string with balanced braces, balance being that of the text as
    sent, which whitespace cleaning does not change; it then sends back the
    cleaned text, and it sends a text back in no other case. *)
Theorem endpoint_accepts_balanced_latex (req : RenderLatex.Request) :
  (RenderLatex.status (RenderLatex.handler req) = 200%nat <->
   RenderLatex.method req = lit "POST"
   /\ exists text,
        RenderLatex.latex req = RenderLatex.Text text
        /\ text <> []
        /\ RenderLatex.isValidLatex text = true)
  /\ (forall text,
        RenderLatex.latex req = RenderLatex.Text text ->
        RenderLatex.status (RenderLatex.handler req) = 200%nat ->
        RenderLatex.sent (RenderLatex.handler req)
        = Some (trim (collapseWhitespace text)))
  /\ (RenderLatex.sent (RenderLatex.handler req) <> None ->
      RenderLatex.status (RenderLatex.handler req) = 200%nat).
Proof.
  unfold RenderLatex.handler. cbv zeta.
  destruct (RenderLatex.jsstring_eqb (RenderLatex.method req) (lit "POST"))
    eqn:Em; cbn [negb].
  - apply jsstring_eqb_eq in Em.
    destruct (RenderLatex.latex req) as [| text | []] eqn:El; simpl;
      try (split; [split; [discriminate | intros (_ & t & Ht & _); discriminate]
                  | split; [intros t Ht; discriminate | congruence]]).
    rewrite isValidLatex_cleaned.
    destruct text as [| c text]; simpl negb; cbv iota.
    + simpl. split; [split; [discriminate |] | split; [discriminate | congruence]].
      intros (_ & t & Ht & Hne & _). congruence.
    + destruct (RenderLatex.isValidLatex (c :: text)) eqn:Ev; simpl.
      * split; [split; [intros _ | reflexivity] | split].
        -- split; [exact Em |]. exists (c :: text).
           repeat split; trivial. discriminate.
        -- intros t Ht _. now inversion Ht.
        -- reflexivity.
      * split; [split; [discriminate |] | split; [discriminate | congruence]].
        intros (_ & t & Ht & _ & Hv). inversion Ht; subst. congruence.
  - simpl. split; [split; [discriminate |] | split; [discriminate | congruence]].
    intros (Hm & _). apply jsstring_eqb_eq in Hm. congruence.
Qed.

Lemma endpoint_accepts_balanced_latex_witness :
  RenderLatex.sent
    (RenderLatex.handler
       {| RenderLatex.method := lit "POST";
          RenderLatex.latex := RenderLatex.Text (lit "\frac{a}  {b} ") |})
  = Some (trim (collapseWhitespace (lit "\frac{a}  {b} "))).
Proof.
  apply (proj1 (proj2 (endpoint_accepts_balanced_latex
           {| RenderLatex.method := lit "POST";
              RenderLatex.latex := RenderLatex.Text (lit "\frac{a}  {b} ") |}))
           (lit "\frac{a}  {b} "));
    reflexivity.
Defined.
